(** * ssm_analyze: the numeric core of [gui/widgets/plots.py]

    A shallow embedding of the array transforms behind the plotting widget
    (line-by-line and global background subtraction, the best-fit
    reductions, the rotation stage, slice extraction) and of the error
    handling around unit conversion and export.

    Conventions.
    - A float64 is a [num]: an exact rational, [+inf], [-inf] or [NaN].
      Arithmetic is exact on rationals and follows IEEE 754 on the special
      values; rounding, overflow and signed zeros are outside the model.
    - A 2D ndarray is a list of rows together with its column count, so
      that the shapes (0, M) are distinct.
    - Python exceptions are values of [exn]; a computation that may raise
      returns a [res].
    - ndarrays that are updated in place live in a [heap]; the functions
      that write through a reference run in the monad [M]. *)

From Stdlib Require Import ZArith QArith Qcanon Qcabs Lia Lqa String.
From stdpp Require Import base option list sorting gmap strings.

Local Open Scope Z_scope.

(** ** Numbers *)

Inductive num : Type :=
| Fin (q : Qc)
| PInf
| NInf
| NaN.

#[global] Instance num_eq_dec : EqDecision num.
Proof. solve_decision. Defined.

Definition num_of_Z (z : Z) : num := Fin (Q2Qc (inject_Z z)).
Definition num_of_nat (n : nat) : num := num_of_Z (Z.of_nat n).

(** The rational of a natural number, and the sum of rationals. *)
Definition qn (n : nat) : Qc := Q2Qc (inject_Z (Z.of_nat n)).
Definition qsum (l : list Qc) : Qc := foldr Qcplus 0%Qc l.
Definition num_of_Q (q : Q) : num := Fin (Q2Qc q).

(** [np.isfinite], [np.isnan] on one entry. *)
Definition isfinite (a : num) : bool :=
  match a with Fin _ => true | _ => false end.

Definition isnan (a : num) : bool :=
  match a with NaN => true | _ => false end.

Definition nneg (a : num) : num :=
  match a with
  | Fin x => Fin (- x)%Qc
  | PInf => NInf
  | NInf => PInf
  | NaN => NaN
  end.

Definition nadd (a b : num) : num :=
  match a, b with
  | NaN, _ | _, NaN => NaN
  | Fin x, Fin y => Fin (x + y)%Qc
  | PInf, NInf | NInf, PInf => NaN
  | PInf, _ | _, PInf => PInf
  | NInf, _ | _, NInf => NInf
  end.

Definition nsub (a b : num) : num :=
  match a, b with
  | NaN, _ | _, NaN => NaN
  | Fin x, Fin y => Fin (x - y)%Qc
  | PInf, PInf | NInf, NInf => NaN
  | PInf, _ | _, NInf => PInf
  | NInf, _ | _, PInf => NInf
  end.

Definition nmul (a b : num) : num :=
  match a, b with
  | NaN, _ | _, NaN => NaN
  | Fin x, Fin y => Fin (x * y)%Qc
  | Fin x, i | i, Fin x =>
      match (x ?= 0)%Qc with Eq => NaN | Gt => i | Lt => nneg i end
  | PInf, PInf | NInf, NInf => PInf
  | PInf, NInf | NInf, PInf => NInf
  end.

(** Division as numpy does it on arrays: a zero divisor gives an infinity
    or NaN instead of raising. *)
Definition ndiv (a b : num) : num :=
  match a, b with
  | NaN, _ | _, NaN => NaN
  | Fin x, Fin y =>
      match (y ?= 0)%Qc with
      | Eq => match (x ?= 0)%Qc with Eq => NaN | Gt => PInf | Lt => NInf end
      | _ => Fin (x / y)%Qc
      end
  | Fin _, _ => Fin 0%Qc
  | i, Fin y => match (y ?= 0)%Qc with Lt => nneg i | _ => i end
  | _, _ => NaN
  end.

(** The order on the entries that are not NaN. *)
Definition nle (a b : num) : bool :=
  match a, b with
  | NaN, _ | _, NaN => false
  | NInf, _ | _, PInf => true
  | Fin x, Fin y => match (x ?= y)%Qc with Gt => false | _ => true end
  | _, _ => false
  end.

(** Python truthiness of a number: only zero is falsy (NaN is truthy). *)
Definition truthy (a : num) : bool :=
  match a with
  | Fin x => match (x ?= 0)%Qc with Eq => false | _ => true end
  | _ => true
  end.

(** ** Exceptions and results *)

Inductive exn : Type :=
| IndexError
| ValueError
| TypeError
| KeyError
| AttributeError
| UnboundLocalError
| LinAlgError
| OtherError (msg : string).

#[global] Instance exn_eq_dec : EqDecision exn.
Proof. solve_decision. Defined.

Inductive res (A : Type) : Type :=
| Ok (a : A)
| Raise (e : exn).
Arguments Ok {A} a.
Arguments Raise {A} e.

#[global] Instance res_eq_dec {A : Type} `{EqDecision A} : EqDecision (res A).
Proof. solve_decision. Defined.

#[global] Instance res_ret : MRet res := λ A a, Ok a.
#[global] Instance res_bind : MBind res := λ A B f m,
  match m with Ok a => f a | Raise e => Raise e end.
#[global] Instance res_fmap : FMap res := λ A B f m,
  match m with Ok a => Ok (f a) | Raise e => Raise e end.

(** ** Arrays *)

(** What a reduction hands back: a 0-d value or a 1D array. *)
Inductive value : Type :=
| Scalar (v : num)
| Vector (vs : list num).

Record ndarray : Type := mk_ndarray {
  nd_rows : list (list num);
  nd_ncols : nat
}.

#[global] Instance ndarray_eq_dec : EqDecision ndarray.
Proof. solve_decision. Defined.

Definition nd_shape (z : ndarray) : nat * nat :=
  (length (nd_rows z), nd_ncols z).

(** Every row has the declared number of columns. *)
Definition nd_wf (z : ndarray) : Prop :=
  Forall (λ r, length r = nd_ncols z) (nd_rows z).

(** The entry [z[i, j]]. *)
Definition entry (z : ndarray) (i j : nat) : option num :=
  r ← nd_rows z !! i; r !! j.

(** [t[k]] on a Python sequence: negative indices count from the end. *)
Definition py_index {A : Type} (t : list A) (k : Z) : res A :=
  let n := Z.of_nat (length t) in
  let k' := if k <? 0 then k + n else k in
  if (k' <? 0) || (n <=? k') then Raise IndexError
  else match t !! Z.to_nat k' with
       | Some a => Ok a
       | None => Raise IndexError
       end.

(** [z[i, :]] and [z[:, j]] as values, for indices produced by [range]. *)
Definition row (z : ndarray) (i : nat) : res (list num) :=
  match nd_rows z !! i with
  | Some r => Ok r
  | None => Raise IndexError
  end.

Definition col (z : ndarray) (j : nat) : res (list num) :=
  if (j <? nd_ncols z)%nat then
    match mapM (λ r : list num, r !! j) (nd_rows z) with
    | Some c => Ok c
    | None => Raise IndexError
    end
  else Raise IndexError.

Definition set_row (z : ndarray) (i : nat) (r : list num) : ndarray :=
  mk_ndarray (<[i := r]> (nd_rows z)) (nd_ncols z).

Definition set_col (z : ndarray) (j : nat) (c : list num) : ndarray :=
  mk_ndarray (zip_with (λ r a, <[j := a]> r) (nd_rows z) c) (nd_ncols z).

(** [line -= v] on a 1D view of length M: [v] must broadcast to (M,). *)
Definition isub (line : list num) (v : value) : res (list num) :=
  match v with
  | Scalar s => Ok ((λ a, nsub a s) <$> line)
  | Vector [b] => Ok ((λ a, nsub a b) <$> line)
  | Vector bs =>
      if (length bs =? length line)%nat then Ok (zip_with nsub line bs)
      else Raise ValueError
  end.

(** ** The heap of ndarrays and the monad of in-place code *)

Abbreviation loc := positive.
Abbreviation heap := (gmap positive ndarray).

Definition M (A : Type) : Type := heap → res A * heap.

#[global] Instance M_ret : MRet M := λ A a h, (Ok a, h).
#[global] Instance M_bind : MBind M := λ A B f m h,
  match m h with
  | (Ok a, h') => f a h'
  | (Raise e, h') => (Raise e, h')
  end.

Definition lift {A : Type} (r : res A) : M A := λ h, (r, h).

Definition deref (l : loc) : M ndarray := λ h,
  match h !! l with
  | Some z => (Ok z, h)
  | None => (Raise (OtherError "dangling reference"), h)
  end.

Definition store (l : loc) (z : ndarray) : M unit := λ h,
  (Ok (), <[l := z]> h).

(** A new array object at an address no live array has. *)
Definition alloc (z : ndarray) : M loc := λ h,
  let l' := fresh (dom h) in (Ok l', <[l' := z]> h).

(** [zdata.copy()]: a new array object with the same contents. *)
Definition np_copy (l : loc) : M loc :=
  z ← deref l;
  alloc z.

(** [zdata.shape[axis]]. *)
Definition shape_at (l : loc) (axis : Z) : M nat :=
  z ← deref l;
  lift (py_index [length (nd_rows z); nd_ncols z] axis).

Fixpoint for_each {A : Type} (l : list A) (body : A → M unit) : M unit :=
  match l with
  | [] => mret ()
  | i :: l' => _ ← body i; for_each l' body
  end.

(** [for i in range(n): body]. *)
Definition for_range (n : nat) (body : nat → M unit) : M unit :=
  for_each (seq 0 n) body.

(** ** [subtract_line_by_line] *)

(** [line -= func(line)] where [line] is a view of the array at [l],
    read with [get] and written with [set]: the view passed to [func]
    and the view updated alias the same array. *)
Definition isub_line (get : ndarray → nat → res (list num))
    (set : ndarray → nat → list num → ndarray)
    (l : loc) (func : list num → res value) (i : nat) : M unit :=
  z ← deref l;
  line ← lift (get z i);
  v ← lift (func line);
  new ← lift (isub line v);
  store l (set z i new).

(** [zdata[i, :] -= func(zdata[i, :])] *)
Definition isub_row : loc → (list num → res value) → nat → M unit :=
  isub_line row set_row.

(** [zdata[:, i] -= func(zdata[:, i])] *)
Definition isub_col : loc → (list num → res value) → nat → M unit :=
  isub_line col set_col.

Definition subtract_line_by_line
    (zdata : loc) (axis : Z) (func : list num → res value) : M loc :=
  zdata ← np_copy zdata;
  if axis =? 0 then
    n ← shape_at zdata axis;
    _ ← for_range n (isub_row zdata func);
    mret zdata
  else
    n ← shape_at zdata axis;
    _ ← for_range n (isub_col zdata func);
    mret zdata.

(** ** numpy reductions

    The reductions the widget offers, on the flattened data. They are
    numpy's; the models below are their documented meaning in exact
    arithmetic. *)

Definition fmin (a b : num) : num :=
  if isnan a then b else if isnan b then a else if nle a b then a else b.

Definition fmax (a b : num) : num :=
  if isnan a then b else if isnan b then a else if nle a b then b else a.

(** [np.nanmin]: NaN entries are skipped; an empty input raises. *)
Definition nanmin (l : list num) : res num :=
  match l with
  | [] => Raise ValueError
  | a :: l' => Ok (foldl fmin a l')
  end.

Definition nanmax (l : list num) : res num :=
  match l with
  | [] => Raise ValueError
  | a :: l' => Ok (foldl fmax a l')
  end.

(** [np.min], [np.max]: a NaN entry makes the result NaN. *)
Definition pmin (a b : num) : num :=
  if isnan a || isnan b then NaN else if nle a b then a else b.

Definition pmax (a b : num) : num :=
  if isnan a || isnan b then NaN else if nle a b then b else a.

Definition np_min (l : list num) : res num :=
  match l with
  | [] => Raise ValueError
  | a :: l' => Ok (foldl pmin a l')
  end.

Definition np_max (l : list num) : res num :=
  match l with
  | [] => Raise ValueError
  | a :: l' => Ok (foldl pmax a l')
  end.

Definition nsum (l : list num) : num := foldl nadd (Fin 0%Qc) l.

Definition drop_nan (l : list num) : list num :=
  List.filter (λ a, negb (isnan a)) l.

(** [np.nanmean]: the sum of the entries that are not NaN over their
    count; 0/0 = NaN when there is none. *)
Definition nanmean (l : list num) : num :=
  let l' := drop_nan l in
  ndiv (nsum l') (num_of_nat (length l')).

(** [np.nanmedian]: the middle of the sorted entries that are not NaN,
    the half sum of the two middle ones for an even count. *)
Definition nanmedian (l : list num) : num :=
  let s := merge_sort (λ a b, Is_true (nle a b)) (drop_nan l) in
  let n := length s in
  if (n =? 0)%nat then NaN
  else if Nat.odd n then default NaN (s !! (n / 2)%nat)
  else ndiv (nadd (default NaN (s !! (n / 2 - 1)%nat))
                  (default NaN (s !! (n / 2)%nat)))
            (num_of_Z 2).

(** [np.polyfit(x, y, 1)]: the least-squares line through the points
    (x_k, y_k), all of them, as (slope, offset). With at least two
    distinct abscissae it is the solution of the normal equations; when
    all abscissae are one value c the system has rank one and numpy
    returns its minimum-norm solution on the scaled columns, which is
    (mean y / 2c, mean y / 2), and fails when c = 0. *)
Definition polyfit1 (x y : list num) : res (num * num) :=
  if (length x =? 0)%nat then Raise TypeError
  else if negb (length x =? length y)%nat then Raise TypeError
  else
    let n := num_of_nat (length x) in
    let sx := nsum x in
    let sy := nsum y in
    let sxx := nsum (zip_with nmul x x) in
    let sxy := nsum (zip_with nmul x y) in
    let d := nsub (nmul n sxx) (nmul sx sx) in
    if decide (d = Fin 0%Qc) then
      let c := default NaN (head x) in
      if decide (c = Fin 0%Qc) then Raise LinAlgError
      else
        let ybar := ndiv sy n in
        Ok (ndiv ybar (nmul (num_of_Z 2) c), ndiv ybar (num_of_Z 2))
    else
      let slope := ndiv (nsub (nmul n sxy) (nmul sx sy)) d in
      let offset := ndiv (nsub sy (nmul slope sx)) n in
      Ok (slope, offset).

(** ** [fit_line] *)

Definition fit_line (x y : list num) : res (list num) :=
  '(slope, offset) ← polyfit1 x y;
  Ok ((λ xi, nadd (nmul slope xi) offset) <$> x).

(** What the specification asks of the line fit: the coefficients come
    from the positions where [y] is finite, and the line is evaluated on
    all of [x]. *)
Fixpoint compress {A : Type} (mask : list bool) (l : list A) : list A :=
  match mask, l with
  | b :: mask', a :: l' => if b then a :: compress mask' l' else compress mask' l'
  | _, _ => []
  end.

Definition fit_line_finite_only (x y : list num) : res (list num) :=
  let mask := isfinite <$> y in
  '(slope, offset) ← polyfit1 (compress mask x) (compress mask y);
  Ok ((λ xi, nadd (nmul slope xi) offset) <$> x).

(** ** Arrays with units, and the widget *)

(** A pint quantity: a magnitude and the string of its unit. *)
Record Quantity (A : Type) : Type := mk_quantity {
  magnitude : A;
  units : string
}.
Arguments mk_quantity {A} magnitude units.
Arguments magnitude {A} q.
Arguments units {A} q.

Record DataItem (A : Type) : Type := mk_item {
  name : string;
  array : Quantity A
}.
Arguments mk_item {A} name array.
Arguments name {A} d.
Arguments array {A} d.

(** The dict [current_data]: keys "xs", "ys", "zs". *)
Record plot_data : Type := mk_plot_data {
  cd_xs : DataItem (list num);
  cd_ys : DataItem (list num);
  cd_zs : option (DataItem ndarray)
}.

(** An entry of the dict [arrays]. *)
Inductive qarray : Type :=
| Arr1 (q : Quantity (list num))
| Arr2 (q : Quantity ndarray).

(** What the widget reads of its dataset. *)
Record dataset_info : Type := mk_dataset {
  location : string;
  direction : option (string * string)
}.

(** An entry of the dict [exp_data]. *)
Inductive exp_entry : Type :=
| Exp1 (arr : list num) (unit : string)
| Exp2 (arr : ndarray) (unit : string)
| ExpSlice (xname : string) (xdata : list num) (xunit : string)
           (zname : string) (ydata : list num) (zunit : string) (index : Z).

#[global] Instance exp_entry_eq_dec : EqDecision exp_entry.
Proof. solve_decision. Defined.

Record widget : Type := mk_widget {
  current_data : option plot_data;
  fig_title : string;
  exp_data : gmap string exp_entry;
  dataset : option dataset_info;
  arrays : gmap string qarray;
  indep_vars : list string;
  backsub_radio : Z;       (* backsub_radio.checkedId() *)
  line_backsub_btn : bool; (* line_backsub_btn.isChecked() *)
  line_backsub_radio : Z;  (* line_backsub_radio.checkedId() *)
  xy_units_box : bool;     (* xy_units_box.isChecked() *)
  xy_units : string;       (* xy_units.text() *)
  units_text : string;     (* self.units.text() *)
  units_enabled : bool
}.

(** The arguments of one call of [plot_arrays]. *)
Record plot_call : Type := mk_plot_call {
  pc_xs : DataItem (list num);
  pc_ys : DataItem (list num);
  pc_zs : option (DataItem ndarray);
  pc_title : string
}.

(** ** Whole-array operations *)

Definition ravel (z : ndarray) : list num := concat (nd_rows z).

Definition nd_map (f : num → num) (z : ndarray) : ndarray :=
  mk_ndarray ((λ r : list num, f <$> r) <$> nd_rows z) (nd_ncols z).

Definition nd_zip_with (f : num → num → num) (a b : ndarray) : ndarray :=
  mk_ndarray (zip_with (zip_with f) (nd_rows a) (nd_rows b)) (nd_ncols a).

(** [z.T] *)
Definition transpose (z : ndarray) : ndarray :=
  mk_ndarray
    ((λ j, (λ r : list num, default NaN (r !! j)) <$> nd_rows z) <$> seq 0 (nd_ncols z))
    (length (nd_rows z)).

(** [np.meshgrid(x, y)]: two arrays of shape (len y, len x). *)
Definition meshgrid (x y : list num) : ndarray * ndarray :=
  (mk_ndarray (replicate (length y) x) (length x),
   mk_ndarray ((λ yi, replicate (length x) yi) <$> y) (length x)).

(** [a[mask]] for a boolean [mask = np.isfinite(z)]: the entries of [a]
    at the finite positions of [z], in row-major order; the shapes must
    agree. *)
Definition at_finite (a z : ndarray) : res (list num) :=
  if decide (nd_shape a = nd_shape z)
  then Ok (compress (isfinite <$> ravel z) (ravel a))
  else Raise IndexError.

(** [y - v] for a 1D [y]: out-of-place, so either side may broadcast. *)
Definition bsub1 (y : list num) (v : value) : res (list num) :=
  match v with
  | Scalar s => Ok ((λ a, nsub a s) <$> y)
  | Vector bs =>
      if (length bs =? length y)%nat then Ok (zip_with nsub y bs)
      else match bs, y with
           | [b], _ => Ok ((λ a, nsub a b) <$> y)
           | _, [a] => Ok ((λ b, nsub a b) <$> bs)
           | _, _ => Raise ValueError
           end
  end.

(** What a reduction of a 2D array hands back. *)
Inductive value2 : Type :=
| Scalar2 (v : num)
| Array2 (p : ndarray).

(** [z - v] for a 2D [z]; an array operand has the shape of [z] here
    (the only array operand is the plane of [fit_plane]). *)
Definition bsub2 (z : ndarray) (v : value2) : res ndarray :=
  match v with
  | Scalar2 s => Ok (nd_map (λ a, nsub a s) z)
  | Array2 p =>
      if decide (nd_shape p = nd_shape z) then Ok (nd_zip_with nsub z p)
      else Raise ValueError
  end.

(** The caller's side of a function that takes and returns an array
    object: the argument is an array of its own, the result is read back. *)
Definition call_on (f : loc → M loc) (z : ndarray) : res ndarray :=
  fst ((l ← alloc z; l' ← f l; deref l') ∅).

Section Externals.

(** [scipy.linalg.lstsq(r, b)[0]]: the coefficient vector, or an error. *)
Variable lstsq : list (list num) → list num → res (list num).

(** [scipy.ndimage rotate(z, angle, cval=cval)]. *)
Variable rotate : ndarray → num → num → ndarray.

(** ** [fit_plane] *)

Definition fit_plane (x y : list num) (z : ndarray) : res ndarray :=
  let '(X, Y) := meshgrid x y in
  xm ← at_finite X z;
  ym ← at_finite Y z;
  let r := zip_with (λ a b, [a; b; Fin 1%Qc]) xm ym in
  zm ← at_finite z z;
  coeffs ← lstsq r zm;
  c0 ← py_index coeffs 0;
  c1 ← py_index coeffs 1;
  c2 ← py_index coeffs 2;
  Ok (nd_zip_with (λ a b, nadd (nadd (nmul c0 a) (nmul c1 b)) c2) X Y).

(** ** [subtract_background] *)

(** The argument [idx]: absent, an int, or a radio button (carried here
    by the id the button group gives it). *)
Inductive idx_arg : Type :=
| IdxNone
| IdxInt (k : Z)
| IdxButton (id : Z).

(** [idx or checkedId]: None and 0 are falsy. *)
Definition idx_or (idx : option Z) (checkedId : Z) : Z :=
  match idx with
  | Some k => if k =? 0 then checkedId else k
  | None => checkedId
  end.

Definition selected_idx (w : widget) (idx : idx_arg) : Z :=
  let idx :=
    match idx with
    | IdxButton id => Some id
    | IdxInt k => Some k
    | IdxNone => None
    end in
  idx_or idx (backsub_radio w).

Definition line_funcs (x : list num) : list (list num → res value) :=
  [ (λ _, Ok (Scalar (Fin 0%Qc)));
    (λ l, Scalar <$> nanmin l);
    (λ l, Scalar <$> nanmax l);
    (λ l, Ok (Scalar (nanmean l)));
    (λ l, Ok (Scalar (nanmedian l)));
    (λ y, Vector <$> fit_line x y) ].

Definition global_funcs1 (x : list num) : list (list num → res value) :=
  [ (λ _, Ok (Scalar (Fin 0%Qc)));
    (λ l, Scalar <$> nanmin l);
    (λ l, Scalar <$> nanmax l);
    (λ l, Ok (Scalar (nanmean l)));
    (λ l, Ok (Scalar (nanmedian l))) ]
  ++ [ (λ y, Vector <$> fit_line x y) ].

Definition global_funcs2 (x y : list num) : list (ndarray → res value2) :=
  [ (λ _, Ok (Scalar2 (Fin 0%Qc)));
    (λ z, Scalar2 <$> nanmin (ravel z));
    (λ z, Scalar2 <$> nanmax (ravel z));
    (λ z, Ok (Scalar2 (nanmean (ravel z))));
    (λ z, Ok (Scalar2 (nanmedian (ravel z)))) ]
  ++ [ (λ z, Array2 <$> fit_plane x y z) ].

(** Returns the call of [plot_arrays] it ends with, or [None] when it
    returns early. *)
Definition subtract_background (w : widget) (idx : idx_arg)
    : res (option plot_call) :=
  match current_data w with
  | None => Ok None
  | Some cd =>
      let idx := selected_idx w idx in
      let xs := cd_xs cd in
      let ys := cd_ys cd in
      let line_by_line := line_backsub_btn w in
      match line_by_line, cd_zs cd with
      | true, Some zs =>
          let funcs := line_funcs (magnitude (array xs)) in
          let axis := line_backsub_radio w in
          func ← py_index funcs idx;
          z ← call_on (λ l, subtract_line_by_line l axis func)
                      (magnitude (array zs));
          let zs := mk_item (name zs) (mk_quantity z (units (array zs))) in
          Ok (Some (mk_plot_call xs ys (Some zs) (fig_title w)))
      | _, None =>
          let funcs := global_funcs1 (magnitude (array xs)) in
          let y := magnitude (array ys) in
          func ← py_index funcs idx;
          v ← func y;
          y' ← bsub1 y v;
          let ys := mk_item (name ys) (mk_quantity y' (units (array ys))) in
          Ok (Some (mk_plot_call xs ys None (fig_title w)))
      | false, Some zs =>
          let funcs :=
            global_funcs2 (magnitude (array xs)) (magnitude (array ys)) in
          let z := magnitude (array zs) in
          func ← py_index funcs idx;
          v ← func z;
          z' ← bsub2 z v;
          let zs := mk_item (name zs) (mk_quantity z' (units (array zs))) in
          Ok (Some (mk_plot_call xs ys (Some zs) (fig_title w)))
      end
  end.

(** ** The rotation step and the exported arrays *)

(** [np.linspace(start, stop, n)] *)
Definition linspace (start stop : num) (n : nat) : list num :=
  match n with
  | O => []
  | S O => [start]
  | S m =>
      let step := ndiv (nsub stop start) (num_of_nat m) in
      <[m := stop]> ((λ k, nadd start (nmul (num_of_nat k) step)) <$> seq 0 n)
  end.

(** [np.ptp]: the maximum minus the minimum. *)
Definition np_ptp (l : list num) : res num :=
  hi ← np_max l; lo ← np_min l; Ok (nsub hi lo).

Record qt_image : Type := mk_qt_image {
  qi_pos : num * num;
  qi_scale : num * num;
  qi_image : ndarray;
  qi_exp_data : gmap string exp_entry
}.

(** The data path of [plot_2d_qt]: the position, the scale and the image
    handed to [setImage], and the dict [exp_data]. Drawing calls are not
    modelled. *)
Definition plot_2d_qt (xs ys : DataItem (list num)) (zs : DataItem ndarray)
    (angle : num) : res qt_image :=
  x0 ← py_index (magnitude (array xs)) 0;
  y0 ← py_index (magnitude (array ys)) 0;
  let pos := (x0, y0) in
  px ← np_ptp (magnitude (array xs));
  py ← np_ptp (magnitude (array ys));
  let scale :=
    (ndiv px (num_of_nat (nd_ncols (magnitude (array zs)))),
     ndiv py (num_of_nat (length (nd_rows (magnitude (array zs)))))) in
  let z := transpose (magnitude (array zs)) in
  z ← (if truthy angle
       then cval ← nanmin (ravel (magnitude (array zs)));
            Ok (rotate z angle cval)
       else Ok z);
  let exp_data : gmap string exp_entry :=
    <[name ys := Exp1 (magnitude (array ys)) (units (array ys))]>
      (<[name xs := Exp1 (magnitude (array xs)) (units (array xs))]> ∅) in
  let exp_data := <[name zs := Exp2 z (units (array zs))]> exp_data in
  Ok (mk_qt_image pos scale z exp_data).

(** The data path of [plot_2d_mpl] up to the assignment of [exp_data];
    [xlim] and [ylim] are the limits of the image axes. *)
Definition plot_2d_mpl (xs ys : DataItem (list num)) (zs : DataItem ndarray)
    (angle : num) (xlim ylim : num * num) : gmap string exp_entry :=
  let z := transpose (magnitude (array zs)) in
  let z := if truthy angle then rotate z angle NaN else z in
  let x := linspace xlim.1 xlim.2 (nd_ncols z) in
  let y := linspace ylim.1 ylim.2 (length (nd_rows z)) in
  <[name zs := Exp2 (transpose z) (units (array zs))]>
    (<[name ys := Exp1 y (units (array ys))]>
       (<[name xs := Exp1 x (units (array xs))]> ∅)).

(** ** Slices *)

Inductive slice_state : Type :=
| SliceX   (* "x" *)
| SliceY.  (* "y" *)

(** [z[i, :]] and [z[:, i]] for an int [i]. *)
Definition py_row (z : ndarray) (i : Z) : res (list num) :=
  py_index (nd_rows z) i.

Definition py_col (z : ndarray) (i : Z) : res (list num) :=
  let m := Z.of_nat (nd_ncols z) in
  let i' := if i <? 0 then i + m else i in
  if (i' <? 0) || (m <=? i') then Raise IndexError
  else col z (Z.to_nat i').

(** The extraction itself, for either selector. *)
Definition extract_slice (st : slice_state) (z : ndarray) (i : Z)
    : res (list num) :=
  match st with
  | SliceX => py_row z i
  | SliceY => py_col z i
  end.

(** [l[mask]] for a 1D boolean [mask]. *)
Definition bool_index (mask : list bool) (l : list num) : res (list num) :=
  if (length mask =? length l)%nat then Ok (compress mask l)
  else Raise IndexError.

(** [np.array([a, b]).T.reshape(-1, 1, 2)]: the points (a_k, b_k). *)
Definition points (a b : list num) : list (num * num) := zip a b.

(** [np.concatenate([p[:-2], p[1:-1], p[2:]], axis=1)]: one three-point
    segment per interior point. *)
Definition segments (p : list (num * num)) : list (list (num * num)) :=
  let n := length p in
  zip_with (λ ab c, [ab.1; ab.2; c])
    (zip (take (n - 2) p) (drop 1 (take (n - 1) p)))
    (drop 2 p).

Record slice_plot : Type := mk_slice_plot {
  sp_xs : list num;
  sp_ys : list num;
  sp_segments : list (list (num * num));
  sp_norm : num * num
}.

(** The slice drawn when the figure is built
    ([plot_2d_mpl], from [color_by_value = ...] to the [LineCollection]). *)
Definition first_slice (st : slice_state) (xs ys : list num) (zs : ndarray)
    : res slice_plot :=
  '(slice_xs, slice_ys) ←
    match st with
    | SliceX => r ← py_row zs 0; Ok (xs, r)
    | SliceY => c ← py_col zs 0; Ok (ys, c)
    end;
  let mask := isfinite <$> slice_ys in
  slice_xs ← bool_index mask slice_xs;
  slice_ys ← bool_index mask slice_ys;
  let pts := points slice_xs slice_ys in
  let segs := segments pts in
  '(vmin, vmax) ←
    (if existsb id mask
     then lo ← np_min slice_ys; hi ← np_max slice_ys; Ok (lo, hi)
     else Ok (Fin 0%Qc, Fin 1%Qc));
  Ok (mk_slice_plot slice_xs slice_ys segs (vmin, vmax)).

Record slice_update : Type := mk_slice_update {
  su_xdata : list num;
  su_ydata : list num;
  su_colored : option (list (list (num * num)) * (num * num));
  su_cut : num;
  su_xlim : num * num;
  su_ylim : num * num;
  su_index : Z
}.

(** The closure [update] of [plot_2d_mpl], called with the slider value:
    what it draws and what it stores under [exp_data["slice"]]. *)
Definition update (st : slice_state) (color_by_value : bool) (angle : num)
    (xlim ylim : num * num) (zs : ndarray) (i : Z) : res slice_update :=
  let z := zs in
  let z := if truthy angle then rotate z angle NaN else z in
  let x := linspace xlim.1 xlim.2 (nd_ncols z) in
  let y := linspace ylim.1 ylim.2 (length (nd_rows z)) in
  let margin := num_of_Q (1 # 40) in
  '(xdata, ydata, colored, cut, xmin, xmax) ←
    match st with
    | SliceX =>
        z0 ← py_row z i;
        colored ←
          (if color_by_value
           then let segs := segments (points x z0) in
                lo ← nanmin z0; hi ← nanmax z0; Ok (Some (segs, (lo, hi)))
           else Ok None);
        hi ← nanmax x;
        lo ← nanmin x;
        let rng := nsub hi lo in
        let xmin := nsub lo (nmul margin rng) in
        let xmax := nadd hi (nmul margin rng) in
        cut ← py_index y i;
        Ok (x, z0, colored, cut, xmin, xmax)
    | SliceY =>
        z0 ← py_col z i;
        colored ←
          (if color_by_value
           then let segs := segments (points y z0) in
                lo ← nanmin z0; hi ← nanmax z0; Ok (Some (segs, (lo, hi)))
           else Ok None);
        hi ← nanmax y;
        lo ← nanmin y;
        let rng := nsub hi lo in
        let xmin := nsub lo (nmul margin rng) in
        let xmax := nadd hi (nmul margin rng) in
        cut ← py_index x i;
        Ok (y, z0, colored, cut, xmin, xmax)
    end;
  vmin ← nanmin ydata;
  vmax ← nanmax ydata;
  let margin := num_of_Q (1 # 10) in
  let rng := nsub vmax vmin in
  let vmin := nsub vmin (nmul margin rng) in
  let vmax := nadd vmax (nmul margin rng) in
  Ok (mk_slice_update xdata ydata colored cut (xmin, xmax) (vmin, vmax) i).

(** ** Unit conversion *)

(** [try: body / except Exception: handler]. Every [exn] is an
    [Exception]. *)
Definition try_except {A : Type} (body : res A) (handler : exn → res A)
    : res A :=
  match body with
  | Ok a => Ok a
  | Raise e => handler e
  end.

(** pint's conversion between two units, given the unit of the quantity
    and the requested text: the map on magnitudes and the string of the
    new unit, or an error (unknown unit, other dimension). *)
Variable convert : string → string → res ((num → num) * string).

(** [q.ito(text)] on a 1D and on a 2D quantity. The quantity is held by
    value: the result is the object after the call, and an error leaves
    the object as it was. *)
Definition ito1 (q : Quantity (list num)) (text : string)
    : res (Quantity (list num)) :=
  '(f, u) ← convert (units q) text;
  Ok (mk_quantity (f <$> magnitude q) u).

Definition ito2 (q : Quantity ndarray) (text : string)
    : res (Quantity ndarray) :=
  '(f, u) ← convert (units q) text;
  Ok (mk_quantity (nd_map f (magnitude q)) u).

(** One conversion attempt,
      [try: q.ito(field.text()) / except Exception: field.setText(str(q.units))],
    as the quantity and the text of the field after it. *)
Definition try_ito {A : Type} (ito : Quantity A → string → res (Quantity A))
    (q : Quantity A) (text : string) : res (Quantity A * string) :=
  try_except (q' ← ito q text; Ok (q', text))
             (λ _, Ok (q, units q)).

Definition set_xy_units (w : widget) (t : string) : widget :=
  mk_widget (current_data w) (fig_title w) (exp_data w) (dataset w)
    (arrays w) (indep_vars w) (backsub_radio w) (line_backsub_btn w)
    (line_backsub_radio w) (xy_units_box w) t (units_text w)
    (units_enabled w).

Definition set_units_text (w : widget) (t : string) : widget :=
  mk_widget (current_data w) (fig_title w) (exp_data w) (dataset w)
    (arrays w) (indep_vars w) (backsub_radio w) (line_backsub_btn w)
    (line_backsub_radio w) (xy_units_box w) (xy_units w) t
    (units_enabled w).

Definition set_units_enabled (w : widget) (b : bool) : widget :=
  mk_widget (current_data w) (fig_title w) (exp_data w) (dataset w)
    (arrays w) (indep_vars w) (backsub_radio w) (line_backsub_btn w)
    (line_backsub_radio w) (xy_units_box w) (xy_units w) (units_text w) b.

Definition set_current (w : widget) (title : string) (cd : plot_data)
    : widget :=
  mk_widget (Some cd) title (exp_data w) (dataset w)
    (arrays w) (indep_vars w) (backsub_radio w) (line_backsub_btn w)
    (line_backsub_radio w) (xy_units_box w) (xy_units w) (units_text w)
    (units_enabled w).

(** [f"{self.dataset.metadata['location']} [{name}]"] *)
Definition title_of (w : widget) (nm : string) : res string :=
  match dataset w with
  | Some d => Ok (location d +:+ " [" +:+ nm +:+ "]")
  | None => Raise AttributeError
  end.

(** The conversions of [replot]: the widget and the three items after
    the try blocks. *)
Definition replot_units (w : widget) (cd : plot_data)
    : res (widget * plot_data) :=
  let xs := cd_xs cd in
  let ys := cd_ys cd in
  let zs := cd_zs cd in
  '(xs, w) ←
    (if xy_units_box w
     then '(q, t) ← try_ito ito1 (array xs) (xy_units w);
          Ok (mk_item (name xs) q, set_xy_units w t)
     else Ok (xs, w));
  match zs with
  | None =>
      '(q, t) ← try_ito ito1 (array ys) (units_text w);
      Ok (set_units_text w t, mk_plot_data xs (mk_item (name ys) q) None)
  | Some zs =>
      '(ys, w) ←
        (if xy_units_box w
         then '(q, t) ← try_ito ito1 (array ys) (xy_units w);
              Ok (mk_item (name ys) q, set_xy_units w t)
         else Ok (ys, w));
      '(q, t) ← try_ito ito2 (array zs) (units_text w);
      Ok (set_units_text w t,
          mk_plot_data xs ys (Some (mk_item (name zs) q)))
  end.

(** [replot], up to and including its call of [subtract_background]:
    the widget before that call and the call of [plot_arrays] made. *)
Definition replot (w : widget) : res (widget * option plot_call) :=
  match current_data w with
  | None => Ok (w, None)
  | Some cd =>
      '(w, cd) ← replot_units w cd;
      let nm := match cd_zs cd with
                | None => name (cd_ys cd)
                | Some zs => name zs
                end in
      title ← title_of w nm;
      let w := set_current w title cd in
      pc ← subtract_background w IdxNone;
      Ok (w, pc)
  end.

Definition fliplr (z : ndarray) : ndarray :=
  mk_ndarray (reverse <$> nd_rows z) (nd_ncols z).

Definition flipud (z : ndarray) : ndarray :=
  mk_ndarray (reverse (nd_rows z)) (nd_ncols z).

(** [if x_dir == "neg": z = np.fliplr(z.magnitude) * z.units], then the
    same with [y_dir] and [np.flipud]. *)
Definition orient (x_dir y_dir : string) (z : Quantity ndarray)
    : Quantity ndarray :=
  let z := if String.eqb x_dir "neg"
           then mk_quantity (fliplr (magnitude z)) (units z) else z in
  let z := if String.eqb y_dir "neg"
           then mk_quantity (flipud (magnitude z)) (units z) else z in
  z.

Definition get_arr1 (w : widget) (k : string) : res (Quantity (list num)) :=
  match arrays w !! k with
  | Some (Arr1 q) => Ok q
  | Some (Arr2 _) => Raise TypeError
  | None => Raise KeyError
  end.

Definition get_arr2 (w : widget) (k : string) : res (Quantity ndarray) :=
  match arrays w !! k with
  | Some (Arr2 q) => Ok q
  | Some (Arr1 _) => Raise TypeError
  | None => Raise KeyError
  end.

(** [set_plot_from_name], up to and including its call of
    [subtract_background]. The independent variables are 1D arrays and
    the array plotted against two of them is 2D; another rank is a
    [TypeError] here. *)
Definition set_plot_from_name (w : widget) (nm : string)
    : res (widget * option plot_call) :=
  d ← match dataset w with Some d => Ok d | None => Raise AttributeError end;
  '(w, cd) ←
    match indep_vars w with
    | [v] =>
        x ← get_arr1 w v;
        y ← get_arr1 w nm;
        '(q, unit) ← try_ito ito1 y (units_text w);
        Ok (set_units_enabled (set_units_text w unit) true,
            mk_plot_data (mk_item v x) (mk_item nm q) None)
    | [vx; vy] =>
        let '(x_dir, y_dir) := default ("pos", "pos") (direction d) in
        x ← get_arr1 w vx;
        y ← get_arr1 w vy;
        z ← get_arr2 w nm;
        let z := orient x_dir y_dir z in
        '(q, unit) ← try_ito ito2 z (units_text w);
        Ok (set_units_enabled (set_units_text w unit) true,
            mk_plot_data (mk_item vx x) (mk_item vy y) (Some (mk_item nm q)))
    | _ => Raise UnboundLocalError
    end;
  title ← title_of w nm;
  let w := set_current w title cd in
  pc ← subtract_background w IdxNone;
  Ok (w, pc).

(** ** Export *)

(** [s.endswith(suffix)] *)
Definition endswith (s suffix : string) : bool :=
  let n := String.length s in
  let m := String.length suffix in
  (m <=? n)%nat && String.eqb (substring (n - m) m s) suffix.

(** The three writers and [Figure.savefig]: what they do to the file
    system is not followed, only whether they return or raise. *)
Variable savemat : string → gmap string exp_entry → res unit.
Variable h5_save : string → gmap string exp_entry → res unit.
Variable pickle_dump : string → gmap string exp_entry → res unit.
Variable savefig : string → res unit.

(** [export_data]; [path] is what the file dialog returned. The result
    is the widget after the call. *)
Definition export_data (w : widget) (path : string) : res widget :=
  if decide (exp_data w = ∅) then Ok w
  else if endswith path "mat" then
    _ ← try_except (savemat path (exp_data w)) (λ _, Ok ());
    Ok w
  else if endswith path "h5" then
    _ ← try_except (h5_save path (exp_data w)) (λ _, Ok ());
    Ok w
  else if endswith path "pickle" then
    _ ← try_except (pickle_dump path (exp_data w)) (λ _, Ok ());
    Ok w
  else Ok w.

(** [export_mpl]; [path] is what the file dialog returned. *)
Definition export_mpl (w : widget) (path : string) : res widget :=
  match dataset w with
  | None => Ok w
  | Some _ =>
      _ ← savefig path;
      Ok w
  end.

End Externals.

(** ** Names used in the statements *)

(** The line access that [subtract_line_by_line] uses for an axis. *)
Definition line_get (axis : Z) : ndarray → nat → res (list num) :=
  if axis =? 0 then row else col.
Definition line_set (axis : Z) : ndarray → nat → list num → ndarray :=
  if axis =? 0 then set_row else set_col.

(** The widget with another radio button of the reduction checked. *)
Definition set_backsub_radio (w : widget) (k : Z) : widget :=
  mk_widget (current_data w) (fig_title w) (exp_data w) (dataset w)
    (arrays w) (indep_vars w) k (line_backsub_btn w)
    (line_backsub_radio w) (xy_units_box w) (xy_units w) (units_text w)
    (units_enabled w).

(** The value at [q] of the line with slope [a] and offset [b]. *)
Definition affine (a b : Qc) (q : Qc) : Qc := (a * q + b)%Qc.

(** ** The slice state of the widget *)

(** What [set_slice] and [update_slice] read and write. *)
Record slice_ui : Type := mk_slice_ui {
  slice_state_id : Z;        (* self.slice_state *)
  slice_radio : Z;           (* slice_radio.checkedId() *)
  x_slice_shown : bool;      (* pyqt_imview.x_slice_widget is shown *)
  y_slice_shown : bool;      (* pyqt_imview.y_slice_widget is shown *)
  line_color_enabled : bool  (* line_color_btn.isEnabled() *)
}.

(** [PlotWidget.update_slice] *)
Definition update_slice (u : slice_ui) : res slice_ui :=
  if slice_state_id u =? 0 then
    Ok (mk_slice_ui (slice_state_id u) (slice_radio u) false false false)
  else if slice_state_id u =? 1 then
    Ok (mk_slice_ui (slice_state_id u) (slice_radio u) true false true)
  else if slice_state_id u =? 2 then
    Ok (mk_slice_ui (slice_state_id u) (slice_radio u) false true true)
  else Raise ValueError.

(** [set_slice(idx, replot=False)]: the outcome and the state it leaves;
    the attribute is assigned before [update_slice] is called. *)
Definition set_slice (u : slice_ui) (idx : idx_arg) : res unit * slice_ui :=
  let idx :=
    match idx with
    | IdxButton id => id
    | IdxInt k => k
    | IdxNone => slice_radio u
    end in
  let u1 := mk_slice_ui idx (slice_radio u) (x_slice_shown u)
              (y_slice_shown u) (line_color_enabled u) in
  match update_slice u1 with
  | Ok u2 => (Ok (), u2)
  | Raise e => (Raise e, u1)
  end.

(** The local [slice_state] of [plot_arrays]: bound by an if/elif chain
    without else. *)
Definition slice_selector (st : Z) : res (option slice_state) :=
  if st =? 0 then Ok None
  else if st =? 1 then Ok (Some SliceX)
  else if st =? 2 then Ok (Some SliceY)
  else Raise UnboundLocalError.

(** ** The whole of [plot_2d_mpl] and [plot_2d] *)

Record mpl_figure : Type := mk_mpl_figure {
  mf_exp_data : gmap string exp_entry;
  mf_first : option slice_plot;
  mf_slice : option slice_update
}.

Section Plot2d.

Variable rotate : ndarray → num → num → ndarray.

(** The data path of [plot_2d_mpl] to its end: with a slice selector the
    first slice is built, the cut line is placed at the minimum of the
    exported coordinate array across the slice, then [update(0)] draws
    the slice at index 0 and stores it under [exp_data["slice"]]. *)
Definition plot_2d_mpl_sliced (xs ys : DataItem (list num))
    (zs : DataItem ndarray) (angle : num) (st : option slice_state)
    (color_by_value : bool) (xlim ylim : num * num) : res mpl_figure :=
  let exp_data := plot_2d_mpl rotate xs ys zs angle xlim ylim in
  match st with
  | None => Ok (mk_mpl_figure exp_data None None)
  | Some st =>
      fs ← first_slice st (magnitude (array xs)) (magnitude (array ys))
             (magnitude (array zs));
      let z := transpose (magnitude (array zs)) in
      let z := if truthy angle then rotate z angle NaN else z in
      let x := linspace xlim.1 xlim.2 (nd_ncols z) in
      let y := linspace ylim.1 ylim.2 (length (nd_rows z)) in
      _ ← nanmin (match st with SliceX => y | SliceY => x end);
      up ← update rotate st color_by_value angle xlim ylim
             (magnitude (array zs)) 0;
      let e :=
        match st with
        | SliceX => ExpSlice (name xs) (su_xdata up) (units (array xs))
                             (name zs) (su_ydata up) (units (array zs))
                             (su_index up)
        | SliceY => ExpSlice (name ys) (su_xdata up) (units (array ys))
                             (name zs) (su_ydata up) (units (array zs))
                             (su_index up)
        end in
      Ok (mk_mpl_figure (<["slice" := e]> exp_data) (Some fs) (Some up))
  end.

(** [plot_2d]: the colour limits are computed first, then one of the
    two backends draws. *)
Definition plot_2d (pyqtgraph : bool) (xs ys : DataItem (list num))
    (zs : DataItem ndarray) (angle : num) (st : option slice_state)
    (color_by_value : bool) (xlim ylim : num * num)
    : res (qt_image + mpl_figure) :=
  vmin ← nanmin (ravel (magnitude (array zs)));
  vmax ← nanmax (ravel (magnitude (array zs)));
  if pyqtgraph
  then inl <$> plot_2d_qt rotate xs ys zs angle
  else inr <$> plot_2d_mpl_sliced xs ys zs angle st color_by_value xlim ylim.

End Plot2d.

(** ** [SliceableImageView] *)

(** [int(x)] for a float: truncation toward zero; NaN and the
    infinities raise. *)
Definition int_of (a : num) : res Z :=
  match a with
  | Fin q => Ok (Z.quot (Qnum q) (Zpos (Qden q)))
  | NaN => Raise ValueError
  | _ => Raise (OtherError "OverflowError")
  end.

(** [z[i, j]] for two ints. *)
Definition py_entry (z : ndarray) (i j : Z) : res num :=
  r ← py_row z i; py_index r j.

Module SliceableImageView.

Record view : Type := mk_view {
  image : ndarray;        (* imageItem.image *)
  x0 : num;               (* _x0 *)
  y0 : num;               (* _y0 *)
  xscale : num;           (* _xscale *)
  yscale : num;           (* _yscale *)
  x_cross_index : Z;
  y_cross_index : Z
}.

(** What [update_slice] hands to the two slice widgets. *)
Record slices : Type := mk_slices {
  x_slice : list num * list num;  (* x_slice_widget_data.setData *)
  x_vline : num;
  x_hline : num;
  y_slice : list num * list num;  (* y_slice_widget_data.setData *)
  y_vline : num
}.

Definition update_slice (v : view) : res slices :=
  let zdata := image v in
  let nx := length (nd_rows zdata) in
  let ny := nd_ncols zdata in
  let xdata :=
    linspace (x0 v)
      (nadd (x0 v) (nmul (xscale v) (num_of_Z (Z.of_nat nx - 1)))) nx in
  let ydata :=
    linspace (y0 v)
      (nadd (y0 v) (nmul (yscale v) (num_of_Z (Z.of_nat ny - 1)))) ny in
  zval ← py_entry zdata (x_cross_index v) (y_cross_index v);
  xcol ← py_col zdata (y_cross_index v);
  xv ← py_index xdata (x_cross_index v);
  yrow ← py_row zdata (x_cross_index v);
  yv ← py_index ydata (y_cross_index v);
  Ok (mk_slices (xdata, xcol) xv zval (ydata, yrow) yv).

(** [max(min(i, n - 1), 0)] *)
Definition clamp (i : Z) (n : nat) : Z := Z.max (Z.min i (Z.of_nat n - 1)) 0.

(** [set_position]; [item] is the point in item coordinates that the
    view box maps the position to. The result is the view with its new
    cross indices, the value under the cross and the slices drawn. *)
Definition set_position (v : view) (item : num * num)
    : res (view * num * slices) :=
  let max_x := length (nd_rows (image v)) in
  let max_y := nd_ncols (image v) in
  ix ← int_of item.1;
  let item_x := clamp ix max_x in
  iy ← int_of item.2;
  let item_y := clamp iy max_y in
  let v := mk_view (image v) (x0 v) (y0 v) (xscale v) (yscale v)
             item_x item_y in
  z_val ← py_entry (image v) item_x item_y;
  s ← update_slice v;
  Ok (v, z_val, s).

End SliceableImageView.

(** ** [SlicePlotWidget] *)

Module SlicePlotWidget.




End SlicePlotWidget.

(** ** Sample data for the concrete runs *)

Definition n_ (k : Z) : num := num_of_Z k.

(** A 1 x 2 array and a 2 x 2 array, each alone in the heap. *)
Definition z12 : ndarray := mk_ndarray [[n_ 1; n_ 2]] 2.
Definition z22 : ndarray := mk_ndarray [[n_ 1; n_ 2]; [n_ 3; n_ 7]] 2.
Definition h22 : heap := {[ 1%positive := z22 ]}.

Definition mean_of : list num → res value := λ c, Ok (Scalar (nanmean c)).

(** Stand-ins for the external solvers in runs that never call them:
    a solver that fails and a rotation that blanks the array. *)
Definition no_lstsq : list (list num) → list num → res (list num) :=
  λ _ _, Raise LinAlgError.
Definition blank_rotate : ndarray → num → num → ndarray :=
  λ z _ cval, nd_map (λ _, cval) z.

Definition item1 (nm : string) (l : list num) : DataItem (list num) :=
  mk_item nm (mk_quantity l "V").

(** A widget showing 1D data, with "mean" checked. *)
Definition cd_1d : plot_data :=
  mk_plot_data (item1 "height" [n_ 0; n_ 1; n_ 2])
               (item1 "CAP" [n_ 1; n_ 2; n_ 6]) None.
Definition w_1d : widget :=
  mk_widget (Some cd_1d) "t" ∅ None ∅ ["height"] 3 false 0 false
            "Length unit" "Array unit" false.

(** A widget showing 2D data in global mode, with "mean" checked. *)
Definition cd_2d : plot_data :=
  mk_plot_data (item1 "x" [n_ 0; n_ 1]) (item1 "y" [n_ 0; n_ 1])
               (Some (mk_item "MAG" (mk_quantity z22 "V"))).
Definition w_2d : widget :=
  mk_widget (Some cd_2d) "t" ∅ None ∅ ["x"; "y"] 3 false 0 false
            "Length unit" "Array unit" false.

(** A 1 x 3 array with a NaN in the middle, and its coordinates. *)
Definition z13 : ndarray := mk_ndarray [[n_ 1; NaN; n_ 3]] 3.
Definition x3 : list num := [n_ 0; n_ 1; n_ 2].

(** A unit registry that knows volts and millivolts and nothing else. *)
Definition convert_V : string → string → res ((num → num) * string) :=
  λ from to,
    if String.eqb from "V" && String.eqb to "mV"
    then Ok ((λ a, nmul a (n_ 1000)), "mV")
    else Raise ValueError.

(** A widget on a dataset with one independent variable; the user has
    typed a unit that does not exist. *)
Definition ds0 : dataset_info := mk_dataset "run/1" None.
Definition w_ds : widget :=
  mk_widget (Some cd_1d) "run/1 [CAP]"
    {[ "CAP" := Exp1 [n_ 1; n_ 2; n_ 6] "V" ]} (Some ds0)
    {[ "height" := Arr1 (mk_quantity [n_ 0; n_ 1; n_ 2] "V");
       "CAP" := Arr1 (mk_quantity [n_ 1; n_ 2; n_ 6] "V") ]}
    ["height"] 0 false 0 true "furlong" "parsec" true.

(** The same on a dataset with two independent variables. *)
Definition w_ds2 : widget :=
  mk_widget (Some cd_2d) "run/1 [MAG]" ∅ (Some ds0)
    {[ "x" := Arr1 (mk_quantity [n_ 0; n_ 1] "V");
       "y" := Arr1 (mk_quantity [n_ 0; n_ 1] "V");
       "MAG" := Arr2 (mk_quantity z22 "V") ]}
    ["x"; "y"] 0 false 0 true "furlong" "parsec" true.

(** Writers that fail on every path, as on a full or read-only disk. *)
Definition failing_writer : string → gmap string exp_entry → res unit :=
  λ _ _, Raise (OtherError "OSError").
Definition failing_savefig : string → res unit :=
  λ _, Raise (OtherError "OSError").

(** A reduction that returns the line itself, and one that fails on
    the second row of the 2 x 2 array. *)
Definition line_itself : list num → res value := λ r, Ok (Vector r).
Definition fails_on_second : list num → res value :=
  λ r, if bool_decide (r = [n_ 3; n_ 7]) then Raise ValueError
       else Ok (Scalar (nanmean r)).

(** An array without rows, alone in the heap. *)
Definition z00 : ndarray := mk_ndarray [] 0.
Definition h00 : heap := {[ 1%positive := z00 ]}.

(** A widget showing the line y = 2 x + 1 at x = 0, 1, 2. *)
Definition xs_line : list Qc := [Q2Qc 0; Q2Qc 1; Q2Qc 2].
Definition cd_line : plot_data :=
  mk_plot_data (item1 "height" (Fin <$> xs_line))
               (item1 "CAP" (Fin <$> (affine (Q2Qc 2) (Q2Qc 1) <$> xs_line))) None.
Definition w_line : widget :=
  mk_widget (Some cd_line) "t" ∅ None ∅ ["height"] 5 false 0 false
            "Length unit" "Array unit" false.


(** The slice state with no slice shown and the radio button "x"
    checked. *)
Definition ui0 : slice_ui := mk_slice_ui 0 1 false false false.

(** The image view holding the transpose of the 2 x 2 array, with the
    cross at the pixel (1, 0). *)
Definition view22 : SliceableImageView.view :=
  SliceableImageView.mk_view (transpose z22) (n_ 0) (n_ 0) (n_ 1) (n_ 1) 1 0.

Definition p3 : list (num * num) := [(n_ 0, n_ 1); (n_ 1, n_ 2); (n_ 2, n_ 3)].

(** * Properties *)

(** ** Arithmetic of [num] *)

Lemma num_of_nat_qn n : num_of_nat n = Fin (qn n).
Proof. reflexivity. Qed.

Lemma qn_S n : qn (S n) = (qn n + 1)%Qc.
Proof.
  apply Qc_is_canon. unfold qn, Qcplus, Q2Qc. cbn [this].
  rewrite !Qred_correct. rewrite Nat2Z.inj_succ. unfold Z.succ.
  rewrite inject_Z_plus. reflexivity.
Qed.

Lemma qn_0 : qn 0 = 0%Qc.
Proof. apply Qc_is_canon. reflexivity. Qed.

Lemma qn_pos n : (0 < qn (S n))%Qc.
Proof.
  unfold Qclt, qn, Q2Qc. cbn [this]. rewrite !Qred_correct.
  unfold Qlt. cbn [Qnum Qden inject_Z this]. lia.
Qed.

Lemma qn_S_neq_0 n : qn (S n) ≠ 0%Qc.
Proof.
  intros H. pose proof (qn_pos n) as Hp.
  apply Qclt_not_eq in Hp. congruence.
Qed.

Lemma nsub_0_r a : nsub a (Fin 0%Qc) = a.
Proof. destruct a; simpl; try reflexivity. f_equal. ring. Qed.

(** Sums of finite entries stay finite and are the sum in [Qc]. *)
Lemma foldl_nadd_fin (l : list Qc) (acc : Qc) :
  foldl nadd (Fin acc) (Fin <$> l) = Fin (acc + qsum l)%Qc.
Proof.
  revert acc. induction l as [|q l IH]; intros acc; simpl.
  - f_equal. ring.
  - rewrite IH. f_equal. ring.
Qed.

Lemma nsum_fin (l : list Qc) : nsum (Fin <$> l) = Fin (qsum l).
Proof. unfold nsum. rewrite foldl_nadd_fin. f_equal. ring. Qed.

Lemma finite_list (l : list num) :
  Forall (λ a, isfinite a = true) l → ∃ qs, l = Fin <$> qs.
Proof.
  induction 1 as [|a l Ha _ [qs ->]].
  - by exists [].
  - destruct a as [q| | |]; try discriminate. by exists (q :: qs).
Qed.

Lemma drop_nan_fin (qs : list Qc) : drop_nan (Fin <$> qs) = Fin <$> qs.
Proof.
  unfold drop_nan. induction qs as [|q qs IH]; [done|].
  cbn. f_equal. exact IH.
Qed.

Lemma nanmean_fin (qs : list Qc) :
  qs ≠ [] → nanmean (Fin <$> qs) = Fin (qsum qs / qn (length qs))%Qc.
Proof.
  intros Hne. unfold nanmean. rewrite drop_nan_fin, nsum_fin, length_fmap.
  rewrite num_of_nat_qn. destruct qs as [|q qs]; [done|].
  simpl length. pose proof (qn_pos (length qs)) as Hp.
  unfold ndiv. apply Qclt_alt in Hp.
  rewrite <- Qcgt_alt in Hp || idtac.
  destruct (qn (S (length qs)) ?= 0)%Qc eqn:E; try reflexivity.
  apply Qceq_alt in E. by apply qn_S_neq_0 in E.
Qed.

Lemma qsum_sub (qs : list Qc) (m : Qc) :
  qsum ((λ q, q - m)%Qc <$> qs) = (qsum qs - qn (length qs) * m)%Qc.
Proof.
  induction qs as [|q qs IH].
  - simpl. rewrite qn_0. ring.
  - change (qsum ((λ q, q - m)%Qc <$> q :: qs))
      with ((q - m) + qsum ((λ q, q - m)%Qc <$> qs))%Qc.
    change (qsum (q :: qs)) with (q + qsum qs)%Qc.
    change (length (q :: qs)) with (S (length qs)).
    rewrite IH, qn_S. ring.
Qed.

(** Subtracting the mean of finite entries leaves a zero sum. *)
Lemma mean_subtracted_sum (l : list num) :
  l ≠ [] → Forall (λ a, isfinite a = true) l →
  nsum ((λ a, nsub a (nanmean l)) <$> l) = Fin 0%Qc.
Proof.
  intros Hne Hfin. destruct (finite_list l Hfin) as [qs ->].
  assert (Hq : qs ≠ []) by (intros ->; done).
  rewrite nanmean_fin by done.
  rewrite <- list_fmap_compose.
  change ((λ a, nsub a (Fin (qsum qs / qn (length qs))%Qc)) ∘ Fin)
    with (Fin ∘ (λ q, q - qsum qs / qn (length qs))%Qc).
  rewrite list_fmap_compose, nsum_fin, qsum_sub. f_equal.
  destruct qs as [|q qs]; [done|].
  pose proof (qn_S_neq_0 (length qs)) as Hn. simpl length.
  field. exact Hn.
Qed.

(** ** Global mean subtraction *)

Lemma ravel_nd_map f z : ravel (nd_map f z) = f <$> ravel z.
Proof.
  unfold ravel, nd_map. cbn [nd_rows].
  induction (nd_rows z) as [|r rs IH]; [done|].
  rewrite fmap_cons. cbn [concat]. by rewrite fmap_app, IH.
Qed.


(** ** The index of the reduction *)

(** C10: an explicit [idx = 0] is falsy, so [idx or checkedId()] takes
    the id of the checked radio button: the call does what a call
    without argument does, and the reduction applied to the data is the
    one at the checked id, in each mode, not reduction 0. With "mean"
    checked, 1D data come out of a call with [idx = 0] with their mean
    subtracted. Every other int is used as passed: the reduction
    applied is the one at that index. *)
Theorem subtract_background_idx_zero_uses_checked
    (lstsq : list (list num) → list num → res (list num))
    (w : widget) :
  selected_idx w (IdxInt 0) = backsub_radio w
  ∧ subtract_background lstsq w (IdxInt 0)
    = subtract_background lstsq w IdxNone
  ∧ (∀ k : Z, k ≠ 0 → selected_idx w (IdxInt k) = k)
  ∧ (∀ cd k, current_data w = Some cd →
       let used := if k =? 0 then backsub_radio w else k in
       let xs := cd_xs cd in
       let ys := cd_ys cd in
       subtract_background lstsq w (IdxInt k)
       = match line_backsub_btn w, cd_zs cd with
         | true, Some zs =>
             func ← py_index (line_funcs (magnitude (array xs))) used;
             z ← call_on
                   (λ l, subtract_line_by_line l (line_backsub_radio w) func)
                   (magnitude (array zs));
             Ok (Some (mk_plot_call xs ys
                   (Some (mk_item (name zs)
                            (mk_quantity z (units (array zs)))))
                   (fig_title w)))
         | _, None =>
             func ← py_index (global_funcs1 (magnitude (array xs))) used;
             v ← func (magnitude (array ys));
             y' ← bsub1 (magnitude (array ys)) v;
             Ok (Some (mk_plot_call xs
                   (mk_item (name ys) (mk_quantity y' (units (array ys))))
                   None (fig_title w)))
         | false, Some zs =>
             func ← py_index
                      (global_funcs2 lstsq (magnitude (array xs))
                         (magnitude (array ys))) used;
             v ← func (magnitude (array zs));
             z' ← bsub2 (magnitude (array zs)) v;
             Ok (Some (mk_plot_call xs ys
                   (Some (mk_item (name zs)
                            (mk_quantity z' (units (array zs)))))
                   (fig_title w)))
         end)
  ∧ (∀ cd, current_data w = Some cd → cd_zs cd = None →
       backsub_radio w = 3 →
       subtract_background lstsq w (IdxInt 0)
       = Ok (Some (mk_plot_call (cd_xs cd)
               (mk_item (name (cd_ys cd))
                  (mk_quantity
                     ((λ a, nsub a (nanmean (magnitude (array (cd_ys cd)))))
                        <$> magnitude (array (cd_ys cd)))
                     (units (array (cd_ys cd)))))
               None (fig_title w)))).
Proof.
  split; [reflexivity|]. split; [|split; [|split]].
  - unfold subtract_background. destruct (current_data w); reflexivity.
  - intros k Hk. unfold selected_idx, idx_or.
    destruct (Z.eqb_spec k 0); [contradiction | reflexivity].
  - intros cd k Hcd. cbv zeta. unfold subtract_background. rewrite Hcd.
    unfold selected_idx, idx_or.
    destruct (line_backsub_btn w), (cd_zs cd); reflexivity.
  - intros cd Hcd Hz Hk. unfold subtract_background. rewrite Hcd, Hz.
    unfold selected_idx, idx_or. cbn [Z.eqb]. rewrite Hk.
    destruct (line_backsub_btn w); reflexivity.
Qed.

(** ** In-place loops over the lines of an array *)

Ltac run_M := unfold mbind, mret, M_bind, M_ret, deref, lift, store, alloc.

Lemma for_each_cons {A : Type} (i : A) (ks : list A) (body : A → M unit)
    (h : heap) :
  for_each (i :: ks) body h
  = match body i h with
    | (Ok _, h') => for_each ks body h'
    | (Raise e, h') => (Raise e, h')
    end.
Proof. reflexivity. Qed.

Section LineLoop.

(** Rows and columns are two instances of one access discipline. *)
Variable get : ndarray → nat → res (list num).
Variable set : ndarray → nat → list num → ndarray.

Local Abbreviation isub_line := (isub_line get set).

(** The step writes to the array at [l] and to nothing else. *)
Lemma isub_line_frame l func i (h : heap) :
  ∀ k, k ≠ l ∨ h !! l = None → (isub_line l func i h).2 !! k = h !! k.
Proof.
  intros k Hk. unfold isub_line. run_M.
  destruct (h !! l) as [z|] eqn:Hl; [|reflexivity].
  destruct (get z i) as [line|e]; [|reflexivity].
  destruct (func line) as [v|e]; [|reflexivity].
  destruct (isub line v) as [new|e]; [|reflexivity].
  simpl. destruct Hk as [Hk|Hk]; [|congruence].
  by rewrite lookup_insert_ne.
Qed.

Lemma isub_line_keeps l func i (h : heap) :
  is_Some (h !! l) → is_Some ((isub_line l func i h).2 !! l).
Proof.
  intros [z Hl]. unfold isub_line. run_M. rewrite Hl.
  destruct (get z i) as [line|e]; [|simpl; rewrite Hl; eauto].
  destruct (func line) as [v|e]; [|simpl; rewrite Hl; eauto].
  destruct (isub line v) as [new|e]; [|simpl; rewrite Hl; eauto].
  simpl. rewrite lookup_insert_eq. eauto.
Qed.

Lemma for_each_frame l func (ks : list nat) (h : heap) :
  (∀ k, k ≠ l → (for_each ks (isub_line l func) h).2 !! k = h !! k)
  ∧ (is_Some (h !! l) → is_Some ((for_each ks (isub_line l func) h).2 !! l)).
Proof.
  revert h. induction ks as [|i ks IH]; intros h.
  - split; [reflexivity | done].
  - rewrite for_each_cons.
    pose proof (isub_line_frame l func i h) as Hf.
    pose proof (isub_line_keeps l func i h) as Hk.
    destruct (isub_line l func i h) as [[[]|e] h1]; simpl in Hf, Hk.
    + destruct (IH h1) as [IH1 IH2]. split.
      * intros k Hne. rewrite IH1 by done. apply Hf. by left.
      * intros Hs. apply IH2, Hk, Hs.
    + simpl. split; [intros k Hne; apply Hf; by left | exact Hk].
Qed.

(** The laws of the access discipline, on the arrays that satisfy [inv]. *)
Variable inv : ndarray → Prop.
Variable n_lines : ndarray → nat.

Hypothesis get_ok : ∀ z k, inv z → (k < n_lines z)%nat → ∃ c, get z k = Ok c.
Hypothesis get_set_eq : ∀ z k c0 c,
  inv z → get z k = Ok c0 → length c = length c0 → get (set z k c) k = Ok c.
Hypothesis get_set_ne : ∀ z k k' c0 c,
  inv z → get z k = Ok c0 → length c = length c0 → k' ≠ k →
  get (set z k c) k' = get z k'.
Hypothesis set_inv : ∀ z k c0 c,
  inv z → get z k = Ok c0 → length c = length c0 →
  inv (set z k c) ∧ n_lines (set z k c) = n_lines z
  ∧ nd_shape (set z k c) = nd_shape z.

(** A loop over distinct lines with a scalar reduction [f]: every line
    visited has [f] of the line it had subtracted, the others stay. *)
Lemma for_each_isub_scalar l (f : list num → num) (ks : list nat) :
  ∀ (h : heap) (z : ndarray),
    NoDup ks → (∀ k, k ∈ ks → (k < n_lines z)%nat) → inv z →
    h !! l = Some z →
    ∃ z', for_each ks (isub_line l (λ c, Ok (Scalar (f c)))) h
          = (Ok (), <[l := z']> h)
      ∧ inv z' ∧ n_lines z' = n_lines z ∧ nd_shape z' = nd_shape z
      ∧ ∀ k c, get z k = Ok c →
          get z' k = Ok (if decide (k ∈ ks)
                         then (λ a, nsub a (f c)) <$> c else c).
Proof.
  induction ks as [|i ks IH]; intros h z Hnd Hlt Hinv Hl.
  - exists z. cbn [for_each]. run_M. rewrite insert_id by done.
    repeat split; try done.
    all: intros k c Hc; rewrite decide_False by apply not_elem_of_nil; done.
  - apply NoDup_cons in Hnd as [Hi Hnd].
    destruct (get_ok z i Hinv) as [c0 Hc0]; [apply Hlt; left|].
    set (new := (λ a, nsub a (f c0)) <$> c0).
    assert (Hlen : length new = length c0) by apply length_fmap.
    destruct (set_inv z i c0 new Hinv Hc0 Hlen) as (Hinv1 & Hn1 & Hs1).
    destruct (IH (<[l := set z i new]> h) (set z i new) Hnd) as
      (z' & Hrun & Hinv' & Hn' & Hs' & Hget'); try done.
    { intros k Hk. rewrite Hn1. apply Hlt. by right. }
    { apply lookup_insert_eq. }
    exists z'. split.
    { rewrite for_each_cons.
      assert (Hstep : isub_line l (λ c, Ok (Scalar (f c))) i h
                      = (Ok (), <[l := set z i new]> h)).
      { unfold isub_line. run_M. rewrite Hl, Hc0. reflexivity. }
      rewrite Hstep, Hrun. by rewrite insert_insert_eq. }
    split; [done|]. split; [congruence|]. split; [congruence|].
    intros k c Hc. destruct (decide (k = i)) as [->|Hne].
    + assert (c = c0) by congruence. subst c.
      rewrite decide_True by left.
      rewrite (Hget' i new) by (by eapply get_set_eq).
      by rewrite decide_False.
    + rewrite (Hget' k c).
      * destruct (decide (k ∈ ks)) as [Hin|Hnin].
        -- by rewrite decide_True by (by right).
        -- rewrite decide_False; [done|].
           intros [?|?]%elem_of_cons; done.
      * erewrite get_set_ne; eauto.
Qed.

End LineLoop.

(** ** Rows and columns obey the laws *)

Lemma row_ok z k : (k < length (nd_rows z))%nat → ∃ c, row z k = Ok c.
Proof.
  intros Hk. unfold row.
  destruct (lookup_lt_is_Some_2 (nd_rows z) k Hk) as [c ->]. eauto.
Qed.

Lemma row_Ok z k c : row z k = Ok c ↔ nd_rows z !! k = Some c.
Proof.
  unfold row. destruct (nd_rows z !! k); split; intros; congruence.
Qed.

Lemma row_set_row_eq z k c0 c :
  row z k = Ok c0 → row (set_row z k c) k = Ok c.
Proof.
  rewrite !row_Ok. intros H%lookup_lt_Some. simpl.
  by apply list_lookup_insert_eq.
Qed.

Lemma row_set_row_ne z k k' c : k' ≠ k → row (set_row z k c) k' = row z k'.
Proof.
  intros Hne. unfold row, set_row. simpl.
  by rewrite list_lookup_insert_ne.
Qed.

Lemma set_row_shape z k c : nd_shape (set_row z k c) = nd_shape z.
Proof. unfold nd_shape, set_row. simpl. by rewrite length_insert. Qed.

Lemma col_Ok z j c :
  col z j = Ok c
  ↔ (j < nd_ncols z)%nat ∧ Forall2 (λ r a, r !! j = Some a) (nd_rows z) c.
Proof.
  unfold col. destruct (Nat.ltb_spec j (nd_ncols z)) as [Hj|Hj].
  - destruct (mapM _ _) as [c'|] eqn:E.
    + split.
      * intros [= ->]. split; [done|]. by apply mapM_Some.
      * intros [_ H]. apply mapM_Some in H.
        assert (Some c' = Some c) as [= ->] by (rewrite <- E; exact H).
        reflexivity.
    + split; [done|]. intros [_ H%mapM_Some].
      assert (None = Some c) by (rewrite <- E; exact H). done.
  - split; [done|]. intros [? _]. lia.
Qed.

Lemma col_length z j c : col z j = Ok c → length c = length (nd_rows z).
Proof. intros [_ H]%col_Ok. symmetry. by eapply Forall2_length. Qed.

Lemma col_ok z j : nd_wf z → (j < nd_ncols z)%nat → ∃ c, col z j = Ok c.
Proof.
  intros Hwf Hj.
  assert (H : is_Some (mapM (λ r : list num, r !! j) (nd_rows z))).
  { apply mapM_is_Some. eapply Forall_impl; [exact Hwf|].
    intros r Hr. simpl in *. apply lookup_lt_is_Some_2. lia. }
  destruct H as [c Hc]. exists c. unfold col.
  destruct (Nat.ltb_spec j (nd_ncols z)); [|lia]. by rewrite Hc.
Qed.

Lemma set_col_rows (rows : list (list num)) j c :
  length c = length rows →
  Forall2 (λ r r', length r' = length r
                   ∧ (∀ j', j' ≠ j → r' !! j' = r !! j'))
          rows (zip_with (λ r a, <[j := a]> r) rows c).
Proof.
  revert c. induction rows as [|r rows IH]; intros [|a c] Hlen;
    try discriminate; simpl; constructor.
  - split; [apply length_insert|]. intros j' Hne.
    by apply list_lookup_insert_ne.
  - apply IH. simpl in Hlen. lia.
Qed.

Lemma set_col_wf z j c : nd_wf z → nd_wf (set_col z j c).
Proof.
  unfold nd_wf, set_col. simpl. generalize (nd_ncols z) as n.
  intros n Hwf. revert c.
  induction Hwf as [|r rows Hr _ IH]; intros [|a c]; simpl;
    try constructor.
  - by rewrite length_insert.
  - apply IH.
Qed.

Lemma set_col_shape z j c :
  length c = length (nd_rows z) → nd_shape (set_col z j c) = nd_shape z.
Proof.
  intros Hlen. unfold nd_shape, set_col. simpl.
  rewrite length_zip_with. f_equal. lia.
Qed.

Lemma col_set_col_eq z j c0 c :
  nd_wf z → col z j = Ok c0 → length c = length c0 →
  col (set_col z j c) j = Ok c.
Proof.
  intros Hwf H0 Hlen. pose proof (col_length _ _ _ H0) as Hl0.
  apply col_Ok in H0 as [Hj _]. apply col_Ok. split; [done|]. simpl.
  assert (Hc : length c = length (nd_rows z)) by lia. clear Hlen Hl0.
  unfold nd_wf in Hwf. revert c Hc.
  induction Hwf as [|r rows Hr _ IH]; intros [|a c] Hc; try discriminate;
    simpl; constructor.
  - apply list_lookup_insert_eq. lia.
  - apply IH. simpl in Hc. lia.
Qed.

Lemma mapM_lookup_ext (j : nat) (rows rows' : list (list num)) :
  Forall2 (λ r r', r' !! j = r !! j) rows rows' →
  mapM (λ r : list num, r !! j) rows' = mapM (λ r : list num, r !! j) rows.
Proof.
  induction 1 as [|r r' rs rs' Hr _ IH]; [reflexivity|].
  cbn [mapM]. by rewrite Hr, IH.
Qed.

Lemma col_set_col_ne z j j' c :
  length c = length (nd_rows z) → j' ≠ j →
  col (set_col z j c) j' = col z j'.
Proof.
  intros Hlen Hne. unfold col, set_col. simpl.
  destruct (j' <? nd_ncols z)%nat; [|reflexivity].
  rewrite (mapM_lookup_ext j' (nd_rows z)); [reflexivity|].
  eapply Forall2_impl; [apply set_col_rows, Hlen|].
  intros r r' [_ Hr]. by apply Hr.
Qed.

(** ** [subtract_line_by_line] *)

Lemma np_copy_run (h : heap) l z :
  h !! l = Some z →
  np_copy l h = (Ok (fresh (dom h)), <[fresh (dom h) := z]> h)
  ∧ h !! fresh (dom h) = None.
Proof.
  intros Hl. split.
  - unfold np_copy. run_M. by rewrite Hl.
  - apply not_elem_of_dom, is_fresh.
Qed.

Lemma shape_at_run (h : heap) l z axis :
  h !! l = Some z →
  shape_at l axis h = (py_index [length (nd_rows z); nd_ncols z] axis, h).
Proof. intros Hl. unfold shape_at. run_M. by rewrite Hl. Qed.

Lemma rows_loop l (f : list num → num) (h : heap) z :
  h !! l = Some z →
  ∃ z', for_range (length (nd_rows z)) (isub_row l (λ c, Ok (Scalar (f c)))) h
        = (Ok (), <[l := z']> h)
    ∧ nd_shape z' = nd_shape z
    ∧ ∀ i r, row z i = Ok r → row z' i = Ok ((λ a, nsub a (f r)) <$> r).
Proof.
  intros Hl.
  destruct (for_each_isub_scalar row set_row (λ _, True)
              (λ z, length (nd_rows z))) with
    (l := l) (f := f) (ks := seq 0 (length (nd_rows z))) (h := h) (z := z)
    as (z' & Hrun & _ & _ & Hs & Hget); try done.
  - intros z0 k _. apply row_ok.
  - intros z0 k c0 c _ H _. by eapply row_set_row_eq.
  - intros z0 k k' c0 c _ _ _. apply row_set_row_ne.
  - intros z0 k c0 c _ _ _. split; [done|].
    split; [|apply set_row_shape].
    unfold set_row. simpl. apply length_insert.
  - apply NoDup_seq.
  - intros k Hk%elem_of_seq. lia.
  - exists z'. split; [exact Hrun|]. split; [exact Hs|].
    intros i r Hr. rewrite (Hget i r Hr). rewrite decide_True; [done|].
    apply elem_of_seq. apply row_Ok, lookup_lt_Some in Hr. lia.
Qed.



Lemma M_bind_run {A B : Type} (m : M A) (f : A → M B) (h : heap) :
  (m ≫= f) h
  = match m h with
    | (Ok a, h') => f a h'
    | (Raise e, h') => (Raise e, h')
    end.
Proof. reflexivity. Qed.

(** After the copy, whatever the loop does is confined to the copy. *)
Lemma copy_loop_frame (get : ndarray → nat → res (list num))
    (set : ndarray → nat → list num → ndarray)
    (l' : loc) (axis : Z) func (h1 : heap) (out : res loc * heap) :
  out = (n ← shape_at l' axis;
         _ ← for_range n (isub_line get set l' func);
         mret l') h1 →
  (∀ k, k ≠ l' → out.2 !! k = h1 !! k)
  ∧ (is_Some (h1 !! l') → is_Some (out.2 !! l'))
  ∧ (∀ r, out.1 = Ok r → r = l').
Proof.
  intros Hout. rewrite M_bind_run in Hout.
  assert (Hsh : ∃ r, shape_at l' axis h1 = (r, h1)).
  { unfold shape_at. run_M. destruct (h1 !! l'); eauto. }
  destruct Hsh as [[n|e] Hsh]; rewrite Hsh in Hout.
  - rewrite M_bind_run in Hout. unfold for_range in Hout.
    destruct (for_each_frame get set l' func (seq 0 n) h1) as [Hf Hk].
    destruct (for_each _ _ h1) as [[[]|e] h3]; subst out; simpl in *.
    + split; [exact Hf|]. split; [exact Hk|]. by intros r [= <-].
    + split; [exact Hf|]. split; [exact Hk|]. discriminate.
  - subst out. simpl. split; [done|]. split; [done|]. discriminate.
Qed.

(** C9: whatever the axis and the function (a function of the values
    of the line it is given), and whether the call returns or raises,
    the argument array holds after the call what it held before; so
    does every other array that existed, and the array returned is a
    new object. *)
Theorem subtract_line_by_line_keeps_input
    (h : heap) (zdata : loc) (z : ndarray) (axis : Z)
    (func : list num → res value) :
  h !! zdata = Some z →
  (subtract_line_by_line zdata axis func h).2 !! zdata = Some z
  ∧ (∀ k, is_Some (h !! k) →
       (subtract_line_by_line zdata axis func h).2 !! k = h !! k)
  ∧ (∀ l', (subtract_line_by_line zdata axis func h).1 = Ok l' →
       h !! l' = None
       ∧ is_Some ((subtract_line_by_line zdata axis func h).2 !! l')).
Proof.
  intros Hl. destruct (np_copy_run h zdata z Hl) as [Hcopy Hfresh].
  set (l' := fresh (dom h)) in *.
  assert (Hkeep : ∀ k, is_Some (h !! k) → k ≠ l').
  { intros k [x Hx] ->. congruence. }
  assert (Hout : ∃ get set,
    subtract_line_by_line zdata axis func h
    = (n ← shape_at l' axis;
       _ ← for_range n (isub_line get set l' func);
       mret l') (<[l' := z]> h)).
  { unfold subtract_line_by_line. unfold mbind at 1, M_bind at 1.
    rewrite Hcopy. destruct (axis =? 0).
    - by exists row, set_row.
    - by exists col, set_col. }
  destruct Hout as (get & set & ->).
  destruct (copy_loop_frame get set l' axis func (<[l' := z]> h) _ eq_refl)
    as (Hf & Hk & Hr).
  assert (Hall : ∀ k, is_Some (h !! k) →
    ((n ← shape_at l' axis;
      _ ← for_range n (isub_line get set l' func);
      mret l') (<[l' := z]> h)).2 !! k = h !! k).
  { intros k Hs. rewrite Hf by auto. apply lookup_insert_ne.
    intros E. by apply (Hkeep k Hs). }
  split; [rewrite Hall; eauto|]. split; [exact Hall|].
  intros r Hok. apply Hr in Hok as ->. split; [exact Hfresh|].
  apply Hk. rewrite lookup_insert_eq. eauto.
Qed.


(** ** Slices *)

Lemma truthy_0 : truthy (Fin 0%Qc) = false.
Proof. reflexivity. Qed.

Lemma py_index_nat {A : Type} (t : list A) (i : Z) :
  0 ≤ i < Z.of_nat (length t) →
  ∃ a, py_index t i = Ok a ∧ t !! Z.to_nat i = Some a.
Proof.
  intros Hi. unfold py_index.
  destruct (Z.ltb_spec i 0); [lia|].
  destruct (Z.ltb_spec i 0); [lia|].
  destruct (Z.leb_spec (Z.of_nat (length t)) i); [lia|]. simpl.
  destruct (lookup_lt_is_Some_2 t (Z.to_nat i)) as [a Ha]; [lia|].
  rewrite Ha. eauto.
Qed.

Lemma length_linspace a b n : length (linspace a b n) = n.
Proof.
  destruct n as [|[|m]]; try reflexivity.
  unfold linspace. rewrite length_insert, length_fmap, length_seq. done.
Qed.

Lemma nanmin_ok l : l ≠ [] → ∃ a, nanmin l = Ok a.
Proof. destruct l; [done|]. simpl. eauto. Qed.

Lemma nanmax_ok l : l ≠ [] → ∃ a, nanmax l = Ok a.
Proof. destruct l; [done|]. simpl. eauto. Qed.

Lemma nonempty_length {A : Type} (l : list A) : (0 < length l)%nat → l ≠ [].
Proof. destruct l; simpl; [lia | done]. Qed.

(** C5: on an array of shape (N, M), the row slice at an index
    0 <= i < N exists, has length M, and its j-th entry is the entry
    (i, j) of the array; with no rotation and M > 0 it is what [update]
    plots and exports for the selector "x". *)
Theorem row_slice_is_row (z : ndarray) (i : Z) :
  nd_wf z → 0 ≤ i < Z.of_nat (length (nd_rows z)) →
  ∃ r, extract_slice SliceX z i = Ok r
    ∧ length r = nd_ncols z
    ∧ (∀ j, (j < nd_ncols z)%nat →
         ∃ a, r !! j = Some a ∧ entry z (Z.to_nat i) j = Some a)
    ∧ (∀ rotate color_by_value xlim ylim, (0 < nd_ncols z)%nat →
         ∃ u, update rotate SliceX color_by_value (Fin 0%Qc) xlim ylim z i
              = Ok u
           ∧ su_ydata u = r).
Proof.
  intros Hwf Hi.
  destruct (py_index_nat (nd_rows z) i Hi) as (r & Hr & Hlook).
  assert (Hlen : length r = nd_ncols z).
  { unfold nd_wf in Hwf. rewrite Forall_lookup in Hwf. by eapply Hwf. }
  exists r. split; [exact Hr|]. split; [exact Hlen|]. split.
  - intros j Hj.
    destruct (lookup_lt_is_Some_2 r j) as [a Ha]; [lia|].
    exists a. split; [exact Ha|]. unfold entry. rewrite Hlook. exact Ha.
  - intros rotate cbv xlim ylim HM. unfold update. rewrite truthy_0.
    unfold py_row. rewrite Hr. cbn [mbind res_bind].
    set (x := linspace xlim.1 xlim.2 (nd_ncols z)).
    set (y := linspace ylim.1 ylim.2 (length (nd_rows z))).
    assert (Hx : x ≠ []).
    { apply nonempty_length. unfold x. rewrite length_linspace. lia. }
    assert (Hr0 : r ≠ []) by (apply nonempty_length; lia).
    destruct (nanmin_ok r Hr0) as [lo Hlo].
    destruct (nanmax_ok r Hr0) as [hi Hhi].
    destruct (nanmin_ok x Hx) as [xlo Hxlo].
    destruct (nanmax_ok x Hx) as [xhi Hxhi].
    destruct (py_index_nat y i) as (cut & Hcut & _).
    { unfold y. rewrite length_linspace. lia. }
    rewrite Hlo, Hhi, Hxlo, Hxhi, Hcut.
    destruct cbv; cbn [mbind res_bind]; rewrite Hlo, Hhi;
      cbn [mbind res_bind]; eexists; split; reflexivity.
Qed.

Lemma compress_finite (l : list num) :
  Forall (λ a, isfinite a = true) (compress (isfinite <$> l) l).
Proof.
  induction l as [|a l IH]; [constructor|].
  cbn. destruct (isfinite a) eqn:E; [by constructor | exact IH].
Qed.

Lemma length_compress {A B : Type} (mask : list bool) (l1 : list A)
    (l2 : list B) :
  length l1 = length mask → length l2 = length mask →
  length (compress mask l1) = length (compress mask l2).
Proof.
  revert l1 l2. induction mask as [|b mask IH]; intros [|a1 l1] [|a2 l2];
    simpl; try discriminate; try reflexivity.
  intros H1 H2. destruct b; simpl; [f_equal|]; apply IH; lia.
Qed.

Lemma compress_none {A : Type} (mask : list bool) (l : list A) :
  existsb id mask = false → compress mask l = [].
Proof.
  revert l. induction mask as [|b mask IH]; intros [|a l]; simpl;
    try reflexivity.
  destruct b; simpl; [discriminate | apply IH].
Qed.

Lemma compress_some {A : Type} (mask : list bool) (l : list A) :
  length l = length mask → existsb id mask = true → compress mask l ≠ [].
Proof.
  revert l. induction mask as [|b mask IH]; intros [|a l]; simpl;
    try discriminate.
  destruct b; simpl; [discriminate|]. intros Hl. apply IH. lia.
Qed.

Lemma bool_index_Ok mask l r :
  bool_index mask l = Ok r ↔ length mask = length l ∧ r = compress mask l.
Proof.
  unfold bool_index. destruct (Nat.eqb_spec (length mask) (length l)).
  - split; [intros [= <-]; done | intros [_ ->]; done].
  - split; [done | intros [? _]; done].
Qed.

(** The two places that make a slice. The slice built when the figure
    is made (index 0, either selector) has the positions with a
    non-finite value removed from the values and from the coordinates,
    and its segments and colour range come from what is left. The slice
    that [update] draws for a slider index has nothing removed: it is
    the whole line next to the whole coordinate array, the segments go
    through all its points, and the colour range is the NaN-ignoring
    minimum and maximum. *)
Lemma slice_masking
    (rotate : ndarray → num → num → ndarray)
    (st : slice_state) (xs ys : list num) (zs : ndarray) :
  (∀ sp, first_slice st xs ys zs = Ok sp →
     ∃ raw, extract_slice st zs 0 = Ok raw
       ∧ sp_ys sp = compress (isfinite <$> raw) raw
       ∧ sp_xs sp = compress (isfinite <$> raw)
                      (match st with SliceX => xs | SliceY => ys end)
       ∧ Forall (λ a, isfinite a = true) (sp_ys sp)
       ∧ length (sp_xs sp) = length (sp_ys sp)
       ∧ sp_segments sp = segments (points (sp_xs sp) (sp_ys sp))
       ∧ (sp_ys sp ≠ [] → np_min (sp_ys sp) = Ok (sp_norm sp).1
                          ∧ np_max (sp_ys sp) = Ok (sp_norm sp).2)
       ∧ (sp_ys sp = [] → sp_norm sp = (Fin 0%Qc, Fin 1%Qc)))
  ∧ (∀ color_by_value angle xlim ylim i u,
       update rotate st color_by_value angle xlim ylim zs i = Ok u →
       let z := if truthy angle then rotate zs angle NaN else zs in
       let coords :=
         match st with
         | SliceX => linspace xlim.1 xlim.2 (nd_ncols z)
         | SliceY => linspace ylim.1 ylim.2 (length (nd_rows z))
         end in
       extract_slice st z i = Ok (su_ydata u)
       ∧ su_xdata u = coords
       ∧ (color_by_value = true →
          ∃ lo hi, nanmin (su_ydata u) = Ok lo ∧ nanmax (su_ydata u) = Ok hi
            ∧ su_colored u
              = Some (segments (points coords (su_ydata u)), (lo, hi)))).
Proof.
  split.
  - intros sp Hsp. unfold first_slice in Hsp.
    set (coords := match st with SliceX => xs | SliceY => ys end).
    assert (Hraw : ∃ raw, extract_slice st zs 0 = Ok raw
      ∧ (slice_xs ← bool_index (isfinite <$> raw) coords;
         slice_ys ← bool_index (isfinite <$> raw) raw;
         '(vmin, vmax) ←
           (if existsb id (isfinite <$> raw)
            then lo ← np_min slice_ys; hi ← np_max slice_ys; Ok (lo, hi)
            else Ok (Fin 0%Qc, Fin 1%Qc));
         Ok (mk_slice_plot slice_xs slice_ys
               (segments (points slice_xs slice_ys)) (vmin, vmax)))
        = Ok sp).
    { unfold extract_slice, coords. destruct st.
      - destruct (py_row zs 0) as [raw|e]; [|discriminate]. eauto.
      - destruct (py_col zs 0) as [raw|e]; [|discriminate]. eauto. }
    clear Hsp. destruct Hraw as (raw & Hraw & Hsp). exists raw.
    split; [exact Hraw|].
    destruct (bool_index (isfinite <$> raw) coords) as [sx|e] eqn:Ex;
      [|discriminate].
    destruct (bool_index (isfinite <$> raw) raw) as [sy|e] eqn:Ey;
      [|discriminate].
    apply bool_index_Ok in Ex as [Hlx ->].
    apply bool_index_Ok in Ey as [Hly ->].
    cbn [mbind res_bind] in Hsp.
    destruct (existsb id (isfinite <$> raw)) eqn:Hany.
    + destruct (np_min _) as [lo|e] eqn:Elo; [|discriminate].
      destruct (np_max _) as [hi|e] eqn:Ehi; [|discriminate].
      cbn [mbind res_bind] in Hsp. injection Hsp as <-.
      cbn [sp_xs sp_ys sp_segments sp_norm fst snd].
      split; [reflexivity|]. split; [reflexivity|].
      split; [apply compress_finite|].
      split; [by apply length_compress|]. split; [reflexivity|]. split.
      * intros _. split; [exact Elo | exact Ehi].
      * intros E. exfalso. revert E. by apply compress_some.
    + cbn [mbind res_bind] in Hsp. injection Hsp as <-.
      cbn [sp_xs sp_ys sp_segments sp_norm fst snd].
      split; [reflexivity|]. split; [reflexivity|].
      split; [apply compress_finite|].
      split; [by apply length_compress|]. split; [reflexivity|]. split.
      * intros H. exfalso. apply H. by apply compress_none.
      * intros _. reflexivity.
  - intros cbv angle xlim ylim i u Hu. cbv zeta. unfold update in Hu.
    set (z := if truthy angle then rotate zs angle NaN else zs) in *.
    unfold extract_slice. destruct st.
    + destruct (py_row z i) as [z0|e]; [|discriminate].
      cbn [mbind res_bind] in Hu.
      destruct cbv.
      * destruct (nanmin z0) as [lo|e] eqn:Elo; [|discriminate].
        destruct (nanmax z0) as [hi|e] eqn:Ehi; [|discriminate].
        cbn [mbind res_bind] in Hu.
        destruct (nanmax (linspace _ _ _)); [|discriminate].
        destruct (nanmin (linspace _ _ _)); [|discriminate].
        cbn [mbind res_bind] in Hu.
        destruct (py_index _ i); [|discriminate].
        cbn [mbind res_bind] in Hu. rewrite Elo, Ehi in Hu.
        cbn [mbind res_bind] in Hu. injection Hu as <-. cbn.
        split; [done|]. split; [done|]. intros _. eauto.
      * cbn [mbind res_bind] in Hu.
        destruct (nanmax (linspace _ _ _)); [|discriminate].
        destruct (nanmin (linspace _ _ _)); [|discriminate].
        cbn [mbind res_bind] in Hu.
        destruct (py_index _ i); [|discriminate].
        cbn [mbind res_bind] in Hu.
        destruct (nanmin z0); [|discriminate].
        destruct (nanmax z0); [|discriminate].
        cbn [mbind res_bind] in Hu. injection Hu as <-. cbn.
        split; [done|]. split; [done|]. discriminate.
    + destruct (py_col z i) as [z0|e]; [|discriminate].
      cbn [mbind res_bind] in Hu.
      destruct cbv.
      * destruct (nanmin z0) as [lo|e] eqn:Elo; [|discriminate].
        destruct (nanmax z0) as [hi|e] eqn:Ehi; [|discriminate].
        cbn [mbind res_bind] in Hu.
        destruct (nanmax (linspace _ _ _)); [|discriminate].
        destruct (nanmin (linspace _ _ _)); [|discriminate].
        cbn [mbind res_bind] in Hu.
        destruct (py_index _ i); [|discriminate].
        cbn [mbind res_bind] in Hu. rewrite Elo, Ehi in Hu.
        cbn [mbind res_bind] in Hu. injection Hu as <-. cbn.
        split; [done|]. split; [done|]. intros _. eauto.
      * cbn [mbind res_bind] in Hu.
        destruct (nanmax (linspace _ _ _)); [|discriminate].
        destruct (nanmin (linspace _ _ _)); [|discriminate].
        cbn [mbind res_bind] in Hu.
        destruct (py_index _ i); [|discriminate].
        cbn [mbind res_bind] in Hu.
        destruct (nanmin z0); [|discriminate].
        destruct (nanmax z0); [|discriminate].
        cbn [mbind res_bind] in Hu. injection Hu as <-. cbn.
        split; [done|]. split; [done|]. discriminate.
Qed.

(** ** The rotation step *)

Lemma tabulate_lookup (d : num) (l : list num) :
  (λ j, default d (l !! j)) <$> seq 0 (length l) = l.
Proof.
  apply list_eq. intros k. rewrite list_lookup_fmap.
  destruct (decide (k < length l)%nat) as [Hk|Hk].
  - rewrite lookup_seq_lt by done. simpl.
    destruct (lookup_lt_is_Some_2 l k Hk) as [a ->]. done.
  - rewrite lookup_seq_ge by lia. simpl. symmetry.
    apply lookup_ge_None. lia.
Qed.

Lemma transpose_rows_lookup z j :
  (j < nd_ncols z)%nat →
  nd_rows (transpose z) !! j
  = Some ((λ r : list num, default NaN (r !! j)) <$> nd_rows z).
Proof.
  intros Hj. unfold transpose. cbn [nd_rows].
  rewrite list_lookup_fmap, lookup_seq_lt by done. done.
Qed.

Lemma transpose_shape z :
  nd_shape (transpose z) = (nd_ncols z, length (nd_rows z)).
Proof.
  unfold nd_shape, transpose. cbn [nd_rows nd_ncols].
  by rewrite length_fmap, length_seq.
Qed.


Lemma transpose_involutive z : nd_wf z → transpose (transpose z) = z.
Proof.
  intros Hwf. destruct z as [rows m]. unfold transpose at 1.
  assert (Hn : length (nd_rows (transpose (mk_ndarray rows m))) = m).
  { unfold transpose. cbn [nd_rows nd_ncols].
    by rewrite length_fmap, length_seq. }
  assert (Hm : nd_ncols (transpose (mk_ndarray rows m)) = length rows)
    by reflexivity.
  rewrite Hn, Hm. f_equal.
  unfold nd_wf in Hwf. cbn [nd_rows nd_ncols] in Hwf.
  apply list_eq. intros i. rewrite list_lookup_fmap.
  destruct (decide (i < length rows)%nat) as [Hi|Hi].
  - rewrite lookup_seq_lt by done. cbn.
    destruct (lookup_lt_is_Some_2 rows i Hi) as [r Hr]. rewrite Hr.
    f_equal. unfold transpose. cbn [nd_rows nd_ncols].
    rewrite <- list_fmap_compose.
    assert (Hlen : length r = m).
    { rewrite Forall_lookup in Hwf. by eapply Hwf. }
    transitivity ((λ j, default NaN (r !! j)) <$> seq 0 m);
      [|rewrite <- Hlen; apply tabulate_lookup].
    apply list_fmap_ext. intros k j Hk. cbn.
    by rewrite list_lookup_fmap, Hr.
  - rewrite lookup_seq_ge by lia. cbn. symmetry.
    apply lookup_ge_None. lia.
Qed.

Lemma np_min_ok l : l ≠ [] → ∃ a, np_min l = Ok a.
Proof. destruct l; [done|]. simpl. eauto. Qed.

Lemma np_max_ok l : l ≠ [] → ∃ a, np_max l = Ok a.
Proof. destruct l; [done|]. simpl. eauto. Qed.



(** ** The best-fit reductions *)

Lemma nadd_nan_l a : nadd NaN a = NaN.
Proof. by destruct a. Qed.

Lemma nadd_nan_r a : nadd a NaN = NaN.
Proof. by destruct a. Qed.

Lemma nmul_nan_r a : nmul a NaN = NaN.
Proof. by destruct a. Qed.

Lemma nsub_nan_l a : nsub NaN a = NaN.
Proof. by destruct a. Qed.

Lemma nsub_nan_r a : nsub a NaN = NaN.
Proof. by destruct a. Qed.

Lemma ndiv_nan_l a : ndiv NaN a = NaN.
Proof. by destruct a. Qed.

Lemma foldl_nadd_nan l : foldl nadd NaN l = NaN.
Proof.
  induction l as [|a l IH]; [done|].
  change (foldl nadd NaN (a :: l)) with (foldl nadd (nadd NaN a) l).
  by rewrite nadd_nan_l.
Qed.

(** One NaN entry makes the sum NaN. *)
Lemma nsum_nan l : NaN ∈ l → nsum l = NaN.
Proof.
  unfold nsum. generalize (Fin 0%Qc) as acc.
  induction l as [|a l IH]; intros acc Hin.
  - by apply elem_of_nil in Hin.
  - change (foldl nadd acc (a :: l)) with (foldl nadd (nadd acc a) l).
    apply elem_of_cons in Hin as [<-|Hin].
    + by rewrite nadd_nan_r, foldl_nadd_nan.
    + by apply IH.
Qed.

(** [fit_line] fits all the points: one NaN in [y] makes both
    coefficients NaN and the whole line with them. *)
Lemma fit_line_propagates_nan (x y l : list num) :
  NaN ∈ y → fit_line x y = Ok l → l = replicate (length x) NaN.
Proof.
  intros Hnan. unfold fit_line, polyfit1.
  destruct (length x =? 0)%nat; [discriminate|].
  destruct (negb (length x =? length y)%nat); [discriminate|].
  rewrite (nsum_nan y Hnan).
  assert (Hline : ∀ l',
    Ok ((λ xi, nadd (nmul NaN xi) NaN) <$> x) = Ok l' →
    l' = replicate (length x) NaN).
  { intros l' [= <-]. clear. induction x as [|a x IH]; [done|].
    cbn. by rewrite IH. }
  destruct (decide _) as [Hd|Hd].
  - destruct (decide _) as [Hc|Hc]; [discriminate|].
    rewrite !ndiv_nan_l. cbn [mbind res_bind]. apply Hline.
  - rewrite nmul_nan_r, nsub_nan_r, nsub_nan_l, !ndiv_nan_l.
    cbn [mbind res_bind]. apply Hline.
Qed.

(** [fit_plane] reads [z] only through its finite positions: two
    arrays of one shape that agree wherever either is finite get the
    same plane, whatever the solver. *)
Lemma finite_part_agree (l l' : list num) :
  Forall2 (λ u v, u = v ∨ (isfinite u = false ∧ isfinite v = false)) l l' →
  isfinite <$> l = isfinite <$> l'
  ∧ compress (isfinite <$> l) l = compress (isfinite <$> l') l'.
Proof.
  induction 1 as [|u v l l' Huv _ [IH1 IH2]]; [done|].
  rewrite !fmap_cons. cbn [compress]. rewrite IH1 in IH2 |- *.
  destruct Huv as [->|[Hu Hv]].
  - split; [done|]. destruct (isfinite v); by rewrite IH2.
  - rewrite Hu, Hv. split; [done | exact IH2].
Qed.

Lemma at_finite_agree (a z z' : ndarray) :
  nd_shape z = nd_shape z' →
  Forall2 (λ u v, u = v ∨ (isfinite u = false ∧ isfinite v = false))
          (ravel z) (ravel z') →
  at_finite a z = at_finite a z' ∧ at_finite z z = at_finite z' z'.
Proof.
  intros Hs H. unfold at_finite. rewrite <- Hs.
  destruct (finite_part_agree _ _ H) as [Hmask Hval].
  rewrite Hmask. split; [done|].
  destruct (decide (nd_shape z = nd_shape z)); [|done].
  by rewrite <- Hmask, Hval, Hmask.
Qed.

Lemma fit_plane_ignores_non_finite
    (lstsq : list (list num) → list num → res (list num))
    (x y : list num) (z z' : ndarray) :
  nd_shape z = nd_shape z' →
  Forall2 (λ u v, u = v ∨ (isfinite u = false ∧ isfinite v = false))
          (ravel z) (ravel z') →
  fit_plane lstsq x y z = fit_plane lstsq x y z'.
Proof.
  intros Hs H. unfold fit_plane. cbv zeta.
  destruct (meshgrid x y) as [X Y].
  destruct (at_finite_agree X z z' Hs H) as [-> _].
  destruct (at_finite_agree Y z z' Hs H) as [-> ->].
  reflexivity.
Qed.

(** ** Unit conversion *)

Lemma try_ito_failure {A : Type}
    (ito : Quantity A → string → res (Quantity A)) q text e :
  ito q text = Raise e → try_ito ito q text = Ok (q, units q).
Proof. intros H. unfold try_ito. cbn [mbind res_bind]. by rewrite H. Qed.

Lemma try_ito_cases {A : Type}
    (ito : Quantity A → string → res (Quantity A)) q text :
  (∃ q', ito q text = Ok q' ∧ try_ito ito q text = Ok (q', text))
  ∨ (∃ e, ito q text = Raise e ∧ try_ito ito q text = Ok (q, units q)).
Proof.
  unfold try_ito. cbn [mbind res_bind].
  destruct (ito q text) as [q'|e]; [left | right]; eauto.
Qed.

Lemma item_eta {A : Type} (d : DataItem A) : mk_item (name d) (array d) = d.
Proof. by destruct d. Qed.

(** C7: a conversion that raises is caught where it is attempted: the
    quantity stays as it was and the text field shows the string of its
    unit. In [replot] the attempts never raise, the dependent array
    keeps its unit and [units] shows it, and so do the coordinate
    arrays and [xy_units]; in [set_plot_from_name] the call goes on
    with the array in its own unit and that unit in the field, so
    nothing it raises comes from the conversion. *)
Theorem unit_conversion_failure_falls_back
    (lstsq : list (list num) → list num → res (list num))
    (convert : string → string → res ((num → num) * string))
    (w : widget) :
  (∀ (A : Type) (ito : Quantity A → string → res (Quantity A)) q text e,
      ito q text = Raise e → try_ito ito q text = Ok (q, units q))
  ∧ (∀ cd, ∃ w' cd',
       replot_units convert w cd = Ok (w', cd')
       ∧ (∀ e, cd_zs cd = None →
            ito1 convert (array (cd_ys cd)) (units_text w) = Raise e →
            cd_ys cd' = cd_ys cd
            ∧ units_text w' = units (array (cd_ys cd)))
       ∧ (∀ zs e, cd_zs cd = Some zs →
            ito2 convert (array zs) (units_text w) = Raise e →
            cd_zs cd' = Some zs ∧ units_text w' = units (array zs))
       ∧ (∀ e, xy_units_box w = true →
            ito1 convert (array (cd_xs cd)) (xy_units w) = Raise e →
            cd_xs cd' = cd_xs cd
            ∧ (cd_zs cd = None → xy_units w' = units (array (cd_xs cd))))
       ∧ (∀ zs e, xy_units_box w = true → cd_zs cd = Some zs →
            ito1 convert (array (cd_ys cd))
              (match ito1 convert (array (cd_xs cd)) (xy_units w) with
               | Ok _ => xy_units w
               | Raise _ => units (array (cd_xs cd))
               end) = Raise e →
            cd_ys cd' = cd_ys cd
            ∧ xy_units w' = units (array (cd_ys cd))))
  ∧ (∀ nm v d x y e,
       dataset w = Some d → indep_vars w = [v] →
       get_arr1 w v = Ok x → get_arr1 w nm = Ok y →
       ito1 convert y (units_text w) = Raise e →
       set_plot_from_name lstsq convert w nm
       = (let w1 :=
            set_current (set_units_enabled (set_units_text w (units y)) true)
              (location d +:+ " [" +:+ nm +:+ "]")
              (mk_plot_data (mk_item v x) (mk_item nm y) None) in
          pc ← subtract_background lstsq w1 IdxNone; Ok (w1, pc)))
  ∧ (∀ nm vx vy d x y z e,
       dataset w = Some d → indep_vars w = [vx; vy] →
       get_arr1 w vx = Ok x → get_arr1 w vy = Ok y → get_arr2 w nm = Ok z →
       let z' := orient (default ("pos", "pos") (direction d)).1
                        (default ("pos", "pos") (direction d)).2 z in
       ito2 convert z' (units_text w) = Raise e →
       set_plot_from_name lstsq convert w nm
       = (let w1 :=
            set_current (set_units_enabled (set_units_text w (units z')) true)
              (location d +:+ " [" +:+ nm +:+ "]")
              (mk_plot_data (mk_item vx x) (mk_item vy y)
                            (Some (mk_item nm z'))) in
          pc ← subtract_background lstsq w1 IdxNone; Ok (w1, pc))).
Proof.
  split; [intros A ito q text e; apply try_ito_failure|].
  split; [|split].
  - intros [xs ys zs]. unfold replot_units. cbn [cd_xs cd_ys cd_zs].
    destruct (xy_units_box w) eqn:Hbox.
    + destruct (try_ito_cases (ito1 convert) (array xs) (xy_units w))
        as [(qx & Hx & ->)|(ex & Hx & ->)];
      cbn [mbind res_bind]; rewrite Hx.
      all: destruct zs as [zs|].
      all: cbn [xy_units_box set_xy_units units_text xy_units].
      all: rewrite ?Hbox; cbn [mbind res_bind].
      all: try (destruct (try_ito_cases (ito1 convert) (array ys) (xy_units w))
        as [(qy & Hy & ->)|(ey & Hy & ->)]; cbn [mbind res_bind]).
      all: try (destruct (try_ito_cases (ito1 convert) (array ys)
                            (units (array xs)))
        as [(qy & Hy & ->)|(ey & Hy & ->)]; cbn [mbind res_bind]).
      all: cbn [xy_units_box set_xy_units units_text xy_units].
      all: try (destruct (try_ito_cases (ito2 convert) (array zs) (units_text w))
        as [(qz & Hz & ->)|(ez & Hz & ->)]; cbn [mbind res_bind]).
      all: try (destruct (try_ito_cases (ito1 convert) (array ys) (units_text w))
        as [(qy & Hy & ->)|(ey & Hy & ->)]; cbn [mbind res_bind]).
      all: eexists _, _; (split; [reflexivity|]).
      all: cbn [cd_xs cd_ys cd_zs units_text xy_units set_units_text
                set_xy_units].
      all: rewrite ?item_eta.
      all: repeat split; intros; simplify_eq; try done; try congruence.
    + cbn [mbind res_bind]. destruct zs as [zs|]; rewrite ?Hbox;
        cbn [mbind res_bind].
      * destruct (try_ito_cases (ito2 convert) (array zs) (units_text w))
          as [(qz & Hz & ->)|(ez & Hz & ->)]; cbn [mbind res_bind];
          eexists _, _; (split; [reflexivity|]);
          cbn [cd_xs cd_ys cd_zs units_text xy_units set_units_text];
          rewrite ?item_eta;
          repeat split; intros; simplify_eq; try done; try congruence.
      * destruct (try_ito_cases (ito1 convert) (array ys) (units_text w))
          as [(qy & Hy & ->)|(ey & Hy & ->)]; cbn [mbind res_bind];
          eexists _, _; (split; [reflexivity|]);
          cbn [cd_xs cd_ys cd_zs units_text xy_units set_units_text];
          rewrite ?item_eta;
          repeat split; intros; simplify_eq; try done; try congruence.
  - intros nm v d x y e Hd Hv Hx Hy Hito. unfold set_plot_from_name.
    rewrite Hd, Hv. cbn [mbind res_bind]. rewrite Hx, Hy.
    cbn [mbind res_bind]. rewrite (try_ito_failure _ _ _ _ Hito).
    cbn [mbind res_bind]. unfold title_of.
    cbn [dataset set_units_enabled set_units_text]. rewrite Hd.
    reflexivity.
  - intros nm vx vy d x y z e Hd Hv Hx Hy Hz z' Hito.
    unfold set_plot_from_name. rewrite Hd, Hv. cbn [mbind res_bind].
    destruct (default ("pos", "pos") (direction d)) as [x_dir y_dir] eqn:Hdir.
    rewrite Hx, Hy, Hz. cbn [mbind res_bind].
    cbn [fst snd] in z'. fold z'.
    rewrite (try_ito_failure _ _ _ _ Hito).
    cbn [mbind res_bind]. unfold title_of.
    cbn [dataset set_units_enabled set_units_text]. rewrite Hd.
    reflexivity.
Qed.

(** ** Export *)

(** C8: [export_data] returns the widget as it was whatever its writers
    do, raising included; [export_mpl] has no handler, and an error of
    [savefig] leaves it as raised. *)
Theorem export_failures
    (savemat h5_save pickle_dump : string → gmap string exp_entry → res unit)
    (savefig : string → res unit) (w : widget) (path : string) :
  export_data savemat h5_save pickle_dump w path = Ok w
  ∧ (∀ d e, dataset w = Some d → savefig path = Raise e →
       export_mpl savefig w path = Raise e).
Proof.
  split.
  - unfold export_data, try_except.
    destruct (decide _); [reflexivity|].
    destruct (endswith path "mat").
    { by destruct (savemat _ _). }
    destruct (endswith path "h5").
    { by destruct (h5_save _ _). }
    destruct (endswith path "pickle"); [|reflexivity].
    by destruct (pickle_dump _ _).
  - intros d e Hd He. unfold export_mpl. rewrite Hd.
    cbn [mbind res_bind]. by rewrite He.
Qed.

(** * Further properties *)

(** ** Line loops with any function *)

Lemma isub_length line v new : isub line v = Ok new → length new = length line.
Proof.
  destruct v as [s|[|b [|b' bs]]].
  - intros [= <-]. apply length_fmap.
  - destruct line; simpl; [by intros [= <-] | discriminate].
  - intros [= <-]. apply length_fmap.
  - unfold isub.
    destruct (Nat.eqb_spec (length (b :: b' :: bs)) (length line)) as [E|];
      [|discriminate].
    intros [= <-]. rewrite length_zip_with. lia.
Qed.

Lemma for_each_app {A : Type} (ks1 ks2 : list A) (body : A → M unit)
    (h : heap) :
  for_each (ks1 ++ ks2) body h
  = match for_each ks1 body h with
    | (Ok _, h') => for_each ks2 body h'
    | (Raise e, h') => (Raise e, h')
    end.
Proof.
  revert h. induction ks1 as [|k ks1 IH]; intros h; [reflexivity|].
  rewrite <- app_comm_cons, !for_each_cons.
  destruct (body k h) as [[[]|e] h1]; [apply IH | reflexivity].
Qed.

Section LineLoopAny.

Variable get : ndarray → nat → res (list num).
Variable set : ndarray → nat → list num → ndarray.
Variable inv : ndarray → Prop.
Variable n_lines : ndarray → nat.

Hypothesis get_ok : ∀ z k, inv z → (k < n_lines z)%nat → ∃ c, get z k = Ok c.
Hypothesis get_set_eq : ∀ z k c0 c,
  inv z → get z k = Ok c0 → length c = length c0 → get (set z k c) k = Ok c.
Hypothesis get_set_ne : ∀ z k k' c0 c,
  inv z → get z k = Ok c0 → length c = length c0 → k' ≠ k →
  get (set z k c) k' = get z k'.
Hypothesis set_inv : ∀ z k c0 c,
  inv z → get z k = Ok c0 → length c = length c0 →
  inv (set z k c) ∧ n_lines (set z k c) = n_lines z
  ∧ nd_shape (set z k c) = nd_shape z.

(** A loop over distinct lines on each of which the function returns
    and its value broadcasts: every line visited becomes [new] of the
    line it was, the others stay. *)
Lemma for_each_isub_ok l (func : list num → res value)
    (new : list num → list num) (ks : list nat) :
  ∀ (h : heap) (z : ndarray),
    NoDup ks → (∀ k, k ∈ ks → (k < n_lines z)%nat) → inv z →
    h !! l = Some z →
    (∀ k c, k ∈ ks → get z k = Ok c →
       ∃ v, func c = Ok v ∧ isub c v = Ok (new c)) →
    ∃ z', for_each ks (isub_line get set l func) h = (Ok (), <[l := z']> h)
      ∧ inv z' ∧ n_lines z' = n_lines z ∧ nd_shape z' = nd_shape z
      ∧ ∀ k c, get z k = Ok c →
          get z' k = Ok (if decide (k ∈ ks) then new c else c).
Proof.
  induction ks as [|i ks IH]; intros h z Hnd Hlt Hinv Hl Hfun.
  - exists z. cbn [for_each]. run_M. rewrite insert_id by done.
    repeat split; try done.
    all: intros k c Hc; rewrite decide_False by apply not_elem_of_nil; done.
  - apply NoDup_cons in Hnd as [Hi Hnd].
    destruct (get_ok z i Hinv) as [c0 Hc0]; [apply Hlt; left|].
    destruct (Hfun i c0) as (v & Hv & Hnew); [left | done |].
    assert (Hlen : length (new c0) = length c0) by (by eapply isub_length).
    destruct (set_inv z i c0 (new c0) Hinv Hc0 Hlen) as (Hinv1 & Hn1 & Hs1).
    destruct (IH (<[l := set z i (new c0)]> h) (set z i (new c0)) Hnd) as
      (z' & Hrun & Hinv' & Hn' & Hs' & Hget'); try done.
    { intros k Hk. rewrite Hn1. apply Hlt. by right. }
    { apply lookup_insert_eq. }
    { intros k c Hk Hc. apply (Hfun k c); [by right|].
      rewrite <- Hc. symmetry. eapply get_set_ne; eauto.
      intros ->. done. }
    exists z'. split.
    { rewrite for_each_cons.
      assert (Hstep : isub_line get set l func i h
                      = (Ok (), <[l := set z i (new c0)]> h)).
      { unfold isub_line. run_M. rewrite Hl, Hc0, Hv, Hnew. reflexivity. }
      rewrite Hstep, Hrun. by rewrite insert_insert_eq. }
    split; [done|]. split; [congruence|]. split; [congruence|].
    intros k c Hc. destruct (decide (k = i)) as [->|Hne].
    + assert (c = c0) by congruence. subst c.
      rewrite decide_True by left.
      rewrite (Hget' i (new c0)) by (by eapply get_set_eq).
      by rewrite decide_False.
    + rewrite (Hget' k c).
      * destruct (decide (k ∈ ks)) as [Hin|Hnin].
        -- by rewrite decide_True by (by right).
        -- rewrite decide_False; [done|].
           intros [?|?]%elem_of_cons; done.
      * erewrite get_set_ne; eauto.
Qed.

(** The first line on which the function raises, or returns a value
    that does not broadcast, ends the loop with that error. *)
Lemma for_each_isub_raises l (func : list num → res value)
    (new : list num → list num) (pre post : list nat) (i : nat) (e : exn) :
  ∀ (h : heap) (z : ndarray) (c : list num),
    NoDup (pre ++ [i]) → (∀ k, k ∈ pre → (k < n_lines z)%nat) → inv z →
    h !! l = Some z →
    (∀ k c, k ∈ pre → get z k = Ok c →
       ∃ v, func c = Ok v ∧ isub c v = Ok (new c)) →
    get z i = Ok c →
    (func c = Raise e ∨ ∃ v, func c = Ok v ∧ isub c v = Raise e) →
    (for_each (pre ++ i :: post) (isub_line get set l func) h).1 = Raise e.
Proof.
  intros h z c Hnd Hlt Hinv Hl Hfun Hc Hfail.
  apply NoDup_app in Hnd as (Hnd & Hdisj & _).
  destruct (for_each_isub_ok l func new pre h z Hnd Hlt Hinv Hl Hfun)
    as (z' & Hrun & _ & _ & _ & Hget).
  rewrite for_each_app, Hrun, for_each_cons.
  assert (Hc' : get z' i = Ok c).
  { rewrite (Hget i c Hc). rewrite decide_False; [done|].
    intros Hin. apply (Hdisj i Hin). left. }
  unfold isub_line. run_M. rewrite lookup_insert_eq, Hc'.
  destruct Hfail as [-> | (v & -> & ->)]; reflexivity.
Qed.

End LineLoopAny.

(** ** [subtract_line_by_line] with any function *)

(** The call is the copy followed by the loop over [shape[axis]] lines. *)
Lemma subtract_line_by_line_run (h : heap) zdata z axis func :
  h !! zdata = Some z →
  h !! fresh (dom h) = None
  ∧ subtract_line_by_line zdata axis func h
    = match py_index [length (nd_rows z); nd_ncols z] axis with
      | Ok n =>
          match for_each (seq 0 n)
                  (isub_line (line_get axis) (line_set axis)
                     (fresh (dom h)) func)
                  (<[fresh (dom h) := z]> h) with
          | (Ok _, h') => (Ok (fresh (dom h)), h')
          | (Raise e, h') => (Raise e, h')
          end
      | Raise e => (Raise e, <[fresh (dom h) := z]> h)
      end.
Proof.
  intros Hl. destruct (np_copy_run h zdata z Hl) as [Hcopy Hfresh].
  split; [exact Hfresh|].
  set (l' := fresh (dom h)) in *.
  assert (Hl' : <[l' := z]> h !! l' = Some z) by apply lookup_insert_eq.
  unfold subtract_line_by_line, line_get, line_set.
  rewrite M_bind_run, Hcopy.
  destruct (axis =? 0).
  - rewrite M_bind_run, (shape_at_run _ _ _ _ Hl').
    destruct (py_index _ axis) as [n|e]; [|reflexivity].
    rewrite M_bind_run. unfold for_range, isub_row.
    by destruct (for_each _ _ _) as [[[]|e] h1].
  - rewrite M_bind_run, (shape_at_run _ _ _ _ Hl').
    destruct (py_index _ axis) as [n|e]; [|reflexivity].
    rewrite M_bind_run. unfold for_range, isub_col.
    by destruct (for_each _ _ _) as [[[]|e] h1].
Qed.

Lemma rows_laws :
  (∀ z k, True → (k < length (nd_rows z))%nat → ∃ c, row z k = Ok c)
  ∧ (∀ z k c0 c, True → row z k = Ok c0 → length c = length c0 →
       row (set_row z k c) k = Ok c)
  ∧ (∀ z k k' c0 c, True → row z k = Ok c0 → length c = length c0 →
       k' ≠ k → row (set_row z k c) k' = row z k')
  ∧ (∀ z k c0 c, True → row z k = Ok c0 → length c = length c0 →
       True ∧ length (nd_rows (set_row z k c)) = length (nd_rows z)
       ∧ nd_shape (set_row z k c) = nd_shape z).
Proof.
  split; [intros z k _; apply row_ok|].
  split; [intros z k c0 c _ H _; by eapply row_set_row_eq|].
  split; [intros z k k' c0 c _ _ _; apply row_set_row_ne|].
  intros z k c0 c _ _ _. split; [done|]. split; [|apply set_row_shape].
  unfold set_row. simpl. apply length_insert.
Qed.

Lemma cols_laws :
  (∀ z k, nd_wf z → (k < nd_ncols z)%nat → ∃ c, col z k = Ok c)
  ∧ (∀ z k c0 c, nd_wf z → col z k = Ok c0 → length c = length c0 →
       col (set_col z k c) k = Ok c)
  ∧ (∀ z k k' c0 c, nd_wf z → col z k = Ok c0 → length c = length c0 →
       k' ≠ k → col (set_col z k c) k' = col z k')
  ∧ (∀ z k c0 c, nd_wf z → col z k = Ok c0 → length c = length c0 →
       nd_wf (set_col z k c) ∧ nd_ncols (set_col z k c) = nd_ncols z
       ∧ nd_shape (set_col z k c) = nd_shape z).
Proof.
  split; [intros z k; apply col_ok|].
  split; [intros z k c0 c; apply col_set_col_eq|].
  split.
  { intros z k k' c0 c _ H0 Hlen. apply col_set_col_ne.
    rewrite Hlen. by eapply col_length. }
  intros z k c0 c Hwf0 H0 Hlen.
  assert (Hc : length c = length (nd_rows z)).
  { rewrite Hlen. by eapply col_length. }
  split; [by apply set_col_wf|]. split; [done|]. by apply set_col_shape.
Qed.

(** X1: With [axis = 0] and a function that returns on every row a value
    that broadcasts to it, every row of the result is the row minus that
    value; the same along the columns with [axis = 1] or [-1]. The value
    may be an array, as for the line fit. *)
Theorem subtract_line_by_line_any_function
    (h : heap) (zdata : loc) (z : ndarray)
    (func : list num → res value) (new : list num → list num) :
  h !! zdata = Some z →
  ((∀ i r, row z i = Ok r → ∃ v, func r = Ok v ∧ isub r v = Ok (new r)) →
   ∃ l' z',
     subtract_line_by_line zdata 0 func h = (Ok l', <[l' := z']> h)
     ∧ h !! l' = None ∧ nd_shape z' = nd_shape z
     ∧ ∀ i r, row z i = Ok r → row z' i = Ok (new r))
  ∧ (∀ axis : Z, axis = 1 ∨ axis = -1 → nd_wf z →
     (∀ j c, col z j = Ok c → ∃ v, func c = Ok v ∧ isub c v = Ok (new c)) →
     ∃ l' z',
       subtract_line_by_line zdata axis func h = (Ok l', <[l' := z']> h)
       ∧ h !! l' = None ∧ nd_shape z' = nd_shape z
       ∧ ∀ j c, col z j = Ok c → col z' j = Ok (new c)).
Proof.
  intros Hl.
  set (l' := fresh (dom h)).
  assert (Hl' : <[l' := z]> h !! l' = Some z) by apply lookup_insert_eq.
  split.
  - intros Hfun.
    destruct (subtract_line_by_line_run h zdata z 0 func Hl) as [Hfresh ->].
    destruct rows_laws as (L1 & L2 & L3 & L4).
    destruct (for_each_isub_ok row set_row (λ _, True)
                (λ z, length (nd_rows z)) L1 L2 L3 L4 l' func new
                (seq 0 (length (nd_rows z))) (<[l' := z]> h) z)
      as (z' & Hrun & _ & _ & Hs & Hget); try done.
    { apply NoDup_seq. }
    { intros k Hk%elem_of_seq. lia. }
    { intros k c _. apply Hfun. }
    exists l', z'. cbn [py_index]. simpl.
    change (line_get 0) with row. change (line_set 0) with set_row.
    fold l'. rewrite Hrun, insert_insert_eq.
    split; [done|]. split; [done|]. split; [done|].
    intros i r Hr. rewrite (Hget i r Hr). rewrite decide_True; [done|].
    apply elem_of_seq. apply row_Ok, lookup_lt_Some in Hr. lia.
  - intros axis Hax Hwf Hfun.
    destruct (subtract_line_by_line_run h zdata z axis func Hl)
      as [Hfresh ->].
    destruct cols_laws as (L1 & L2 & L3 & L4).
    destruct (for_each_isub_ok col set_col nd_wf nd_ncols L1 L2 L3 L4
                l' func new (seq 0 (nd_ncols z)) (<[l' := z]> h) z)
      as (z' & Hrun & _ & _ & Hs & Hget); try done.
    { apply NoDup_seq. }
    { intros k Hk%elem_of_seq. lia. }
    { intros k c _. apply Hfun. }
    exists l', z'.
    assert (Hsh : py_index [length (nd_rows z); nd_ncols z] axis
                  = Ok (nd_ncols z)) by (by destruct Hax as [-> | ->]).
    assert (Hg : line_get axis = col) by (by destruct Hax as [-> | ->]).
    assert (Hs' : line_set axis = set_col) by (by destruct Hax as [-> | ->]).
    rewrite Hsh, Hg, Hs'. fold l'. rewrite Hrun, insert_insert_eq.
    split; [done|]. split; [done|]. split; [done|].
    intros j c Hc. rewrite (Hget j c Hc). rewrite decide_True; [done|].
    apply elem_of_seq. apply col_Ok in Hc as [Hj _]. lia.
Qed.

Lemma seq_split (k n : nat) :
  (k < n)%nat → seq 0 n = seq 0 k ++ k :: seq (S k) (n - S k).
Proof.
  intros Hk. replace n with (k + S (n - S k))%nat at 1 by lia.
  rewrite seq_app. reflexivity.
Qed.

(** X2: The first line on which the function raises, or returns a value
    that does not broadcast to the line, ends the call with that error:
    along the rows with [axis = 0], along the columns with [axis = 1] or
    [-1]. *)
Theorem subtract_line_by_line_first_error
    (h : heap) (zdata : loc) (z : ndarray)
    (func : list num → res value) (new : list num → list num)
    (k : nat) (line : list num) (e : exn) :
  h !! zdata = Some z →
  (func line = Raise e ∨ ∃ v, func line = Ok v ∧ isub line v = Raise e) →
  (row z k = Ok line →
   (∀ i r, (i < k)%nat → row z i = Ok r →
      ∃ v, func r = Ok v ∧ isub r v = Ok (new r)) →
   (subtract_line_by_line zdata 0 func h).1 = Raise e)
  ∧ (∀ axis : Z, axis = 1 ∨ axis = -1 → nd_wf z → col z k = Ok line →
     (∀ j c, (j < k)%nat → col z j = Ok c →
        ∃ v, func c = Ok v ∧ isub c v = Ok (new c)) →
     (subtract_line_by_line zdata axis func h).1 = Raise e).
Proof.
  intros Hl Hfail.
  set (l' := fresh (dom h)).
  assert (Hl' : <[l' := z]> h !! l' = Some z) by apply lookup_insert_eq.
  assert (Hnd : NoDup (seq 0 k ++ [k])).
  { replace (seq 0 k ++ [k]) with (seq 0 (S k)); [apply NoDup_seq|].
    by rewrite seq_S. }
  split.
  - intros Hrow Hfun.
    destruct (subtract_line_by_line_run h zdata z 0 func Hl) as [_ ->].
    assert (Hk : (k < length (nd_rows z))%nat).
    { apply row_Ok, lookup_lt_Some in Hrow. lia. }
    destruct rows_laws as (L1 & L2 & L3 & L4).
    pose proof (for_each_isub_raises row set_row (λ _, True)
                  (λ z, length (nd_rows z)) L1 L2 L3 L4 l' func new
                  (seq 0 k) (seq (S k) (length (nd_rows z) - S k)) k e
                  (<[l' := z]> h) z line Hnd) as Hraise.
    cbn [py_index]. simpl.
    change (line_get 0) with row. change (line_set 0) with set_row.
    fold l'. rewrite (seq_split k _ Hk).
    assert (Hr : ∀ i, i ∈ seq 0 k → (i < k)%nat).
    { intros i Hi%elem_of_seq. lia. }
    specialize (Hraise (λ i Hi, Nat.lt_trans _ _ _ (Hr i Hi) Hk) I Hl'
                  (λ i r Hi, Hfun i r (Hr i Hi)) Hrow Hfail).
    destruct (for_each _ _ _) as [[[]|e'] h1]; simpl in *;
      [discriminate | congruence].
  - intros axis Hax Hwf Hcol Hfun.
    destruct (subtract_line_by_line_run h zdata z axis func Hl) as [_ ->].
    assert (Hk : (k < nd_ncols z)%nat) by (by apply col_Ok in Hcol as [? _]).
    destruct cols_laws as (L1 & L2 & L3 & L4).
    pose proof (for_each_isub_raises col set_col nd_wf nd_ncols
                  L1 L2 L3 L4 l' func new
                  (seq 0 k) (seq (S k) (nd_ncols z - S k)) k e
                  (<[l' := z]> h) z line Hnd) as Hraise.
    assert (Hsh : py_index [length (nd_rows z); nd_ncols z] axis
                  = Ok (nd_ncols z)) by (by destruct Hax as [-> | ->]).
    assert (Hg : line_get axis = col) by (by destruct Hax as [-> | ->]).
    assert (Hs' : line_set axis = set_col) by (by destruct Hax as [-> | ->]).
    rewrite Hsh, Hg, Hs'. fold l'. rewrite (seq_split k _ Hk).
    assert (Hr : ∀ i, i ∈ seq 0 k → (i < k)%nat).
    { intros i Hi%elem_of_seq. lia. }
    specialize (Hraise (λ i Hi, Nat.lt_trans _ _ _ (Hr i Hi) Hk) Hwf Hl'
                  (λ i r Hi, Hfun i r (Hr i Hi)) Hcol Hfail).
    destruct (for_each _ _ _) as [[[]|e'] h1]; simpl in *;
      [discriminate | congruence].
Qed.

(** X3: An array without lines along the axis comes back as an equal
    copy, and the function is never called: no rows with [axis = 0], no
    columns with [axis = 1] or [-1]. *)
Theorem subtract_line_by_line_no_lines
    (h : heap) (zdata : loc) (z : ndarray) (func : list num → res value) :
  h !! zdata = Some z →
  (nd_rows z = [] →
   subtract_line_by_line zdata 0 func h
   = (Ok (fresh (dom h)), <[fresh (dom h) := z]> h))
  ∧ (∀ axis : Z, axis = 1 ∨ axis = -1 → nd_ncols z = 0%nat →
     subtract_line_by_line zdata axis func h
     = (Ok (fresh (dom h)), <[fresh (dom h) := z]> h)).
Proof.
  intros Hl. split.
  - intros Hrows.
    destruct (subtract_line_by_line_run h zdata z 0 func Hl) as [_ ->].
    by rewrite Hrows.
  - intros axis Hax Hcols.
    destruct (subtract_line_by_line_run h zdata z axis func Hl) as [_ ->].
    assert (Hsh : py_index [length (nd_rows z); nd_ncols z] axis
                  = Ok (nd_ncols z)) by (by destruct Hax as [-> | ->]).
    by rewrite Hsh, Hcols.
Qed.

(** ** [subtract_background] *)

Lemma call_on_run (f : loc → M loc) (z z' : ndarray) :
  (∀ (h : heap) l, h !! l = Some z →
     ∃ l', f l h = (Ok l', <[l' := z']> h)) →
  call_on f z = Ok z'.
Proof.
  intros Hf. unfold call_on. rewrite M_bind_run. unfold alloc.
  cbv zeta. set (l0 := fresh (dom (∅ : heap))).
  destruct (Hf (<[l0 := z]> ∅) l0) as [l' Hrun]; [apply lookup_insert_eq|].
  rewrite M_bind_run, Hrun. unfold deref.
  by rewrite lookup_insert_eq.
Qed.

Lemma py_index_out_of_range {A : Type} (t : list A) (k : Z) :
  k < - Z.of_nat (length t) ∨ Z.of_nat (length t) ≤ k →
  py_index t k = Raise IndexError.
Proof.
  intros Hk. unfold py_index.
  destruct (Z.ltb_spec k 0).
  - destruct (Z.ltb_spec (k + Z.of_nat (length t)) 0); [done | lia].
  - destruct (Z.ltb_spec k 0); [lia|].
    destruct (Z.leb_spec (Z.of_nat (length t)) k); [done | lia].
Qed.

Lemma py_index_negative {A : Type} (t : list A) (k : Z) :
  - Z.of_nat (length t) ≤ k < 0 →
  py_index t k = py_index t (k + Z.of_nat (length t)).
Proof.
  intros Hk. unfold py_index. cbv zeta.
  assert (E1 : (k <? 0) = true) by (apply Z.ltb_lt; lia).
  assert (E2 : (k + Z.of_nat (length t) <? 0) = false)
    by (apply Z.ltb_ge; lia).
  rewrite E1. cbv iota. rewrite !E2. cbv iota. rewrite ?E2. reflexivity.
Qed.

Lemma sub_0_fmap (l : list num) : (λ a, nsub a (Fin 0%Qc)) <$> l = l.
Proof.
  induction l as [|a l IH]; [done|]. rewrite fmap_cons, IH.
  by rewrite nsub_0_r.
Qed.

Lemma nd_map_sub_0 z : nd_map (λ a, nsub a (Fin 0%Qc)) z = z.
Proof.
  destruct z as [rows m]. unfold nd_map. cbn [nd_rows nd_ncols]. f_equal.
  induction rows as [|r rows IH]; [done|].
  by rewrite fmap_cons, IH, sub_0_fmap.
Qed.

(** Two arrays of one shape with the same rows are equal. *)
Lemma nd_ext_rows (z z' : ndarray) :
  nd_shape z' = nd_shape z →
  (∀ i r, row z i = Ok r → row z' i = Ok r) → z' = z.
Proof.
  destruct z as [rows m], z' as [rows' m']. unfold nd_shape.
  cbn [nd_rows nd_ncols]. intros [= Hn ->] Hrow. f_equal.
  apply list_eq. intros i.
  destruct (rows !! i) as [r|] eqn:Hr.
  - apply (row_Ok (mk_ndarray rows' m) i r), Hrow, row_Ok. exact Hr.
  - apply lookup_ge_None. apply lookup_ge_None in Hr. lia.
Qed.

(** Two well-formed arrays of one shape with the same columns are
    equal. *)
Lemma nd_ext_cols (z z' : ndarray) :
  nd_wf z → nd_wf z' → nd_shape z' = nd_shape z →
  (∀ j c, col z j = Ok c → col z' j = Ok c) → z' = z.
Proof.
  intros Hwf Hwf' Hs Hcol. apply nd_ext_rows; [done|].
  intros i r Hr%row_Ok. apply row_Ok.
  injection Hs as Hn Hm.
  destruct (lookup_lt_is_Some_2 (nd_rows z') i) as [r' Hr'].
  { apply lookup_lt_Some in Hr. lia. }
  rewrite Hr'. f_equal.
  assert (Hlr : length r = nd_ncols z).
  { unfold nd_wf in Hwf. rewrite Forall_lookup in Hwf. by eapply Hwf. }
  assert (Hlr' : length r' = nd_ncols z').
  { unfold nd_wf in Hwf'. rewrite Forall_lookup in Hwf'. by eapply Hwf'. }
  apply list_eq. intros j.
  destruct (decide (j < nd_ncols z)%nat) as [Hj|Hj].
  - destruct (col_ok z j Hwf Hj) as [c Hc].
    pose proof (Hcol j c Hc) as Hc'.
    apply col_Ok in Hc as [_ Hc]. apply col_Ok in Hc' as [_ Hc'].
    destruct (Forall2_lookup_l _ _ _ _ _ Hc Hr) as (a & Ha & Hra).
    destruct (Forall2_lookup_l _ _ _ _ _ Hc' Hr') as (a' & Ha' & Hra').
    simpl in Hra, Hra'. congruence.
  - rewrite (proj2 (lookup_ge_None r j)) by lia.
    rewrite (proj2 (lookup_ge_None r' j)) by lia. done.
Qed.

(** X4: With the reduction "none" (index 0) the data handed to
    [plot_arrays] are the current data, unchanged, in each mode: 1D
    data, 2D data in global mode, and 2D data line by line along the
    rows, or along the columns of a well-formed array. *)
Theorem subtract_background_none_is_identity
    (lstsq : list (list num) → list num → res (list num))
    (w : widget) (cd : plot_data) (idx : idx_arg) :
  current_data w = Some cd →
  selected_idx w idx = 0 →
  (cd_zs cd = None ∨ line_backsub_btn w = false ∨ line_backsub_radio w = 0
   ∨ (line_backsub_radio w = 1
      ∧ ∀ zs, cd_zs cd = Some zs → nd_wf (magnitude (array zs)))) →
  subtract_background lstsq w idx
  = Ok (Some (mk_plot_call (cd_xs cd) (cd_ys cd) (cd_zs cd) (fig_title w))).
Proof.
  intros Hcd Hidx Hmode. unfold subtract_background. rewrite Hcd, Hidx.
  destruct cd as [xs [yn [ym yu]] zs]. cbn [cd_xs cd_ys cd_zs] in *.
  assert (F1 : ∀ x, py_index (global_funcs1 x) 0
                    = Ok (λ _ : list num, Ok (Scalar (Fin 0%Qc))))
    by reflexivity.
  assert (F2 : ∀ x y, py_index (global_funcs2 lstsq x y) 0
                      = Ok (λ _ : ndarray, Ok (Scalar2 (Fin 0%Qc))))
    by reflexivity.
  assert (F3 : ∀ x, py_index (line_funcs x) 0
                    = Ok (λ _ : list num, Ok (Scalar (Fin 0%Qc))))
    by reflexivity.
  destruct zs as [[zn [zm zu]]|].
  2: { rewrite F1. cbn [mbind res_bind bsub1 name array magnitude units].
       rewrite sub_0_fmap. by destruct (line_backsub_btn w). }
  destruct (line_backsub_btn w) eqn:Hbtn.
  2: { rewrite F2. cbn [mbind res_bind bsub2 name array magnitude units].
       by rewrite nd_map_sub_0. }
  rewrite F3. cbn [mbind res_bind name array magnitude units].
  destruct Hmode as [?|[?|Hax]]; [done | done |].
  assert (Hcall : call_on
            (λ l, subtract_line_by_line l (line_backsub_radio w)
                    (λ _, Ok (Scalar (Fin 0%Qc)))) zm = Ok zm).
  { apply call_on_run. intros h l Hl.
    destruct (subtract_line_by_line_run h l zm (line_backsub_radio w)
                (λ _, Ok (Scalar (Fin 0%Qc))) Hl) as [_ ->].
    exists (fresh (dom h)).
    set (l' := fresh (dom h)).
    assert (Hl' : <[l' := zm]> h !! l' = Some zm) by apply lookup_insert_eq.
    destruct Hax as [Hax|[Hax Hwf]]; rewrite Hax.
    - destruct (rows_loop l' (λ _, Fin 0%Qc) (<[l' := zm]> h) zm Hl')
        as (z' & Hrun & Hs & Hrows).
      unfold for_range, isub_row in Hrun.
      change (py_index [length (nd_rows zm); nd_ncols zm] 0)
        with (Ok (length (nd_rows zm)) : res nat).
      change (line_get 0) with row. change (line_set 0) with set_row.
      cbv beta iota. rewrite Hrun, insert_insert_eq.
      replace z' with zm; [done|]. symmetry. apply nd_ext_rows; [done|].
      intros i r Hr. rewrite (Hrows i r Hr). by rewrite sub_0_fmap.
    - specialize (Hwf _ eq_refl). cbn in Hwf.
      destruct cols_laws as (L1 & L2 & L3 & L4).
      destruct (for_each_isub_scalar col set_col nd_wf nd_ncols
                  L1 L2 L3 L4 l' (λ _, Fin 0%Qc) (seq 0 (nd_ncols zm))
                  (<[l' := zm]> h) zm)
        as (z' & Hrun & Hwf' & _ & Hs & Hget); try done.
      { apply NoDup_seq. }
      { intros k Hk%elem_of_seq. lia. }
      change (py_index [length (nd_rows zm); nd_ncols zm] 1)
        with (Ok (nd_ncols zm) : res nat).
      change (line_get 1) with col. change (line_set 1) with set_col.
      cbv beta iota. rewrite Hrun, insert_insert_eq.
      replace z' with zm; [done|]. symmetry.
      apply nd_ext_cols; [done | done | done |].
      intros j c Hc. rewrite (Hget j c Hc).
      destruct (decide _); by rewrite ?sub_0_fmap. }
  rewrite Hcall. reflexivity.
Qed.

(** X5: Whatever the reduction and the mode, background subtraction
    hands the coordinates and the title on as they are, changes neither
    the name nor the unit of the array it subtracts from, and in 2D
    leaves the second coordinate alone and keeps a 2D array. *)
Theorem subtract_background_frame
    (lstsq : list (list num) → list num → res (list num))
    (w : widget) (cd : plot_data) (idx : idx_arg) (pc : plot_call) :
  current_data w = Some cd →
  subtract_background lstsq w idx = Ok (Some pc) →
  pc_xs pc = cd_xs cd
  ∧ pc_title pc = fig_title w
  ∧ match cd_zs cd with
    | None =>
        pc_zs pc = None
        ∧ name (pc_ys pc) = name (cd_ys cd)
        ∧ units (array (pc_ys pc)) = units (array (cd_ys cd))
    | Some zs =>
        pc_ys pc = cd_ys cd
        ∧ ∃ zs', pc_zs pc = Some zs' ∧ name zs' = name zs
                 ∧ units (array zs') = units (array zs)
    end.
Proof.
  intros Hcd Hrun. unfold subtract_background in Hrun. rewrite Hcd in Hrun.
  destruct (cd_zs cd) as [zs|].
  - destruct (line_backsub_btn w).
    + destruct (py_index _ _) as [func|e]; [|discriminate].
      cbn [mbind res_bind] in Hrun.
      destruct (call_on _ _) as [z|e]; [|discriminate].
      cbn [mbind res_bind] in Hrun. injection Hrun as <-. cbn. eauto 10.
    + destruct (py_index _ _) as [func|e]; [|discriminate].
      cbn [mbind res_bind] in Hrun.
      destruct (func _) as [v|e]; [|discriminate].
      cbn [mbind res_bind] in Hrun.
      destruct (bsub2 _ _) as [z|e]; [|discriminate].
      cbn [mbind res_bind] in Hrun. injection Hrun as <-. cbn. eauto 10.
  - assert (Hrun' :
      (func ← py_index (global_funcs1 (magnitude (array (cd_xs cd))))
                (selected_idx w idx);
       v ← func (magnitude (array (cd_ys cd)));
       y' ← bsub1 (magnitude (array (cd_ys cd))) v;
       Ok (Some (mk_plot_call (cd_xs cd)
                   (mk_item (name (cd_ys cd))
                      (mk_quantity y' (units (array (cd_ys cd)))))
                   None (fig_title w)))) = Ok (Some pc)).
    { by destruct (line_backsub_btn w). }
    clear Hrun.
    destruct (py_index _ _) as [func|e]; [|discriminate].
    cbn [mbind res_bind] in Hrun'.
    destruct (func _) as [v|e]; [|discriminate].
    cbn [mbind res_bind] in Hrun'.
    destruct (bsub1 _ _) as [y'|e]; [|discriminate].
    cbn [mbind res_bind] in Hrun'. injection Hrun' as <-. cbn. eauto 10.
Qed.

(** X6: An index of the reduction outside -6 .. 5 raises [IndexError] in
    every mode, before any data is touched. *)
Theorem subtract_background_index_error
    (lstsq : list (list num) → list num → res (list num))
    (w : widget) (cd : plot_data) (idx : idx_arg) :
  current_data w = Some cd →
  selected_idx w idx < -6 ∨ 6 ≤ selected_idx w idx →
  subtract_background lstsq w idx = Raise IndexError.
Proof.
  intros Hcd Hk. unfold subtract_background. rewrite Hcd.
  assert (E1 : ∀ x, py_index (line_funcs x) (selected_idx w idx)
                    = Raise IndexError).
  { intros x. apply py_index_out_of_range. simpl. lia. }
  assert (E2 : ∀ x, py_index (global_funcs1 x) (selected_idx w idx)
                    = Raise IndexError).
  { intros x. apply py_index_out_of_range. simpl. lia. }
  assert (E3 : ∀ x y, py_index (global_funcs2 lstsq x y) (selected_idx w idx)
                      = Raise IndexError).
  { intros x y. apply py_index_out_of_range. simpl. lia. }
  destruct (line_backsub_btn w), (cd_zs cd); by rewrite ?E1, ?E2, ?E3.
Qed.


(** ** Order and arithmetic of finite entries *)

Lemma Qc_eq_Qeq (x y : Qc) : x = y → (this x == this y)%Q.
Proof. by intros ->. Qed.

Lemma Qc_neq_Qeq (x y : Qc) : x ≠ y → ¬ (this x == this y)%Q.
Proof. intros H E. by apply H, Qc_is_canon. Qed.

(** Linear arithmetic over [Qc], through [Q]. *)
Ltac qc_lra :=
  repeat match goal with
  | H : @eq Qc _ _ |- _ => apply Qc_eq_Qeq in H
  | H : ¬ @eq Qc _ _ |- _ => apply Qc_neq_Qeq in H
  | |- @eq Qc _ _ => apply Qc_is_canon
  end;
  unfold Qcle, Qclt, Qcminus, Qcplus, Qcopp, Qcmult, Q2Qc in *;
  cbn [this] in *;
  repeat match goal with
  | H : context [Qred ?x] |- _ => setoid_rewrite (Qred_correct x) in H
  | |- context [Qred ?x] => setoid_rewrite (Qred_correct x)
  end;
  lra.

Lemma nle_fin (a b : Qc) : nle (Fin a) (Fin b) = true ↔ (a <= b)%Qc.
Proof.
  unfold nle. rewrite Qcle_alt.
  destruct (a ?= b)%Qc; split; intros; congruence.
Qed.

Lemma nle_fin_false (a b : Qc) : nle (Fin a) (Fin b) = false ↔ (b < a)%Qc.
Proof.
  unfold nle. destruct (a ?= b)%Qc eqn:E.
  - split; [discriminate|]. intros H. apply (Qcgt_alt a b) in H. congruence.
  - split; [discriminate|]. intros H. apply (Qcgt_alt a b) in H. congruence.
  - split; [intros _ | done]. by apply (Qcgt_alt a b).
Qed.

Lemma ndiv_fin (a b : Qc) : b ≠ 0%Qc → ndiv (Fin a) (Fin b) = Fin (a / b)%Qc.
Proof.
  intros Hb. unfold ndiv. destruct (b ?= 0)%Qc eqn:E; try reflexivity.
  by apply Qceq_alt in E.
Qed.

(** The NaN-ignoring minimum of finite entries is one of them and is
    below all of them. *)
Lemma foldl_fmin_fin (l : list Qc) (a : Qc) :
  ∃ m, foldl fmin (Fin a) (Fin <$> l) = Fin m
    ∧ m ∈ a :: l ∧ ∀ x, x ∈ a :: l → (m <= x)%Qc.
Proof.
  revert a. induction l as [|b l IH]; intros a.
  - exists a. split; [done|]. split; [left|].
    intros x ->%list_elem_of_singleton. apply Qcle_refl.
  - rewrite fmap_cons.
    change (foldl fmin (Fin a) (Fin b :: (Fin <$> l)))
      with (foldl fmin (fmin (Fin a) (Fin b)) (Fin <$> l)).
    unfold fmin at 2. cbn [isnan].
    destruct (nle (Fin a) (Fin b)) eqn:E.
    + apply nle_fin in E. destruct (IH a) as (m & -> & Hin & Hle).
      exists m. split; [done|]. split.
      * apply elem_of_cons in Hin as [->|Hin]; [left | right; by right].
      * intros x [->|[->|Hx]%elem_of_cons]%elem_of_cons.
        -- apply Hle. left.
        -- apply Qcle_trans with a; [apply Hle; left | done].
        -- apply Hle. by right.
    + apply nle_fin_false in E. destruct (IH b) as (m & -> & Hin & Hle).
      exists m. split; [done|]. split; [by right|].
      intros x [->|Hx]%elem_of_cons; [|by apply Hle].
      apply Qcle_trans with b; [apply Hle; left | by apply Qclt_le_weak].
Qed.

Lemma foldl_fmax_fin (l : list Qc) (a : Qc) :
  ∃ m, foldl fmax (Fin a) (Fin <$> l) = Fin m
    ∧ m ∈ a :: l ∧ ∀ x, x ∈ a :: l → (x <= m)%Qc.
Proof.
  revert a. induction l as [|b l IH]; intros a.
  - exists a. split; [done|]. split; [left|].
    intros x ->%list_elem_of_singleton. apply Qcle_refl.
  - rewrite fmap_cons.
    change (foldl fmax (Fin a) (Fin b :: (Fin <$> l)))
      with (foldl fmax (fmax (Fin a) (Fin b)) (Fin <$> l)).
    unfold fmax at 2. cbn [isnan].
    destruct (nle (Fin a) (Fin b)) eqn:E.
    + apply nle_fin in E. destruct (IH b) as (m & -> & Hin & Hle).
      exists m. split; [done|]. split; [by right|].
      intros x [->|Hx]%elem_of_cons; [|by apply Hle].
      apply Qcle_trans with b; [done | apply Hle; left].
    + apply nle_fin_false in E. destruct (IH a) as (m & -> & Hin & Hle).
      exists m. split; [done|]. split.
      * apply elem_of_cons in Hin as [->|Hin]; [left | right; by right].
      * intros x [->|[->|Hx]%elem_of_cons]%elem_of_cons.
        -- apply Hle. left.
        -- apply Qcle_trans with a;
             [by apply Qclt_le_weak | apply Hle; left].
        -- apply Hle. by right.
Qed.

Lemma nanmin_fin (l : list Qc) :
  l ≠ [] → ∃ m, nanmin (Fin <$> l) = Ok (Fin m)
              ∧ m ∈ l ∧ ∀ x, x ∈ l → (m <= x)%Qc.
Proof.
  destruct l as [|a l]; [done|]. intros _.
  destruct (foldl_fmin_fin l a) as (m & Hm & Hin & Hle).
  exists m. split; [|done]. rewrite fmap_cons. cbn [nanmin]. by rewrite Hm.
Qed.

Lemma nanmax_fin (l : list Qc) :
  l ≠ [] → ∃ m, nanmax (Fin <$> l) = Ok (Fin m)
              ∧ m ∈ l ∧ ∀ x, x ∈ l → (x <= m)%Qc.
Proof.
  destruct l as [|a l]; [done|]. intros _.
  destruct (foldl_fmax_fin l a) as (m & Hm & Hin & Hle).
  exists m. split; [|done]. rewrite fmap_cons. cbn [nanmax]. by rewrite Hm.
Qed.

(** After the minimum of finite entries is subtracted, no entry is
    negative and one is zero; after the maximum, none is positive and
    one is zero. *)
Lemma min_subtracted (l : list num) :
  l ≠ [] → Forall (λ a, isfinite a = true) l →
  ∃ m, nanmin l = Ok m
    ∧ Forall (λ a, nle (Fin 0%Qc) a = true) ((λ a, nsub a m) <$> l)
    ∧ Fin 0%Qc ∈ (λ a, nsub a m) <$> l.
Proof.
  intros Hne Hfin. destruct (finite_list l Hfin) as [qs ->].
  assert (Hq : qs ≠ []) by (intros ->; done).
  destruct (nanmin_fin qs Hq) as (m & Hm & Hin & Hle).
  exists (Fin m). split; [done|]. split.
  - rewrite Forall_fmap, Forall_fmap. apply Forall_forall.
    intros x Hx. cbn. apply nle_fin. specialize (Hle x Hx). qc_lra.
  - apply list_elem_of_fmap. exists (Fin m). split.
    + cbn. f_equal. qc_lra.
    + apply list_elem_of_fmap. eauto.
Qed.

Lemma max_subtracted (l : list num) :
  l ≠ [] → Forall (λ a, isfinite a = true) l →
  ∃ m, nanmax l = Ok m
    ∧ Forall (λ a, nle a (Fin 0%Qc) = true) ((λ a, nsub a m) <$> l)
    ∧ Fin 0%Qc ∈ (λ a, nsub a m) <$> l.
Proof.
  intros Hne Hfin. destruct (finite_list l Hfin) as [qs ->].
  assert (Hq : qs ≠ []) by (intros ->; done).
  destruct (nanmax_fin qs Hq) as (m & Hm & Hin & Hle).
  exists (Fin m). split; [done|]. split.
  - rewrite Forall_fmap, Forall_fmap. apply Forall_forall.
    intros x Hx. cbn. apply nle_fin. specialize (Hle x Hx). qc_lra.
  - apply list_elem_of_fmap. exists (Fin m). split.
    + cbn. f_equal. qc_lra.
    + apply list_elem_of_fmap. eauto.
Qed.

Lemma mean_subtracted_fixed (l : list num) :
  l ≠ [] → Forall (λ a, isfinite a = true) l →
  let l' := (λ a, nsub a (nanmean l)) <$> l in
  (λ a, nsub a (nanmean l')) <$> l' = l'.
Proof.
  intros Hne Hfin l'.
  pose proof (mean_subtracted_sum l Hne Hfin) as Hsum. fold l' in Hsum.
  destruct (finite_list l Hfin) as [qs ->].
  assert (Hq : qs ≠ []) by (intros ->; done).
  assert (Hl' : l' = Fin <$> ((λ q, q - qsum qs / qn (length qs))%Qc <$> qs)).
  { unfold l'. rewrite nanmean_fin by done.
    by rewrite <- !list_fmap_compose. }
  rewrite Hl' in Hsum |- *. rewrite nsum_fin in Hsum.
  injection Hsum as Hsum.
  rewrite nanmean_fin by (by destruct qs).
  rewrite Hsum.
  replace (0 / qn (length ((λ q, q - qsum qs / qn (length qs)) <$> qs)))%Qc
    with 0%Qc by (unfold Qcdiv; ring).
  apply sub_0_fmap.
Qed.

Lemma elem_of_concat_2 {A : Type} (a : A) (r : list A) (rows : list (list A)) :
  a ∈ r → r ∈ rows → a ∈ concat rows.
Proof.
  intros Ha Hr. induction Hr as [r rows|r r' rows _ IH]; cbn [concat].
  - apply elem_of_app. by left.
  - apply elem_of_app. right. by apply IH.
Qed.

Lemma nd_map_ext_in (f g : num → num) z :
  (∀ a, a ∈ ravel z → f a = g a) → nd_map f z = nd_map g z.
Proof.
  intros H. destruct z as [rows m]. unfold nd_map, ravel in *.
  cbn [nd_rows nd_ncols] in *. f_equal.
  apply list_fmap_ext. intros k r Hr. cbn.
  apply list_fmap_ext. intros j a Ha. cbn. apply H.
  apply (elem_of_concat_2 a r rows); by eapply list_elem_of_lookup_2.
Qed.

Lemma nd_map_nd_map (f g : num → num) z :
  nd_map f (nd_map g z) = nd_map (f ∘ g) z.
Proof.
  destruct z as [rows m]. unfold nd_map. cbn [nd_rows nd_ncols]. f_equal.
  rewrite <- list_fmap_compose. apply list_fmap_ext. intros k r _. cbn.
  by rewrite <- list_fmap_compose.
Qed.

Lemma nd_mean_subtracted_fixed (z : ndarray) :
  ravel z ≠ [] → Forall (λ a, isfinite a = true) (ravel z) →
  let z' := nd_map (λ a, nsub a (nanmean (ravel z))) z in
  nd_map (λ a, nsub a (nanmean (ravel z'))) z' = z'.
Proof.
  intros Hne Hfin z'. unfold z'. rewrite ravel_nd_map, nd_map_nd_map.
  pose proof (mean_subtracted_fixed _ Hne Hfin) as Hfix. cbv zeta in Hfix.
  apply nd_map_ext_in. intros a Ha. cbn.
  apply list_elem_of_lookup in Ha as [k Hk].
  apply (f_equal (λ l, l !! k)) in Hfix.
  rewrite !list_lookup_fmap, Hk in Hfix. cbn in Hfix. congruence.
Qed.

(** What the call does with a scalar reduction that cannot fail, in
    the two global modes. *)
Lemma subtract_background_global_1d
    (lstsq : list (list num) → list num → res (list num))
    (w : widget) (cd : plot_data) (idx : idx_arg) (f : list num → res num) :
  current_data w = Some cd → cd_zs cd = None →
  py_index (global_funcs1 (magnitude (array (cd_xs cd)))) (selected_idx w idx)
  = Ok (λ l, Scalar <$> f l) →
  subtract_background lstsq w idx
  = (m ← f (magnitude (array (cd_ys cd)));
     Ok (Some (mk_plot_call (cd_xs cd)
           (mk_item (name (cd_ys cd))
              (mk_quantity ((λ a, nsub a m) <$> magnitude (array (cd_ys cd)))
                 (units (array (cd_ys cd)))))
           None (fig_title w)))).
Proof.
  intros Hcd Hz Hf. unfold subtract_background. rewrite Hcd, Hz, Hf.
  cbn [mbind res_bind].
  destruct (f _) as [m|e]; destruct (line_backsub_btn w); reflexivity.
Qed.

Lemma subtract_background_global_2d
    (lstsq : list (list num) → list num → res (list num))
    (w : widget) (cd : plot_data) (zs : DataItem ndarray) (idx : idx_arg)
    (f : list num → res num) :
  current_data w = Some cd → cd_zs cd = Some zs →
  line_backsub_btn w = false →
  py_index (global_funcs2 lstsq (magnitude (array (cd_xs cd)))
              (magnitude (array (cd_ys cd)))) (selected_idx w idx)
  = Ok (λ z, Scalar2 <$> f (ravel z)) →
  subtract_background lstsq w idx
  = (m ← f (ravel (magnitude (array zs)));
     Ok (Some (mk_plot_call (cd_xs cd) (cd_ys cd)
           (Some (mk_item (name zs)
              (mk_quantity (nd_map (λ a, nsub a m) (magnitude (array zs)))
                 (units (array zs)))))
           (fig_title w)))).
Proof.
  intros Hcd Hz Hbtn Hf. unfold subtract_background.
  rewrite Hcd, Hz, Hbtn, Hf. cbn [mbind res_bind].
  by destruct (f _) as [m|e].
Qed.

(** X8: Over exact arithmetic, subtracting the mean a second time
    changes nothing: on finite, non-empty data, reduction 3 applied to
    what reduction 3 handed to [plot_arrays] hands on the same data,
    for 1D data and for 2D data in global mode. *)
Theorem mean_subtraction_idempotent
    (lstsq : list (list num) → list num → res (list num))
    (w : widget) (cd : plot_data) :
  current_data w = Some cd →
  (cd_zs cd = None ∨ line_backsub_btn w = false) →
  match cd_zs cd with
  | None => magnitude (array (cd_ys cd))
  | Some zs => ravel (magnitude (array zs))
  end ≠ [] →
  Forall (λ a, isfinite a = true)
    match cd_zs cd with
    | None => magnitude (array (cd_ys cd))
    | Some zs => ravel (magnitude (array zs))
    end →
  ∃ pc, subtract_background lstsq w (IdxInt 3) = Ok (Some pc)
    ∧ subtract_background lstsq
        (set_current w (fig_title w)
           (mk_plot_data (pc_xs pc) (pc_ys pc) (pc_zs pc))) (IdxInt 3)
      = Ok (Some pc).
Proof.
  intros Hcd Hmode Hne Hfin.
  destruct (cd_zs cd) as [zs|] eqn:Hz.
  - destruct Hmode as [?|Hbtn]; [done|].
    rewrite (subtract_background_global_2d lstsq w cd zs (IdxInt 3)
               (λ l, Ok (nanmean l)) Hcd Hz Hbtn eq_refl).
    cbn [mbind res_bind]. eexists. split; [reflexivity|].
    erewrite (subtract_background_global_2d lstsq _ _ _ (IdxInt 3)
                (λ l, Ok (nanmean l)));
      [|reflexivity | reflexivity | exact Hbtn | reflexivity].
    cbn [mbind res_bind pc_xs pc_ys pc_zs cd_xs cd_ys name array magnitude
         units fig_title set_current].
    pose proof (nd_mean_subtracted_fixed _ Hne Hfin) as Hfix.
    cbv zeta in Hfix. by rewrite Hfix.
  - rewrite (subtract_background_global_1d lstsq w cd (IdxInt 3)
               (λ l, Ok (nanmean l)) Hcd Hz eq_refl).
    cbn [mbind res_bind]. eexists. split; [reflexivity|].
    erewrite (subtract_background_global_1d lstsq _ _ (IdxInt 3)
                (λ l, Ok (nanmean l)));
      [|reflexivity | reflexivity | reflexivity].
    cbn [mbind res_bind pc_xs pc_ys pc_zs cd_xs cd_ys name array magnitude
         units fig_title set_current].
    pose proof (mean_subtracted_fixed _ Hne Hfin) as Hfix.
    cbv zeta in Hfix. by rewrite Hfix.
Qed.

(** X9: After reduction 1 (min) on finite, non-empty data no entry
    handed to [plot_arrays] is negative and one is zero; after reduction
    2 (max) none is positive and one is zero. For 1D data and for 2D
    data in global mode. *)
Theorem min_max_subtraction_sign
    (lstsq : list (list num) → list num → res (list num))
    (w : widget) (cd : plot_data) :
  current_data w = Some cd →
  (cd_zs cd = None ∨ line_backsub_btn w = false) →
  match cd_zs cd with
  | None => magnitude (array (cd_ys cd))
  | Some zs => ravel (magnitude (array zs))
  end ≠ [] →
  Forall (λ a, isfinite a = true)
    match cd_zs cd with
    | None => magnitude (array (cd_ys cd))
    | Some zs => ravel (magnitude (array zs))
    end →
  let data (pc : plot_call) :=
    match pc_zs pc with
    | None => magnitude (array (pc_ys pc))
    | Some zs => ravel (magnitude (array zs))
    end in
  (∃ pc, subtract_background lstsq w (IdxInt 1) = Ok (Some pc)
     ∧ Forall (λ a, nle (Fin 0%Qc) a = true) (data pc)
     ∧ Fin 0%Qc ∈ data pc)
  ∧ (∃ pc, subtract_background lstsq w (IdxInt 2) = Ok (Some pc)
     ∧ Forall (λ a, nle a (Fin 0%Qc) = true) (data pc)
     ∧ Fin 0%Qc ∈ data pc).
Proof.
  intros Hcd Hmode Hne Hfin data.
  destruct (cd_zs cd) as [zs|] eqn:Hz.
  - destruct Hmode as [?|Hbtn]; [done|].
    destruct (min_subtracted _ Hne Hfin) as (lo & Hlo & Hlo1 & Hlo2).
    destruct (max_subtracted _ Hne Hfin) as (hi & Hhi & Hhi1 & Hhi2).
    split.
    + rewrite (subtract_background_global_2d lstsq w cd zs (IdxInt 1)
                 nanmin Hcd Hz Hbtn eq_refl), Hlo.
      eexists. split; [reflexivity|]. unfold data.
      cbn [pc_zs pc_ys name array magnitude units]. by rewrite ravel_nd_map.
    + rewrite (subtract_background_global_2d lstsq w cd zs (IdxInt 2)
                 nanmax Hcd Hz Hbtn eq_refl), Hhi.
      eexists. split; [reflexivity|]. unfold data.
      cbn [pc_zs pc_ys name array magnitude units]. by rewrite ravel_nd_map.
  - destruct (min_subtracted _ Hne Hfin) as (lo & Hlo & Hlo1 & Hlo2).
    destruct (max_subtracted _ Hne Hfin) as (hi & Hhi & Hhi1 & Hhi2).
    split.
    + rewrite (subtract_background_global_1d lstsq w cd (IdxInt 1)
                 nanmin Hcd Hz eq_refl), Hlo.
      eexists. split; [reflexivity|]. done.
    + rewrite (subtract_background_global_1d lstsq w cd (IdxInt 2)
                 nanmax Hcd Hz eq_refl), Hhi.
      eexists. split; [reflexivity|]. done.
Qed.

(** ** The line fit on data that lie on a line *)

Lemma zip_with_nmul_fin (xs ys : list Qc) :
  zip_with nmul (Fin <$> xs) (Fin <$> ys) = Fin <$> zip_with Qcmult xs ys.
Proof.
  revert ys. induction xs as [|x xs IH]; intros [|y ys]; try reflexivity.
  rewrite !fmap_cons. cbn [zip_with]. rewrite IH. reflexivity.
Qed.

Lemma qsum_affine (a b : Qc) (xs : list Qc) :
  qsum (affine a b <$> xs) = (a * qsum xs + qn (length xs) * b)%Qc.
Proof.
  induction xs as [|x xs IH].
  - simpl. rewrite qn_0. ring.
  - change (qsum (affine a b <$> x :: xs))
      with (affine a b x + qsum (affine a b <$> xs))%Qc.
    change (qsum (x :: xs)) with (x + qsum xs)%Qc.
    change (length (x :: xs)) with (S (length xs)).
    rewrite IH, qn_S. unfold affine. ring.
Qed.

Lemma qsum_mul_affine (a b : Qc) (xs : list Qc) :
  qsum (zip_with Qcmult xs (affine a b <$> xs))
  = (a * qsum (zip_with Qcmult xs xs) + b * qsum xs)%Qc.
Proof.
  induction xs as [|x xs IH].
  - simpl. ring.
  - change (qsum (zip_with Qcmult (x :: xs) (affine a b <$> x :: xs)))
      with (x * affine a b x
            + qsum (zip_with Qcmult xs (affine a b <$> xs)))%Qc.
    change (qsum (zip_with Qcmult (x :: xs) (x :: xs)))
      with (x * x + qsum (zip_with Qcmult xs xs))%Qc.
    change (qsum (x :: xs)) with (x + qsum xs)%Qc.
    rewrite IH. unfold affine. ring.
Qed.

(** On finite points of one line [y = a x + b] whose abscissae are not
    all equal, [fit_line] returns the ordinates. *)
Lemma fit_line_on_a_line (a b : Qc) (xs : list Qc) :
  (qn (length xs) * qsum (zip_with Qcmult xs xs) - qsum xs * qsum xs)%Qc
  ≠ 0%Qc →
  fit_line (Fin <$> xs) (Fin <$> (affine a b <$> xs))
  = Ok (Fin <$> (affine a b <$> xs)).
Proof.
  intros Hd.
  assert (Hn : qn (length xs) ≠ 0%Qc).
  { destruct xs as [|x xs]; [|apply qn_S_neq_0].
    exfalso. apply Hd. simpl. rewrite qn_0. ring. }
  unfold fit_line, polyfit1. rewrite !length_fmap.
  destruct (Nat.eqb_spec (length xs) 0) as [E|_].
  { exfalso. apply Hn. rewrite E. apply qn_0. }
  rewrite Nat.eqb_refl. cbn [negb].
  rewrite !zip_with_nmul_fin, !nsum_fin, num_of_nat_qn.
  rewrite qsum_affine, qsum_mul_affine.
  set (n := qn (length xs)) in *. set (sx := qsum xs) in *.
  set (sxx := qsum (zip_with Qcmult xs xs)) in *.
  cbn [nmul nsub].
  destruct (decide _) as [Heq|_]; [exfalso; apply Hd; congruence|].
  rewrite ndiv_fin by done. cbn [nmul nsub]. rewrite ndiv_fin by done.
  cbn [mbind res_bind]. f_equal.
  rewrite <- !list_fmap_compose. apply list_fmap_ext. intros k x _.
  cbn. unfold affine. f_equal. field. split; done.
Qed.

Lemma zip_with_nsub_self (qs : list Qc) :
  zip_with nsub (Fin <$> qs) (Fin <$> qs) = replicate (length qs) (Fin 0%Qc).
Proof.
  induction qs as [|q qs IH]; [done|].
  rewrite fmap_cons. cbn [zip_with length replicate]. rewrite IH.
  f_equal. cbn. f_equal. ring.
Qed.

(** X10: Over exact arithmetic, with the least-squares line computed
    exactly, reduction 5 (linear) removes a line: 1D data whose points
    lie on a line over abscissae that are not all equal are handed to
    [plot_arrays] as zeros. *)
Theorem linear_subtraction_removes_a_line
    (lstsq : list (list num) → list num → res (list num))
    (w : widget) (cd : plot_data) (a b : Qc) (xs : list Qc) :
  current_data w = Some cd → cd_zs cd = None →
  magnitude (array (cd_xs cd)) = Fin <$> xs →
  magnitude (array (cd_ys cd)) = Fin <$> (affine a b <$> xs) →
  (qn (length xs) * qsum (zip_with Qcmult xs xs) - qsum xs * qsum xs)%Qc
  ≠ 0%Qc →
  ∃ pc, subtract_background lstsq w (IdxInt 5) = Ok (Some pc)
    ∧ magnitude (array (pc_ys pc)) = replicate (length xs) (Fin 0%Qc).
Proof.
  intros Hcd Hz Hx Hy Hd. unfold subtract_background. rewrite Hcd, Hz.
  assert (F : py_index (global_funcs1 (magnitude (array (cd_xs cd))))
                (selected_idx w (IdxInt 5))
              = Ok (λ y, Vector <$> fit_line (magnitude (array (cd_xs cd))) y))
    by reflexivity.
  rewrite F, Hx, Hy. cbn [mbind res_bind].
  rewrite (fit_line_on_a_line a b xs Hd). cbn [fmap res_fmap mbind res_bind].
  unfold bsub1. rewrite Nat.eqb_refl. cbn [mbind res_bind].
  eexists. split; [by destruct (line_backsub_btn w)|].
  cbn [pc_ys array magnitude]. rewrite zip_with_nsub_self.
  by rewrite !length_fmap.
Qed.

(** ** [fit_plane] *)




(** ** Slices: the indices that give one *)

Lemma py_index_in_range {A : Type} (t : list A) (k : Z) :
  - Z.of_nat (length t) ≤ k < Z.of_nat (length t) →
  ∃ a, py_index t k = Ok a
    ∧ t !! Z.to_nat (if k <? 0 then k + Z.of_nat (length t) else k) = Some a.
Proof.
  intros Hk. destruct (Z.ltb_spec k 0).
  - rewrite py_index_negative by lia.
    destruct (py_index_nat t (k + Z.of_nat (length t))) as (a & -> & Ha);
      [lia|]. eauto.
  - destruct (py_index_nat t k) as (a & -> & Ha); [lia|]. eauto.
Qed.

Lemma py_row_in_range z i :
  nd_wf z →
  - Z.of_nat (length (nd_rows z)) ≤ i < Z.of_nat (length (nd_rows z)) →
  ∃ r, py_row z i = Ok r ∧ length r = nd_ncols z.
Proof.
  intros Hwf Hi. unfold py_row.
  destruct (py_index_in_range (nd_rows z) i Hi) as (r & -> & Hr).
  exists r. split; [done|].
  unfold nd_wf in Hwf. rewrite Forall_lookup in Hwf. by eapply Hwf.
Qed.

Lemma py_col_in_range z i :
  nd_wf z → - Z.of_nat (nd_ncols z) ≤ i < Z.of_nat (nd_ncols z) →
  ∃ c, py_col z i = Ok c ∧ length c = length (nd_rows z).
Proof.
  intros Hwf Hi. unfold py_col. cbv zeta.
  set (i' := if i <? 0 then i + Z.of_nat (nd_ncols z) else i).
  assert (Hi' : 0 ≤ i' < Z.of_nat (nd_ncols z))
    by (unfold i'; destruct (Z.ltb_spec i 0); lia).
  destruct (Z.ltb_spec i' 0); [lia|].
  destruct (Z.leb_spec (Z.of_nat (nd_ncols z)) i'); [lia|].
  cbn [orb].
  destruct (col_ok z (Z.to_nat i') Hwf) as [c Hc]; [lia|].
  exists c. split; [done|]. by eapply col_length.
Qed.

Lemma py_col_out_of_range z i :
  i < - Z.of_nat (nd_ncols z) ∨ Z.of_nat (nd_ncols z) ≤ i →
  py_col z i = Raise IndexError.
Proof.
  intros Hi. unfold py_col. cbv zeta.
  set (i' := if i <? 0 then i + Z.of_nat (nd_ncols z) else i).
  assert (Hi' : i' < 0 ∨ Z.of_nat (nd_ncols z) ≤ i')
    by (unfold i'; destruct (Z.ltb_spec i 0); lia).
  destruct (Z.ltb_spec i' 0); [done|].
  destruct (Z.leb_spec (Z.of_nat (nd_ncols z)) i'); [done | lia].
Qed.

Lemma update_in_range
    (rotate : ndarray → num → num → ndarray)
    (st : slice_state) (color_by_value : bool) (xlim ylim : num * num)
    (z : ndarray) (i : Z) :
  nd_wf z → (0 < length (nd_rows z))%nat → (0 < nd_ncols z)%nat →
  - Z.of_nat (match st with
              | SliceX => length (nd_rows z)
              | SliceY => nd_ncols z
              end) ≤ i
  < Z.of_nat (match st with
              | SliceX => length (nd_rows z)
              | SliceY => nd_ncols z
              end) →
  ∃ u line,
    update rotate st color_by_value (Fin 0%Qc) xlim ylim z i = Ok u
    ∧ extract_slice st z i = Ok line
    ∧ su_ydata u = line
    ∧ su_xdata u = match st with
                   | SliceX => linspace xlim.1 xlim.2 (nd_ncols z)
                   | SliceY => linspace ylim.1 ylim.2 (length (nd_rows z))
                   end
    ∧ su_index u = i
    ∧ length (su_xdata u) = length line.
Proof.
  intros Hwf HN HM Hi. unfold update, extract_slice. rewrite truthy_0.
  set (x := linspace xlim.1 xlim.2 (nd_ncols z)).
  set (y := linspace ylim.1 ylim.2 (length (nd_rows z))).
  assert (Hlx : length x = nd_ncols z) by apply length_linspace.
  assert (Hly : length y = length (nd_rows z)) by apply length_linspace.
  assert (Hx : x ≠ []) by (apply nonempty_length; lia).
  assert (Hy : y ≠ []) by (apply nonempty_length; lia).
  destruct (nanmin_ok x Hx) as [xlo Hxlo].
  destruct (nanmax_ok x Hx) as [xhi Hxhi].
  destruct (nanmin_ok y Hy) as [ylo Hylo].
  destruct (nanmax_ok y Hy) as [yhi Hyhi].
  destruct st.
  - destruct (py_row_in_range z i Hwf Hi) as (r & Hr & Hlen).
    assert (Hr0 : r ≠ []) by (apply nonempty_length; lia).
    destruct (nanmin_ok r Hr0) as [lo Hlo].
    destruct (nanmax_ok r Hr0) as [hi Hhi].
    destruct (py_index_in_range y i) as (cut & Hcut & _); [lia|].
    rewrite Hr. cbn [mbind res_bind].
    rewrite Hlo, Hhi, Hxlo, Hxhi, Hcut.
    destruct color_by_value; cbn [mbind res_bind]; rewrite Hlo, Hhi;
      cbn [mbind res_bind]; eexists; exists r; (split; [reflexivity|]);
      cbn [su_index su_xdata su_ydata]; repeat (split; [reflexivity|]); lia.
  - destruct (py_col_in_range z i Hwf Hi) as (c & Hc & Hlen).
    assert (Hc0 : c ≠ []) by (apply nonempty_length; lia).
    destruct (nanmin_ok c Hc0) as [lo Hlo].
    destruct (nanmax_ok c Hc0) as [hi Hhi].
    destruct (py_index_in_range x i) as (cut & Hcut & _); [lia|].
    rewrite Hc. cbn [mbind res_bind].
    rewrite Hlo, Hhi, Hylo, Hyhi, Hcut.
    destruct color_by_value; cbn [mbind res_bind]; rewrite Hlo, Hhi;
      cbn [mbind res_bind]; eexists; exists c; (split; [reflexivity|]);
      cbn [su_index su_xdata su_ydata]; repeat (split; [reflexivity|]); lia.
Qed.

(** X12: The slider of the slice runs over the lines of the array: on an
    array of shape (N, M) with N, M > 0 and no rotation, [update]
    returns for exactly the indices -n <= i < n, where n = N for the
    selector "x" and n = M for "y" (a negative index counts from the
    end), with as many coordinates as values; every other index is an
    IndexError. *)
Theorem update_index_range
    (rotate : ndarray → num → num → ndarray)
    (st : slice_state) (color_by_value : bool) (xlim ylim : num * num)
    (z : ndarray) (i : Z) :
  nd_wf z → (0 < length (nd_rows z))%nat → (0 < nd_ncols z)%nat →
  let n := Z.of_nat (match st with
                     | SliceX => length (nd_rows z)
                     | SliceY => nd_ncols z
                     end) in
  (- n ≤ i < n →
     ∃ u, update rotate st color_by_value (Fin 0%Qc) xlim ylim z i = Ok u
       ∧ su_index u = i
       ∧ length (su_xdata u) = length (su_ydata u))
  ∧ (i < - n ∨ n ≤ i →
     update rotate st color_by_value (Fin 0%Qc) xlim ylim z i
     = Raise IndexError).
Proof.
  intros Hwf HN HM n. split.
  - intros Hi.
    destruct (update_in_range rotate st color_by_value xlim ylim z i
                Hwf HN HM Hi) as (u & line & Hu & _ & Hy & _ & Hidx & Hlen).
    exists u. split; [exact Hu|]. split; [exact Hidx|]. by rewrite Hy.
  - intros Hi. unfold update. rewrite truthy_0.
    destruct st; cbv beta iota zeta delta [n] in Hi.
    + unfold py_row.
      by rewrite (py_index_out_of_range (nd_rows z)) by lia.
    + by rewrite py_col_out_of_range by lia.
Qed.

Lemma first_slice_cases (st : slice_state) (xs ys : list num) (zs : ndarray) :
  match extract_slice st zs 0 with
  | Raise e => first_slice st xs ys zs = Raise e
  | Ok raw =>
      let coords := match st with SliceX => xs | SliceY => ys end in
      (length coords = length raw → ∃ sp, first_slice st xs ys zs = Ok sp)
      ∧ (length coords ≠ length raw →
         first_slice st xs ys zs = Raise IndexError)
  end.
Proof.
  unfold first_slice, extract_slice.
  set (coords := match st with SliceX => xs | SliceY => ys end).
  assert (Hraw :
    match (match st with SliceX => py_row zs 0 | SliceY => py_col zs 0 end)
    with
    | Raise e =>
        match st with
        | SliceX => r ← py_row zs 0; Ok (xs, r)
        | SliceY => c ← py_col zs 0; Ok (ys, c)
        end = Raise e
    | Ok raw =>
        match st with
        | SliceX => r ← py_row zs 0; Ok (xs, r)
        | SliceY => c ← py_col zs 0; Ok (ys, c)
        end = Ok (coords, raw)
    end).
  { unfold coords. destruct st.
    - by destruct (py_row zs 0).
    - by destruct (py_col zs 0). }
  destruct (match st with SliceX => py_row zs 0 | SliceY => py_col zs 0 end)
    as [raw|e]; rewrite Hraw; [|reflexivity].
  cbn [mbind res_bind]. cbv zeta. unfold bool_index.
  rewrite !length_fmap. rewrite Nat.eqb_refl.
  destruct (Nat.eqb_spec (length raw) (length coords)) as [Hl|Hl].
  - split; [intros _ | intros H; by destruct H].
    cbn [mbind res_bind].
    destruct (existsb id (isfinite <$> raw)) eqn:Hany.
    + assert (Hne : compress (isfinite <$> raw) raw ≠ []).
      { apply compress_some; [by rewrite length_fmap | done]. }
      destruct (np_min_ok _ Hne) as [lo ->].
      destruct (np_max_ok _ Hne) as [hi ->].
      cbn [mbind res_bind]. eauto.
    + cbn [mbind res_bind]. eauto.
  - split; [intros H; by destruct Hl | intros _; reflexivity].
Qed.

(** X13: The slice drawn when the figure is built needs coordinates that
    fit the array: on an array of shape (N, M), [first_slice] returns
    exactly when the line at index 0 exists and the coordinate array is
    as long as it (N > 0 and M coordinates for "x"; M > 0 and N
    coordinates for "y"). Whenever it raises, it is an IndexError. *)
Theorem first_slice_returns_iff
    (st : slice_state) (xs ys : list num) (zs : ndarray) :
  nd_wf zs →
  ((∃ sp, first_slice st xs ys zs = Ok sp) ↔
     match st with
     | SliceX => (0 < length (nd_rows zs))%nat ∧ length xs = nd_ncols zs
     | SliceY => (0 < nd_ncols zs)%nat ∧ length ys = length (nd_rows zs)
     end)
  ∧ (∀ e, first_slice st xs ys zs = Raise e → e = IndexError).
Proof.
  intros Hwf. pose proof (first_slice_cases st xs ys zs) as Hc.
  destruct st; unfold extract_slice in Hc.
  - destruct (decide (0 < length (nd_rows zs))%nat) as [HN|HN].
    + destruct (py_row_in_range zs 0 Hwf) as (r & Hr & Hlen); [lia|].
      rewrite Hr in Hc. cbv zeta in Hc. destruct Hc as [Hok Hbad].
      destruct (decide (length xs = length r)) as [Hl|Hl].
      * split; [|intros e He; destruct (Hok Hl) as [sp Hsp]; congruence].
        split; [intros _; split; [done | lia] | intros _; by apply Hok].
      * rewrite (Hbad Hl). split; [|by intros e [= <-]].
        split; [by intros [sp ?] | intros [_ ?]; lia].
    + unfold py_row in Hc. rewrite py_index_out_of_range in Hc by lia.
      rewrite Hc. split; [|by intros e [= <-]].
      split; [by intros [sp ?] | intros [? _]; lia].
  - destruct (decide (0 < nd_ncols zs)%nat) as [HM|HM].
    + destruct (py_col_in_range zs 0 Hwf) as (c & Hcol & Hlen); [lia|].
      rewrite Hcol in Hc. cbv zeta in Hc. destruct Hc as [Hok Hbad].
      destruct (decide (length ys = length c)) as [Hl|Hl].
      * split; [|intros e He; destruct (Hok Hl) as [sp Hsp]; congruence].
        split; [intros _; split; [done | lia] | intros _; by apply Hok].
      * rewrite (Hbad Hl). split; [|by intros e [= <-]].
        split; [by intros [sp ?] | intros [_ ?]; lia].
    + rewrite py_col_out_of_range in Hc by lia.
      rewrite Hc. split; [|by intros e [= <-]].
      split; [by intros [sp ?] | intros [? _]; lia].
Qed.

(** X14: The three-point segments of the coloured line: a polyline of n
    points gives n - 2 of them, and the k-th is made of the points k, k
    + 1 and k + 2. *)
Theorem segments_of_a_polyline (p : list (num * num)) :
  length (segments p) = (length p - 2)%nat
  ∧ (∀ k a b c, p !! k = Some a → p !! (k + 1)%nat = Some b →
       p !! (k + 2)%nat = Some c → segments p !! k = Some [a; b; c]).
Proof.
  unfold segments. split.
  - rewrite length_zip_with, length_zip, !length_drop, !length_take. lia.
  - intros k a b c Ha Hb Hc.
    assert (Hk : (k + 2 < length p)%nat) by (by eapply lookup_lt_Some).
    rewrite lookup_zip_with.
    assert (E : zip (take (length p - 2) p)
                  (drop 1 (take (length p - 1) p)) !! k = Some (a, b)).
    { rewrite lookup_zip_with.
      rewrite lookup_take_lt by lia. rewrite Ha. cbn.
      rewrite lookup_drop, lookup_take_lt by lia.
      replace (1 + k)%nat with (k + 1)%nat by lia. by rewrite Hb. }
    rewrite E. cbn. rewrite lookup_drop.
    replace (2 + k)%nat with (k + 2)%nat by lia. by rewrite Hc.
Qed.

(** ** [plot_2d] with matplotlib *)

Lemma ravel_nonempty z :
  nd_wf z → (0 < length (nd_rows z))%nat → (0 < nd_ncols z)%nat →
  ravel z ≠ [].
Proof.
  intros Hwf HN HM. unfold ravel. unfold nd_wf in Hwf.
  destruct (nd_rows z) as [|r rows]; [simpl in HN; lia|].
  apply Forall_cons in Hwf as [Hr _]. cbn.
  destruct r; [simpl in Hr; lia | done].
Qed.

(** X15: [plot_2d] on an array without entries raises the ValueError of
    [np.nanmin] before either backend draws. With matplotlib, no
    rotation, an array of shape (N, M) with N, M > 0, M x coordinates
    and N y coordinates, its data path runs to the end: without a slice
    selector [exp_data] holds the three arrays only; with one, the line
    at index 0 is drawn by [update] and stored under "slice", whole,
    next to the coordinates spread over the axis limits. *)
Theorem plot_2d_matplotlib_outcome
    (rotate : ndarray → num → num → ndarray)
    (xs ys : DataItem (list num)) (zs : DataItem ndarray)
    (st : option slice_state) (color_by_value : bool)
    (xlim ylim : num * num) :
  let z := magnitude (array zs) in
  (ravel z = [] →
   ∀ pyqtgraph angle,
     plot_2d rotate pyqtgraph xs ys zs angle st color_by_value xlim ylim
     = Raise ValueError)
  ∧ (nd_wf z → (0 < length (nd_rows z))%nat → (0 < nd_ncols z)%nat →
     length (magnitude (array xs)) = nd_ncols z →
     length (magnitude (array ys)) = length (nd_rows z) →
     ∃ fig,
       plot_2d rotate false xs ys zs (Fin 0%Qc) st color_by_value xlim ylim
       = Ok (inr fig)
       ∧ match st with
         | None =>
             mf_slice fig = None
             ∧ mf_exp_data fig
               = plot_2d_mpl rotate xs ys zs (Fin 0%Qc) xlim ylim
         | Some s =>
             ∃ line,
               extract_slice s z 0 = Ok line
               ∧ mf_exp_data fig !! "slice"
                 = Some (match s with
                         | SliceX =>
                             ExpSlice (name xs)
                               (linspace xlim.1 xlim.2 (nd_ncols z))
                               (units (array xs))
                               (name zs) line (units (array zs)) 0
                         | SliceY =>
                             ExpSlice (name ys)
                               (linspace ylim.1 ylim.2 (length (nd_rows z)))
                               (units (array ys))
                               (name zs) line (units (array zs)) 0
                         end)
         end).
Proof.
  intros z. split.
  - intros He pyqtgraph angle. unfold plot_2d. fold z. by rewrite He.
  - intros Hwf HN HM Hfx Hfy. unfold plot_2d. fold z.
    pose proof (ravel_nonempty z Hwf HN HM) as Hne.
    destruct (nanmin_ok _ Hne) as [lo ->].
    destruct (nanmax_ok _ Hne) as [hi ->].
    cbn [mbind res_bind]. unfold plot_2d_mpl_sliced. fold z.
    destruct st as [s|]; [|eexists; split; [reflexivity|]; by split].
    rewrite truthy_0.
    assert (Hfs : ∃ fs, first_slice s (magnitude (array xs))
                          (magnitude (array ys)) z = Ok fs).
    { pose proof (first_slice_cases s (magnitude (array xs))
                    (magnitude (array ys)) z) as Hc.
      unfold extract_slice in Hc. destruct s.
      - destruct (py_row_in_range z 0 Hwf) as (r & Hr & Hlen); [lia|].
        rewrite Hr in Hc. apply Hc. lia.
      - destruct (py_col_in_range z 0 Hwf) as (c & Hcol & Hlen); [lia|].
        rewrite Hcol in Hc. apply Hc. lia. }
    destruct Hfs as [fs ->]. cbn [mbind res_bind].
    assert (HrT : length (nd_rows (transpose z)) = nd_ncols z)
      by (pose proof (transpose_shape z) as Hsh; unfold nd_shape in Hsh;
          congruence).
    assert (HcT : nd_ncols (transpose z) = length (nd_rows z))
      by reflexivity.
    assert (Hcut : ∃ c0,
      nanmin (match s with
              | SliceX => linspace ylim.1 ylim.2
                            (length (nd_rows (transpose z)))
              | SliceY => linspace xlim.1 xlim.2 (nd_ncols (transpose z))
              end) = Ok c0).
    { apply nanmin_ok, nonempty_length.
      destruct s; rewrite length_linspace; lia. }
    destruct Hcut as [c0 ->]. cbn [mbind res_bind].
    destruct (update_in_range rotate s color_by_value xlim ylim z 0 Hwf HN HM)
      as (u & line & Hu & Hline & Hy & Hx & Hidx & _).
    { destruct s; lia. }
    rewrite Hu. cbn [mbind res_bind fmap res_fmap].
    eexists. split; [reflexivity|]. exists line. split; [exact Hline|].
    cbn [mf_exp_data]. rewrite lookup_insert_eq, Hy, Hx, Hidx.
    by destruct s.
Qed.

(** X16: What [plot_2d_mpl] exports as coordinates (no rotation, three
    different names): the array under the name of x is spread over the x
    limits of the axes with as many points as the data have rows, and
    the one under the name of y over the y limits with as many points as
    the data have columns; the data are stored as they are. *)
Theorem plot_2d_mpl_exported_coordinates
    (rotate : ndarray → num → num → ndarray)
    (xs ys : DataItem (list num)) (zs : DataItem ndarray)
    (xlim ylim : num * num) :
  name xs ≠ name ys → name xs ≠ name zs → name ys ≠ name zs →
  nd_wf (magnitude (array zs)) →
  let e := plot_2d_mpl rotate xs ys zs (Fin 0%Qc) xlim ylim in
  let z := magnitude (array zs) in
  ∃ x y,
    e !! name xs = Some (Exp1 x (units (array xs)))
    ∧ x = linspace xlim.1 xlim.2 (length (nd_rows z))
    ∧ length x = length (nd_rows z)
    ∧ e !! name ys = Some (Exp1 y (units (array ys)))
    ∧ y = linspace ylim.1 ylim.2 (nd_ncols z)
    ∧ length y = nd_ncols z
    ∧ e !! name zs = Some (Exp2 z (units (array zs)))
    ∧ dom e = {[ name xs; name ys; name zs ]}.
Proof.
  intros Hxy Hxz Hyz Hwf e z. unfold e, plot_2d_mpl. rewrite truthy_0.
  fold z.
  assert (HrT : length (nd_rows (transpose z)) = nd_ncols z)
    by (pose proof (transpose_shape z) as Hsh; unfold nd_shape in Hsh;
        congruence).
  assert (HcT : nd_ncols (transpose z) = length (nd_rows z)) by reflexivity.
  rewrite HrT, HcT.
  eexists _, _. split.
  { rewrite lookup_insert_ne by done. rewrite lookup_insert_ne by done.
    apply lookup_insert_eq. }
  split; [reflexivity|]. split; [apply length_linspace|]. split.
  { rewrite lookup_insert_ne by done. apply lookup_insert_eq. }
  split; [reflexivity|]. split; [apply length_linspace|]. split.
  { rewrite lookup_insert_eq. by rewrite transpose_involutive. }
  rewrite !dom_insert_L, dom_empty_L. apply set_eq. intros k.
  rewrite !elem_of_union, !elem_of_singleton, elem_of_empty. tauto.
Qed.

(** ** The slice state *)

(** X17: [set_slice], before it replots, stores the requested state and
    then has [update_slice] check it; an explicit 0 is kept (only None
    falls back on the checked radio button). For a state 0, 1 or 2 the
    call returns, at most one of the two slice widgets is shown, the
    colour button is enabled with a slice, and [plot_arrays] finds its
    slice selector. Any other state is a ValueError that leaves the
    widgets as they were and the state stored, so that the next
    [plot_arrays] on 2D data finds no selector bound. *)
Theorem set_slice_outcome (u : slice_ui) (idx : idx_arg) :
  let k := match idx with
           | IdxNone => slice_radio u
           | IdxInt k => k
           | IdxButton id => id
           end in
  slice_state_id (set_slice u idx).2 = k
  ∧ (0 ≤ k ≤ 2 →
       (set_slice u idx).1 = Ok ()
       ∧ x_slice_shown (set_slice u idx).2 = (k =? 1)
       ∧ y_slice_shown (set_slice u idx).2 = (k =? 2)
       ∧ line_color_enabled (set_slice u idx).2 = negb (k =? 0)
       ∧ ∃ s, slice_selector k = Ok s ∧ (s = None ↔ k = 0))
  ∧ (k < 0 ∨ 2 < k →
       (set_slice u idx).1 = Raise ValueError
       ∧ x_slice_shown (set_slice u idx).2 = x_slice_shown u
       ∧ y_slice_shown (set_slice u idx).2 = y_slice_shown u
       ∧ line_color_enabled (set_slice u idx).2 = line_color_enabled u
       ∧ slice_selector k = Raise UnboundLocalError).
Proof.
  intros k. unfold set_slice, update_slice, slice_selector.
  cbn [slice_state_id slice_radio]. fold k. clearbody k.
  destruct (Z.eqb_spec k 0) as [->|E0];
    [|destruct (Z.eqb_spec k 1) as [->|E1];
      [|destruct (Z.eqb_spec k 2) as [->|E2]]];
    cbn [fst snd slice_state_id x_slice_shown y_slice_shown
         line_color_enabled negb].
  - split; [done|]. split; [|lia]. intros _.
    do 4 (split; [done|]). exists None. done.
  - split; [done|]. split; [|lia]. intros _.
    do 4 (split; [done|]). exists (Some SliceX). done.
  - split; [done|]. split; [|lia]. intros _.
    do 4 (split; [done|]). exists (Some SliceY). done.
  - split; [done|]. split; [lia|]. intros _. done.
Qed.

(** ** The orientation of a scan *)

Lemma fliplr_entry z i j :
  nd_wf z → (j < nd_ncols z)%nat →
  entry (fliplr z) i j = entry z i (nd_ncols z - S j).
Proof.
  intros Hwf Hj. unfold entry, fliplr. cbn [nd_rows].
  rewrite list_lookup_fmap.
  destruct (nd_rows z !! i) as [r|] eqn:Hr; [|done]. cbn.
  assert (Hlen : length r = nd_ncols z).
  { unfold nd_wf in Hwf. rewrite Forall_lookup in Hwf. by eapply Hwf. }
  rewrite reverse_lookup by lia. by rewrite Hlen.
Qed.

Lemma flipud_entry z i j :
  (i < length (nd_rows z))%nat →
  entry (flipud z) i j = entry z (length (nd_rows z) - S i) j.
Proof.
  intros Hi. unfold entry, flipud. cbn [nd_rows].
  by rewrite reverse_lookup by lia.
Qed.

Lemma fliplr_wf z : nd_wf z → nd_wf (fliplr z).
Proof.
  unfold nd_wf, fliplr. cbn [nd_rows nd_ncols]. intros H.
  apply Forall_fmap. eapply Forall_impl; [exact H|].
  intros r Hr. cbn. by rewrite length_reverse.
Qed.

Lemma flipud_wf z : nd_wf z → nd_wf (flipud z).
Proof.
  unfold nd_wf, flipud. cbn [nd_rows nd_ncols]. intros H.
  by apply Forall_reverse.
Qed.

Lemma fliplr_fliplr z : fliplr (fliplr z) = z.
Proof.
  destruct z as [rows m]. unfold fliplr. cbn [nd_rows nd_ncols]. f_equal.
  rewrite <- list_fmap_compose. rewrite <- (list_fmap_id rows) at 2.
  apply list_fmap_ext. intros k r _. cbn. apply reverse_involutive.
Qed.

Lemma flipud_flipud z : flipud (flipud z) = z.
Proof.
  destruct z as [rows m]. unfold flipud. cbn [nd_rows nd_ncols].
  by rewrite reverse_involutive.
Qed.

Lemma fliplr_flipud z : fliplr (flipud z) = flipud (fliplr z).
Proof.
  unfold fliplr, flipud. cbn [nd_rows nd_ncols]. by rewrite fmap_reverse.
Qed.

(** X18: A scan direction "neg" mirrors the array: for x the columns,
    for y the rows. The unit and the shape stay, the entry at (i, j) is
    the one that was at the mirrored index, and orienting twice gives
    the array back. *)
Theorem orient_mirrors (x_dir y_dir : string) (q : Quantity ndarray) :
  nd_wf (magnitude q) →
  let z := magnitude q in
  let q' := orient x_dir y_dir q in
  units q' = units q
  ∧ nd_shape (magnitude q') = nd_shape z
  ∧ nd_wf (magnitude q')
  ∧ (∀ i j, (i < length (nd_rows z))%nat → (j < nd_ncols z)%nat →
       entry (magnitude q') i j
       = entry z
           (if String.eqb y_dir "neg"
            then length (nd_rows z) - S i else i)%nat
           (if String.eqb x_dir "neg" then nd_ncols z - S j else j)%nat)
  ∧ orient x_dir y_dir q' = q.
Proof.
  intros Hwf z q'. unfold q', orient. destruct q as [m un].
  cbn [magnitude units] in *. subst z.
  destruct (String.eqb x_dir "neg"), (String.eqb y_dir "neg");
    cbn [magnitude units].
  - split; [done|]. split.
    { unfold nd_shape, flipud, fliplr. cbn [nd_rows nd_ncols].
      by rewrite length_reverse, length_fmap. }
    split; [by apply flipud_wf, fliplr_wf|]. split.
    + intros i j Hi Hj. rewrite flipud_entry.
      * unfold fliplr at 2. cbn [nd_rows]. rewrite length_fmap.
        by apply fliplr_entry.
      * unfold fliplr. cbn [nd_rows]. by rewrite length_fmap.
    + by rewrite fliplr_flipud, flipud_flipud, fliplr_fliplr.
  - split; [done|]. split.
    { unfold nd_shape, fliplr. cbn [nd_rows nd_ncols].
      by rewrite length_fmap. }
    split; [by apply fliplr_wf|]. split.
    + intros i j Hi Hj. by apply fliplr_entry.
    + by rewrite fliplr_fliplr.
  - split; [done|]. split.
    { unfold nd_shape, flipud. cbn [nd_rows nd_ncols].
      by rewrite length_reverse. }
    split; [by apply flipud_wf|]. split.
    + intros i j Hi Hj. by apply flipud_entry.
    + by rewrite flipud_flipud.
  - done.
Qed.

(** ** [set_plot_from_name]: what it needs *)

(** X19: [set_plot_from_name] reads the dataset first: without one it is
    an AttributeError. With a dataset, a number of independent variables
    other than 1 or 2 leaves the items unbound (UnboundLocalError), and
    a name that [arrays] does not hold is a KeyError: one of an
    independent variable, or the requested one. *)
Theorem set_plot_from_name_errors
    (lstsq : list (list num) → list num → res (list num))
    (convert : string → string → res ((num → num) * string))
    (w : widget) (nm : string) :
  (dataset w = None →
   set_plot_from_name lstsq convert w nm = Raise AttributeError)
  ∧ (∀ d, dataset w = Some d →
       length (indep_vars w) ≠ 1%nat → length (indep_vars w) ≠ 2%nat →
       set_plot_from_name lstsq convert w nm = Raise UnboundLocalError)
  ∧ (∀ d v vs, dataset w = Some d →
       indep_vars w = v :: vs → (length vs ≤ 1)%nat →
       arrays w !! v = None →
       set_plot_from_name lstsq convert w nm = Raise KeyError)
  ∧ (∀ d v x, dataset w = Some d →
       indep_vars w = [v] → arrays w !! v = Some (Arr1 x) →
       arrays w !! nm = None →
       set_plot_from_name lstsq convert w nm = Raise KeyError)
  ∧ (∀ d vx vy x y, dataset w = Some d →
       indep_vars w = [vx; vy] →
       arrays w !! vx = Some (Arr1 x) → arrays w !! vy = Some (Arr1 y) →
       arrays w !! nm = None →
       set_plot_from_name lstsq convert w nm = Raise KeyError).
Proof.
  unfold set_plot_from_name. split; [by intros ->|].
  split; [|split; [|split]].
  - intros d -> H1 H2. cbn [mbind res_bind].
    destruct (indep_vars w) as [|v [|v' [|v'' vs]]]; try done.
  - intros d v vs -> -> Hvs Hv. cbn [mbind res_bind].
    destruct vs as [|v' [|v'' vs]]; [| |simpl in Hvs; lia].
    + unfold get_arr1. by rewrite Hv.
    + destruct (default ("pos", "pos") (direction d)) as [x_dir y_dir].
      unfold get_arr1. by rewrite Hv.
  - intros d v x -> -> Hv Hnm. cbn [mbind res_bind].
    unfold get_arr1. by rewrite Hv, Hnm.
  - intros d vx vy x y -> -> Hx Hy Hnm. cbn [mbind res_bind].
    destruct (default ("pos", "pos") (direction d)) as [x_dir y_dir].
    unfold get_arr1, get_arr2. by rewrite Hx, Hy, Hnm.
Qed.

(** ** The slices of the pyqtgraph image view *)

Lemma py_col_nat z i :
  0 ≤ i < Z.of_nat (nd_ncols z) → py_col z i = col z (Z.to_nat i).
Proof.
  intros Hi. unfold py_col. cbv zeta.
  destruct (Z.ltb_spec i 0); [lia|].
  destruct (Z.ltb_spec i 0); [lia|].
  destruct (Z.leb_spec (Z.of_nat (nd_ncols z)) i); [lia|]. done.
Qed.

Lemma col_values (j : nat) (rows : list (list num)) (c : list num) :
  Forall2 (λ r a, r !! j = Some a) rows c →
  (λ r : list num, default NaN (r !! j)) <$> rows = c.
Proof.
  induction 1 as [|r a rows c Hr _ IH]; [done|].
  rewrite fmap_cons, IH, Hr. done.
Qed.

(** A row of the transpose is a column of the array, and a column of
    the transpose is a row of the array. *)
Lemma row_transpose z j c : col z j = Ok c → row (transpose z) j = Ok c.
Proof.
  intros Hc. apply col_Ok in Hc as [Hj Hc]. apply row_Ok.
  rewrite transpose_rows_lookup by done. f_equal. by apply col_values.
Qed.

Lemma col_transpose z i r :
  nd_wf z → nd_rows z !! i = Some r → col (transpose z) i = Ok r.
Proof.
  intros Hwf Hr. apply col_Ok. split.
  { unfold transpose. cbn [nd_ncols]. by eapply lookup_lt_Some. }
  assert (Hlen : length r = nd_ncols z).
  { unfold nd_wf in Hwf. rewrite Forall_lookup in Hwf. by eapply Hwf. }
  apply Forall2_same_length_lookup. split.
  { unfold transpose. cbn [nd_rows]. by rewrite length_fmap, length_seq. }
  intros j r' a Hr' Ha.
  assert (Hj : (j < nd_ncols z)%nat)
    by (rewrite <- Hlen; by eapply lookup_lt_Some).
  rewrite transpose_rows_lookup in Hr' by done. injection Hr' as <-.
  rewrite list_lookup_fmap, Hr. cbn. by rewrite Ha.
Qed.

Lemma transpose_wf z : nd_wf (transpose z).
Proof.
  unfold nd_wf, transpose. cbn [nd_rows nd_ncols].
  apply Forall_fmap, Forall_forall. intros j _. cbn.
  by rewrite length_fmap.
Qed.

Lemma image_view_update_slice (v : SliceableImageView.view) :
  let img := SliceableImageView.image v in
  let i := SliceableImageView.x_cross_index v in
  let j := SliceableImageView.y_cross_index v in
  nd_wf img →
  0 ≤ i < Z.of_nat (length (nd_rows img)) →
  0 ≤ j < Z.of_nat (nd_ncols img) →
  ∃ s r c a,
    SliceableImageView.update_slice v = Ok s
    ∧ nd_rows img !! Z.to_nat i = Some r
    ∧ col img (Z.to_nat j) = Ok c
    ∧ r !! Z.to_nat j = Some a
    ∧ py_entry img i j = Ok a
    ∧ (SliceableImageView.x_slice s).2 = c
    ∧ (SliceableImageView.y_slice s).2 = r
    ∧ SliceableImageView.x_hline s = a
    ∧ length (SliceableImageView.x_slice s).1 = length c
    ∧ length (SliceableImageView.y_slice s).1 = length r.
Proof.
  intros img i j Hwf Hi Hj. unfold SliceableImageView.update_slice.
  fold img i j. cbv zeta.
  destruct (py_index_nat (nd_rows img) i Hi) as (r & Hr & Hlook).
  assert (Hlen : length r = nd_ncols img).
  { unfold nd_wf in Hwf. rewrite Forall_lookup in Hwf. by eapply Hwf. }
  destruct (py_index_nat r j) as (a & Ha & Hlooka); [lia|].
  destruct (col_ok img (Z.to_nat j) Hwf) as [c Hc]; [lia|].
  assert (Hentry : py_entry img i j = Ok a).
  { unfold py_entry, py_row. rewrite Hr. cbn [mbind res_bind]. exact Ha. }
  rewrite Hentry. cbn [mbind res_bind].
  rewrite py_col_nat, Hc by done. cbn [mbind res_bind].
  set (xdata := linspace _ _ (length (nd_rows img))).
  set (ydata := linspace _ _ (nd_ncols img)).
  destruct (py_index_nat xdata i) as (xv & Hxv & _);
    [unfold xdata; rewrite length_linspace; lia|].
  destruct (py_index_nat ydata j) as (yv & Hyv & _);
    [unfold ydata; rewrite length_linspace; lia|].
  rewrite Hxv. cbn [mbind res_bind]. unfold py_row. rewrite Hr.
  cbn [mbind res_bind]. rewrite Hyv. cbn [mbind res_bind].
  eexists _, r, c, a. split; [reflexivity|].
  cbn [SliceableImageView.x_slice SliceableImageView.y_slice
       SliceableImageView.x_hline fst snd].
  do 7 (split; [done|]). unfold xdata, ydata. rewrite !length_linspace.
  split; [symmetry; by eapply col_length | done].
Qed.

(** X20: The image view is given the transpose of the data. With the
    cross at the pixel (ix, iy) of the image, the x slice widget shows
    the row iy of the data and the y slice widget its column ix, each
    against as many coordinates as it has values, and the horizontal
    line of the x slice sits at the entry (iy, ix) of the data. *)
Theorem image_view_slices_are_data_lines
    (v : SliceableImageView.view) (z : ndarray) :
  nd_wf z →
  SliceableImageView.image v = transpose z →
  0 ≤ SliceableImageView.x_cross_index v < Z.of_nat (nd_ncols z) →
  0 ≤ SliceableImageView.y_cross_index v < Z.of_nat (length (nd_rows z)) →
  let ix := Z.to_nat (SliceableImageView.x_cross_index v) in
  let iy := Z.to_nat (SliceableImageView.y_cross_index v) in
  ∃ s r c a,
    SliceableImageView.update_slice v = Ok s
    ∧ row z iy = Ok r ∧ col z ix = Ok c ∧ entry z iy ix = Some a
    ∧ SliceableImageView.x_slice s
      = ((SliceableImageView.x_slice s).1, r)
    ∧ length (SliceableImageView.x_slice s).1 = length r
    ∧ SliceableImageView.y_slice s
      = ((SliceableImageView.y_slice s).1, c)
    ∧ length (SliceableImageView.y_slice s).1 = length c
    ∧ SliceableImageView.x_hline s = a.
Proof.
  intros Hwf Himg Hx Hy ix iy.
  assert (HrT : length (nd_rows (transpose z)) = nd_ncols z)
    by (pose proof (transpose_shape z) as Hsh; unfold nd_shape in Hsh;
        congruence).
  destruct (image_view_update_slice v)
    as (s & c & r & a & Hs & Hc & Hr & Ha & _ & Hxs & Hys & Hh & Hlx & Hly).
  { rewrite Himg. apply transpose_wf. }
  { rewrite Himg, HrT. done. }
  { rewrite Himg. done. }
  rewrite Himg in Hc, Hr. fold ix in Hc, Ha. fold iy in Hr, Ha.
  destruct (lookup_lt_is_Some_2 (nd_rows z) iy) as [r0 Hr0]; [unfold iy; lia|].
  assert (Hrow : r = r0).
  { pose proof (col_transpose z iy r0 Hwf Hr0) as E. congruence. }
  subst r0.
  destruct (col_ok z ix Hwf) as [c0 Hc0]; [unfold ix; lia|].
  assert (Hcol : c = c0).
  { pose proof (row_transpose z ix c0 Hc0) as E.
    apply row_Ok in E. congruence. }
  subst c0.
  exists s, r, c, a. split; [exact Hs|].
  split; [by apply row_Ok|]. split; [exact Hc0|]. split.
  { apply col_Ok in Hc0 as [_ Hall].
    rewrite Forall2_lookup in Hall. specialize (Hall iy).
    rewrite Hr0 in Hall. inversion Hall as [r' a' Hra Hr' Hcl|]; subst.
    unfold entry. rewrite Hr0. cbn. rewrite Hra. congruence. }
  destruct (SliceableImageView.x_slice s) as [xd xv].
  destruct (SliceableImageView.y_slice s) as [yd yv].
  cbn [fst snd] in *.
  split; [congruence|]. split; [congruence|].
  split; [congruence|]. split; [congruence | exact Hh].
Qed.

Lemma clamp_range (i : Z) (n : nat) :
  (0 < n)%nat →
  0 ≤ SliceableImageView.clamp i n < Z.of_nat n
  ∧ (0 ≤ i < Z.of_nat n → SliceableImageView.clamp i n = i).
Proof. unfold SliceableImageView.clamp. lia. Qed.

(** X21: [set_position] keeps the cross on the image. On an image of
    shape (nx, ny) with nx, ny > 0 and a position whose item coordinates
    are numbers, it returns with 0 <= x_cross_index < nx and 0 <=
    y_cross_index < ny, a pixel inside the image is kept as it is, the
    image is untouched, and the value shown is the entry under the
    cross. A NaN coordinate is a ValueError, and an image without rows
    an IndexError. *)
Theorem set_position_keeps_cross_on_image
    (v : SliceableImageView.view) (item : num * num) :
  let img := SliceableImageView.image v in
  nd_wf img →
  (∀ ix iy, (0 < length (nd_rows img))%nat → (0 < nd_ncols img)%nat →
     int_of item.1 = Ok ix → int_of item.2 = Ok iy →
     ∃ v' a s,
       SliceableImageView.set_position v item = Ok (v', a, s)
       ∧ SliceableImageView.image v' = img
       ∧ 0 ≤ SliceableImageView.x_cross_index v'
         < Z.of_nat (length (nd_rows img))
       ∧ 0 ≤ SliceableImageView.y_cross_index v' < Z.of_nat (nd_ncols img)
       ∧ (0 ≤ ix < Z.of_nat (length (nd_rows img)) →
          SliceableImageView.x_cross_index v' = ix)
       ∧ (0 ≤ iy < Z.of_nat (nd_ncols img) →
          SliceableImageView.y_cross_index v' = iy)
       ∧ entry img (Z.to_nat (SliceableImageView.x_cross_index v'))
                   (Z.to_nat (SliceableImageView.y_cross_index v'))
         = Some a
       ∧ SliceableImageView.x_hline s = a)
  ∧ (item.1 = NaN ∨ (isfinite item.1 = true ∧ item.2 = NaN) →
     SliceableImageView.set_position v item = Raise ValueError)
  ∧ (∀ ix iy, nd_rows img = [] →
     int_of item.1 = Ok ix → int_of item.2 = Ok iy →
     SliceableImageView.set_position v item = Raise IndexError).
Proof.
  intros img Hwf. split; [|split].
  - intros ix iy HN HM Hix Hiy. unfold SliceableImageView.set_position.
    fold img. rewrite Hix, Hiy. cbn [mbind res_bind].
    destruct (clamp_range ix (length (nd_rows img)) HN) as [Hcx Hkx].
    destruct (clamp_range iy (nd_ncols img) HM) as [Hcy Hky].
    set (v1 := SliceableImageView.mk_view _ _ _ _ _ _ _).
    destruct (image_view_update_slice v1)
      as (s & r & c & a & Hs & Hr & Hc & Ha & He & _ & _ & Hh & _);
      [exact Hwf | exact Hcx | exact Hcy |].
    cbn [SliceableImageView.image SliceableImageView.x_cross_index
         SliceableImageView.y_cross_index v1] in Hr, Hc, Ha, He.
    cbn [SliceableImageView.image v1]. rewrite He, Hs.
    cbn [mbind res_bind]. exists v1, a, s. split; [done|].
    cbn [SliceableImageView.image SliceableImageView.x_cross_index
         SliceableImageView.y_cross_index v1].
    do 5 (split; [done|]). split; [|exact Hh].
    unfold entry. fold img. rewrite Hr. exact Ha.
  - intros [Hx|[Hx Hy]]; unfold SliceableImageView.set_position.
    + by rewrite Hx.
    + rewrite Hy. destruct item.1; try done.
  - intros ix iy He Hix Hiy. unfold SliceableImageView.set_position.
    fold img. rewrite Hix, Hiy, He. cbn [mbind res_bind].
    cbn [SliceableImageView.image]. fold img.
    unfold py_entry, py_row. rewrite He.
    by rewrite py_index_out_of_range
      by (unfold SliceableImageView.clamp; simpl; lia).
Qed.

(** ** The point under the mouse on a slice plot *)





(** ** Concrete runs *)

(** Closed statements are decided by evaluation. *)
Ltac by_eval := apply (bool_decide_eq_true_1 _); vm_compute; reflexivity.



Lemma subtract_line_by_line_keeps_input_witness :
  h22 !! 1%positive = Some z22
  ∧ (subtract_line_by_line 1%positive 1 mean_of h22).2 !! 1%positive
    = Some z22.
Proof.
  split; [reflexivity|].
  exact (proj1 (subtract_line_by_line_keeps_input h22 1%positive z22 1
                  mean_of eq_refl)).
Defined.


Lemma subtract_background_idx_zero_uses_checked_witness :
  (4 ≠ 0)
  ∧ selected_idx w_1d (IdxInt 0) = 3
  ∧ subtract_background no_lstsq w_1d (IdxInt 0)
    = subtract_background no_lstsq w_1d IdxNone
  ∧ selected_idx w_1d (IdxInt 4) = 4
  ∧ subtract_background no_lstsq w_1d (IdxInt 0)
    = Ok (Some (mk_plot_call (cd_xs cd_1d)
            (mk_item "CAP"
               (mk_quantity
                  ((λ a, nsub a (nanmean [n_ 1; n_ 2; n_ 6]))
                     <$> [n_ 1; n_ 2; n_ 6]) "V"))
            None "t"))
  ∧ (λ a, nsub a (nanmean [n_ 1; n_ 2; n_ 6])) <$> [n_ 1; n_ 2; n_ 6]
    = [n_ (-2); n_ (-1); n_ 3].
Proof.
  destruct (subtract_background_idx_zero_uses_checked no_lstsq w_1d)
    as (H0 & Hsame & Hk & _ & Hmean).
  split; [lia|]. split; [exact H0|]. split; [exact Hsame|].
  split; [apply Hk; lia|].
  split; [exact (Hmean cd_1d eq_refl eq_refl eq_refl) | by_eval].
Defined.

(** C2 does not hold for [fit_line]: it fits all the points, so one NaN
    in [y] makes the whole line NaN. With x = [0, 1, 2] and
    y = [0, NaN, 2] it returns a line of NaN, where the fit through the
    two finite points is the line [0, 1, 2]. *)
Theorem fit_line_keeps_non_finite_points :
  (∀ x y l : list num,
      NaN ∈ y → fit_line x y = Ok l → l = replicate (length x) NaN)
  ∧ fit_line x3 [n_ 0; NaN; n_ 2] = Ok [NaN; NaN; NaN]
  ∧ fit_line_finite_only x3 [n_ 0; NaN; n_ 2] = Ok [n_ 0; n_ 1; n_ 2].
Proof.
  split; [exact fit_line_propagates_nan|]. by_eval.
Qed.

Lemma fit_line_keeps_non_finite_points_witness :
  NaN ∈ [n_ 0; NaN; n_ 2]
  ∧ fit_line x3 [n_ 0; NaN; n_ 2] = Ok [NaN; NaN; NaN]
  ∧ [NaN; NaN; NaN] = replicate (length x3) NaN.
Proof.
  destruct fit_line_keeps_non_finite_points as (Hnan & Hrun & _).
  assert (Hin : NaN ∈ [n_ 0; NaN; n_ 2]) by (right; left).
  split; [exact Hin|]. split; [exact Hrun|].
  exact (Hnan x3 [n_ 0; NaN; n_ 2] [NaN; NaN; NaN] Hin Hrun).
Defined.

(** C3 does not hold for the slice that is shown and exported: [update]
    has no mask. What [update] draws for an index is the whole line of
    the array next to the whole coordinate array, so a non-finite value
    of the line stays in the values, its coordinate stays in the
    coordinates, and the segments of the coloured line go through it.
    The slice built when the figure is made has the mask, but
    [update(0)] runs right after it and is what is drawn and stored: on
    the row [1, NaN, 3] the first slice is [1, 3] over [0, 2], and the
    slice drawn and stored under "slice" is [1, NaN, 3] over
    [0, 1, 2]. *)
Theorem update_keeps_non_finite_points :
  (∀ (rotate : ndarray → num → num → ndarray) st color_by_value angle
     xlim ylim zs i u,
     update rotate st color_by_value angle xlim ylim zs i = Ok u →
     let z := if truthy angle then rotate zs angle NaN else zs in
     let coords :=
       match st with
       | SliceX => linspace xlim.1 xlim.2 (nd_ncols z)
       | SliceY => linspace ylim.1 ylim.2 (length (nd_rows z))
       end in
     extract_slice st z i = Ok (su_ydata u)
     ∧ su_xdata u = coords
     ∧ (color_by_value = true →
        ∃ lo hi, nanmin (su_ydata u) = Ok lo ∧ nanmax (su_ydata u) = Ok hi
          ∧ su_colored u
            = Some (segments (points coords (su_ydata u)), (lo, hi))))
  ∧ sp_ys <$> first_slice SliceX x3 [n_ 0] z13 = Ok [n_ 1; n_ 3]
  ∧ sp_xs <$> first_slice SliceX x3 [n_ 0] z13 = Ok [n_ 0; n_ 2]
  ∧ su_ydata <$> update blank_rotate SliceX true (Fin 0%Qc)
                   (n_ 0, n_ 2) (n_ 0, n_ 0) z13 0
    = Ok [n_ 1; NaN; n_ 3]
  ∧ su_xdata <$> update blank_rotate SliceX true (Fin 0%Qc)
                   (n_ 0, n_ 2) (n_ 0, n_ 0) z13 0
    = Ok [n_ 0; n_ 1; n_ 2]
  ∧ su_colored <$> update blank_rotate SliceX true (Fin 0%Qc)
                     (n_ 0, n_ 2) (n_ 0, n_ 0) z13 0
    = Ok (Some ([[(n_ 0, n_ 1); (n_ 1, NaN); (n_ 2, n_ 3)]], (n_ 1, n_ 3)))
  ∧ (λ fig, mf_exp_data fig !! "slice")
      <$> plot_2d_mpl_sliced blank_rotate (item1 "x" x3) (item1 "y" [n_ 0])
            (mk_item "MAG" (mk_quantity z13 "V")) (Fin 0%Qc) (Some SliceX)
            true (n_ 0, n_ 2) (n_ 0, n_ 0)
    = Ok (Some (ExpSlice "x" [n_ 0; n_ 1; n_ 2] "V"
                         "MAG" [n_ 1; NaN; n_ 3] "V" 0)).
Proof.
  split.
  - intros rotate st color_by_value angle xlim ylim zs.
    exact (proj2 (slice_masking rotate st [] [] zs)
             color_by_value angle xlim ylim).
  - by_eval.
Qed.

Lemma update_keeps_non_finite_points_witness :
  ∃ u,
    update blank_rotate SliceX true (Fin 0%Qc)
      (n_ 0, n_ 2) (n_ 0, n_ 0) z13 0 = Ok u
    ∧ extract_slice SliceX z13 0 = Ok (su_ydata u)
    ∧ su_xdata u = linspace (n_ 0) (n_ 2) 3.
Proof.
  destruct update_keeps_non_finite_points as [Hgen _].
  eexists. split; [vm_compute; reflexivity|].
  edestruct (Hgen blank_rotate SliceX true (Fin 0%Qc) (n_ 0, n_ 2)
               (n_ 0, n_ 0) z13 0) as (Hline & Hcoords & _);
    [vm_compute; reflexivity|].
  split; [exact Hline | exact Hcoords].
Defined.



Lemma row_slice_is_row_witness :
  nd_wf z22
  ∧ 0 ≤ 1 < Z.of_nat (length (nd_rows z22))
  ∧ ∃ r, extract_slice SliceX z22 1 = Ok r
      ∧ length r = nd_ncols z22
      ∧ (∀ j, (j < nd_ncols z22)%nat →
           ∃ a, r !! j = Some a ∧ entry z22 (Z.to_nat 1) j = Some a)
      ∧ (∀ rotate color_by_value xlim ylim, (0 < nd_ncols z22)%nat →
           ∃ u, update rotate SliceX color_by_value (Fin 0%Qc) xlim ylim
                  z22 1 = Ok u
             ∧ su_ydata u = r).
Proof.
  assert (Hwf : nd_wf z22) by (repeat constructor).
  assert (Hi : 0 ≤ 1 < Z.of_nat (length (nd_rows z22))) by (simpl; lia).
  split; [exact Hwf|]. split; [exact Hi|].
  exact (row_slice_is_row z22 1 Hwf Hi).
Defined.

Lemma unit_conversion_failure_falls_back_witness :
  ito1 convert_V (mk_quantity [n_ 1; n_ 2; n_ 6] "V") "parsec"
  = Raise ValueError
  ∧ try_ito (ito1 convert_V) (mk_quantity [n_ 1; n_ 2; n_ 6] "V") "parsec"
    = Ok (mk_quantity [n_ 1; n_ 2; n_ 6] "V", "V")
  ∧ (∃ w' cd', replot_units convert_V w_ds cd_1d = Ok (w', cd')
       ∧ cd_ys cd' = cd_ys cd_1d ∧ units_text w' = "V"
       ∧ cd_xs cd' = cd_xs cd_1d ∧ xy_units w' = "V")
  ∧ set_plot_from_name no_lstsq convert_V w_ds "CAP"
    = (let w1 :=
         set_current (set_units_enabled (set_units_text w_ds "V") true)
           "run/1 [CAP]"
           (mk_plot_data (item1 "height" [n_ 0; n_ 1; n_ 2])
                         (item1 "CAP" [n_ 1; n_ 2; n_ 6]) None) in
       pc ← subtract_background no_lstsq w1 IdxNone; Ok (w1, pc))
  ∧ set_plot_from_name no_lstsq convert_V w_ds2 "MAG"
    = (let w1 :=
         set_current (set_units_enabled (set_units_text w_ds2 "V") true)
           "run/1 [MAG]"
           (mk_plot_data (item1 "x" [n_ 0; n_ 1]) (item1 "y" [n_ 0; n_ 1])
                         (Some (mk_item "MAG" (mk_quantity z22 "V")))) in
       pc ← subtract_background no_lstsq w1 IdxNone; Ok (w1, pc)).
Proof.
  assert (Hy : ito1 convert_V (mk_quantity [n_ 1; n_ 2; n_ 6] "V") "parsec"
               = Raise ValueError) by reflexivity.
  split; [exact Hy|].
  destruct (unit_conversion_failure_falls_back no_lstsq convert_V w_ds)
    as (Htry & Hreplot & Hset1 & _).
  destruct (unit_conversion_failure_falls_back no_lstsq convert_V w_ds2)
    as (_ & _ & _ & Hset2).
  split; [exact (Htry _ (ito1 convert_V) _ "parsec" ValueError Hy)|].
  split.
  - destruct (Hreplot cd_1d) as (w' & cd' & Hrun & Hys & _ & Hxs & _).
    exists w', cd'. split; [exact Hrun|].
    destruct (Hys ValueError eq_refl eq_refl) as [Hy1 Hy2].
    destruct (Hxs ValueError eq_refl eq_refl) as [Hx1 Hx2].
    split; [exact Hy1|]. split; [exact Hy2|]. split; [exact Hx1|].
    exact (Hx2 eq_refl).
  - split.
    + exact (Hset1 "CAP" "height" ds0
               (mk_quantity [n_ 0; n_ 1; n_ 2] "V")
               (mk_quantity [n_ 1; n_ 2; n_ 6] "V") ValueError
               eq_refl eq_refl eq_refl eq_refl eq_refl).
    + exact (Hset2 "MAG" "x" "y" ds0
               (mk_quantity [n_ 0; n_ 1] "V") (mk_quantity [n_ 0; n_ 1] "V")
               (mk_quantity z22 "V") ValueError
               eq_refl eq_refl eq_refl eq_refl eq_refl eq_refl).
Defined.

Lemma export_failures_witness :
  dataset w_ds = Some ds0
  ∧ failing_savefig "fig.png" = Raise (OtherError "OSError")
  ∧ export_data failing_writer failing_writer failing_writer w_ds "out.mat"
    = Ok w_ds
  ∧ export_mpl failing_savefig w_ds "fig.png" = Raise (OtherError "OSError").
Proof.
  destruct (export_failures failing_writer failing_writer failing_writer
              failing_savefig w_ds "fig.png") as [_ Hmpl].
  destruct (export_failures failing_writer failing_writer failing_writer
              failing_savefig w_ds "out.mat") as [Hdata _].
  split; [reflexivity|]. split; [reflexivity|]. split; [exact Hdata|].
  exact (Hmpl ds0 (OtherError "OSError") eq_refl eq_refl).
Defined.

(** ** Concrete runs of the further properties *)

Lemma subtract_line_by_line_any_function_witness :
  h22 !! 1%positive = Some z22
  ∧ ∃ l' z',
      subtract_line_by_line 1%positive 0 line_itself h22
      = (Ok l', <[l' := z']> h22)
      ∧ h22 !! l' = None ∧ nd_shape z' = nd_shape z22
      ∧ ∀ i r, row z22 i = Ok r → row z' i = Ok (zip_with nsub r r).
Proof.
  split; [reflexivity|].
  apply (proj1 (subtract_line_by_line_any_function h22 1%positive z22
                  line_itself (λ r, zip_with nsub r r) eq_refl)).
  intros i r _. exists (Vector r). split; [reflexivity|].
  destruct r as [|a [|b r]]; cbn; rewrite ?Nat.eqb_refl; reflexivity.
Defined.

Lemma subtract_line_by_line_first_error_witness :
  h22 !! 1%positive = Some z22
  ∧ row z22 1 = Ok [n_ 3; n_ 7]
  ∧ fails_on_second [n_ 3; n_ 7] = Raise ValueError
  ∧ (subtract_line_by_line 1%positive 0 fails_on_second h22).1
    = Raise ValueError.
Proof.
  assert (Hf : fails_on_second [n_ 3; n_ 7] = Raise ValueError)
    by (vm_compute; reflexivity).
  split; [reflexivity|]. split; [reflexivity|]. split; [exact Hf|].
  apply (proj1 (subtract_line_by_line_first_error h22 1%positive z22
                  fails_on_second (λ r, (λ a, nsub a (nanmean r)) <$> r)
                  1 [n_ 3; n_ 7] ValueError eq_refl (or_introl Hf))).
  - reflexivity.
  - intros i r Hi Hr. assert (i = 0)%nat as -> by lia.
    injection Hr as <-. eexists. split; vm_compute; reflexivity.
Defined.

Lemma subtract_line_by_line_no_lines_witness :
  h00 !! 1%positive = Some z00
  ∧ nd_rows z00 = []
  ∧ subtract_line_by_line 1%positive 0 mean_of h00
    = (Ok (fresh (dom h00)), <[fresh (dom h00) := z00]> h00).
Proof.
  split; [reflexivity|]. split; [reflexivity|].
  exact (proj1 (subtract_line_by_line_no_lines h00 1%positive z00 mean_of
                  eq_refl) eq_refl).
Defined.

Lemma subtract_background_none_is_identity_witness :
  selected_idx (set_backsub_radio w_1d 0) IdxNone = 0
  ∧ subtract_background no_lstsq (set_backsub_radio w_1d 0) IdxNone
    = Ok (Some (mk_plot_call (cd_xs cd_1d) (cd_ys cd_1d) None "t")).
Proof.
  split; [reflexivity|].
  exact (subtract_background_none_is_identity no_lstsq
           (set_backsub_radio w_1d 0) cd_1d IdxNone eq_refl eq_refl
           (or_introl eq_refl)).
Defined.

Lemma subtract_background_frame_witness :
  ∃ pc, subtract_background no_lstsq w_1d (IdxInt 3) = Ok (Some pc)
    ∧ pc_xs pc = cd_xs cd_1d
    ∧ pc_title pc = "t"
    ∧ name (pc_ys pc) = "CAP"
    ∧ units (array (pc_ys pc)) = "V".
Proof.
  eexists. split; [vm_compute; reflexivity|].
  edestruct (subtract_background_frame no_lstsq w_1d cd_1d (IdxInt 3))
    as (Hx & Ht & _ & Hn & Hu);
    [reflexivity | vm_compute; reflexivity |].
  split; [exact Hx|]. split; [exact Ht|]. split; [exact Hn | exact Hu].
Defined.

Lemma subtract_background_index_error_witness :
  selected_idx (set_backsub_radio w_1d 7) IdxNone = 7
  ∧ subtract_background no_lstsq (set_backsub_radio w_1d 7) IdxNone
    = Raise IndexError.
Proof.
  split; [reflexivity|].
  apply (subtract_background_index_error no_lstsq
           (set_backsub_radio w_1d 7) cd_1d IdxNone eq_refl).
  right. change (6 ≤ 7). lia.
Defined.


Lemma mean_subtraction_idempotent_witness :
  ∃ pc, subtract_background no_lstsq w_1d (IdxInt 3) = Ok (Some pc)
    ∧ subtract_background no_lstsq
        (set_current w_1d (fig_title w_1d)
           (mk_plot_data (pc_xs pc) (pc_ys pc) (pc_zs pc))) (IdxInt 3)
      = Ok (Some pc).
Proof.
  apply (mean_subtraction_idempotent no_lstsq w_1d cd_1d eq_refl
           (or_introl eq_refl)).
  - discriminate.
  - repeat constructor.
Defined.

Lemma min_max_subtraction_sign_witness :
  ∃ pc zs, subtract_background no_lstsq w_2d (IdxInt 1) = Ok (Some pc)
    ∧ pc_zs pc = Some zs
    ∧ Forall (λ a, nle (Fin 0%Qc) a = true) (ravel (magnitude (array zs)))
    ∧ Fin 0%Qc ∈ ravel (magnitude (array zs)).
Proof.
  destruct (min_max_subtraction_sign no_lstsq w_2d cd_2d eq_refl
              (or_intror eq_refl)) as [(pc & Hrun & Hall & Hin) _].
  - discriminate.
  - repeat constructor.
  - assert (Hzs : ∃ zs, pc_zs pc = Some zs).
    { assert (E : subtract_background no_lstsq w_2d (IdxInt 1)
                  = Ok (Some (mk_plot_call (cd_xs cd_2d) (cd_ys cd_2d)
                          (Some (mk_item "MAG"
                             (mk_quantity
                                (mk_ndarray [[n_ 0; n_ 1]; [n_ 2; n_ 6]] 2)
                                "V"))) "t")))
        by (vm_compute; reflexivity).
      rewrite E in Hrun. injection Hrun as <-. eauto. }
    destruct Hzs as [zs Hzs]. exists pc, zs.
    rewrite Hzs in Hall, Hin. done.
Defined.

Lemma linear_subtraction_removes_a_line_witness :
  ∃ pc, subtract_background no_lstsq w_line (IdxInt 5) = Ok (Some pc)
    ∧ magnitude (array (pc_ys pc)) = [Fin 0%Qc; Fin 0%Qc; Fin 0%Qc].
Proof.
  apply (linear_subtraction_removes_a_line no_lstsq w_line cd_line
           (Q2Qc 2) (Q2Qc 1) xs_line eq_refl eq_refl eq_refl eq_refl).
  by_eval.
Defined.


Lemma update_index_range_witness :
  nd_wf z22
  ∧ (∃ u, update blank_rotate SliceY false (Fin 0%Qc) (n_ 0, n_ 1)
            (n_ 0, n_ 1) z22 (-1) = Ok u
       ∧ su_index u = -1
       ∧ length (su_xdata u) = length (su_ydata u))
  ∧ update blank_rotate SliceY false (Fin 0%Qc) (n_ 0, n_ 1) (n_ 0, n_ 1)
      z22 2
    = Raise IndexError.
Proof.
  assert (Hwf : nd_wf z22) by (repeat constructor).
  assert (HN : (0 < length (nd_rows z22))%nat) by (simpl; lia).
  assert (HM : (0 < nd_ncols z22)%nat) by (simpl; lia).
  split; [exact Hwf|]. split.
  - apply (proj1 (update_index_range blank_rotate SliceY false (n_ 0, n_ 1)
                    (n_ 0, n_ 1) z22 (-1) Hwf HN HM)).
    simpl. lia.
  - apply (proj2 (update_index_range blank_rotate SliceY false (n_ 0, n_ 1)
                    (n_ 0, n_ 1) z22 2 Hwf HN HM)).
    simpl. lia.
Defined.

Lemma first_slice_returns_iff_witness :
  nd_wf z13
  ∧ (∃ sp, first_slice SliceX x3 [] z13 = Ok sp)
  ∧ first_slice SliceX [n_ 0] [] z13 = Raise IndexError.
Proof.
  assert (Hwf : nd_wf z13) by (repeat constructor).
  split; [exact Hwf|]. split.
  - apply (proj1 (first_slice_returns_iff SliceX x3 [] z13 Hwf)).
    split; [simpl; lia | reflexivity].
  - assert (E : ∃ e, first_slice SliceX [n_ 0] [] z13 = Raise e)
      by (eexists; vm_compute; reflexivity).
    destruct E as [e He]. rewrite He. f_equal.
    exact (proj2 (first_slice_returns_iff SliceX [n_ 0] [] z13 Hwf) e He).
Defined.

Lemma segments_of_a_polyline_witness :
  length (segments p3) = 1%nat
  ∧ segments p3 !! 0%nat
    = Some [(n_ 0, n_ 1); (n_ 1, n_ 2); (n_ 2, n_ 3)].
Proof.
  split.
  - exact (proj1 (segments_of_a_polyline p3)).
  - exact (proj2 (segments_of_a_polyline p3) 0%nat _ _ _
             eq_refl eq_refl eq_refl).
Defined.

Lemma plot_2d_matplotlib_outcome_witness :
  nd_wf z22
  ∧ ∃ fig line,
      plot_2d blank_rotate false (item1 "x" [n_ 0; n_ 1])
        (item1 "y" [n_ 0; n_ 1]) (mk_item "MAG" (mk_quantity z22 "V"))
        (Fin 0%Qc) (Some SliceX) false (n_ 0, n_ 1) (n_ 0, n_ 1)
      = Ok (inr fig)
      ∧ extract_slice SliceX z22 0 = Ok line
      ∧ mf_exp_data fig !! "slice"
        = Some (ExpSlice "x" (linspace (n_ 0) (n_ 1) 2) "V"
                         "MAG" line "V" 0).
Proof.
  assert (Hwf : nd_wf z22) by (repeat constructor).
  split; [exact Hwf|].
  destruct (proj2 (plot_2d_matplotlib_outcome blank_rotate
                     (item1 "x" [n_ 0; n_ 1]) (item1 "y" [n_ 0; n_ 1])
                     (mk_item "MAG" (mk_quantity z22 "V"))
                     (Some SliceX) false (n_ 0, n_ 1) (n_ 0, n_ 1)) Hwf)
    as (fig & Hrun & line & Hline & Hexp);
    [simpl; lia | simpl; lia | reflexivity | reflexivity |].
  exists fig, line. split; [exact Hrun|]. split; [exact Hline | exact Hexp].
Defined.

Lemma plot_2d_mpl_exported_coordinates_witness :
  nd_wf z12
  ∧ ∃ x y,
      plot_2d_mpl blank_rotate (item1 "x" [n_ 0; n_ 1]) (item1 "y" [n_ 0])
        (mk_item "MAG" (mk_quantity z12 "V")) (Fin 0%Qc)
        (n_ 0, n_ 1) (n_ 0, n_ 1) !! "x" = Some (Exp1 x "V")
      ∧ length x = 1%nat
      ∧ plot_2d_mpl blank_rotate (item1 "x" [n_ 0; n_ 1]) (item1 "y" [n_ 0])
          (mk_item "MAG" (mk_quantity z12 "V")) (Fin 0%Qc)
          (n_ 0, n_ 1) (n_ 0, n_ 1) !! "y" = Some (Exp1 y "V")
      ∧ length y = 2%nat.
Proof.
  assert (Hwf : nd_wf z12) by (repeat constructor).
  split; [exact Hwf|].
  destruct (plot_2d_mpl_exported_coordinates blank_rotate
              (item1 "x" [n_ 0; n_ 1]) (item1 "y" [n_ 0])
              (mk_item "MAG" (mk_quantity z12 "V"))
              (n_ 0, n_ 1) (n_ 0, n_ 1))
    as (x & y & Hx & _ & Hlx & Hy & _ & Hly & _);
    [discriminate | discriminate | discriminate | exact Hwf |].
  exists x, y. split; [exact Hx|]. split; [exact Hlx|].
  split; [exact Hy | exact Hly].
Defined.

Lemma set_slice_outcome_witness :
  (set_slice ui0 IdxNone).1 = Ok ()
  ∧ x_slice_shown (set_slice ui0 IdxNone).2 = true
  ∧ y_slice_shown (set_slice ui0 IdxNone).2 = false
  ∧ (set_slice ui0 (IdxInt 5)).1 = Raise ValueError
  ∧ slice_state_id (set_slice ui0 (IdxInt 5)).2 = 5.
Proof.
  destruct (set_slice_outcome ui0 IdxNone) as (_ & Hok & _).
  destruct Hok as (Hrun & Hx & Hy & _); [simpl; lia|].
  destruct (set_slice_outcome ui0 (IdxInt 5)) as (Hid & _ & Hbad).
  destruct Hbad as (Hraise & _); [right; lia|].
  split; [exact Hrun|]. split; [exact Hx|]. split; [exact Hy|].
  split; [exact Hraise | exact Hid].
Defined.

Lemma orient_mirrors_witness :
  nd_wf z22
  ∧ entry (magnitude (orient "neg" "pos" (mk_quantity z22 "V"))) 0 0
    = entry z22 0 1
  ∧ orient "neg" "pos" (orient "neg" "pos" (mk_quantity z22 "V"))
    = mk_quantity z22 "V".
Proof.
  assert (Hwf : nd_wf z22) by (repeat constructor).
  destruct (orient_mirrors "neg" "pos" (mk_quantity z22 "V") Hwf)
    as (_ & _ & _ & Hentry & Hinv).
  split; [exact Hwf|]. split; [|exact Hinv].
  apply (Hentry 0%nat 0%nat); simpl; lia.
Defined.

Lemma set_plot_from_name_errors_witness :
  dataset w_1d = None
  ∧ set_plot_from_name no_lstsq convert_V w_1d "CAP" = Raise AttributeError
  ∧ arrays w_ds !! "nope" = None
  ∧ set_plot_from_name no_lstsq convert_V w_ds "nope" = Raise KeyError.
Proof.
  split; [reflexivity|]. split.
  - exact (proj1 (set_plot_from_name_errors no_lstsq convert_V w_1d "CAP")
             eq_refl).
  - assert (Hn : arrays w_ds !! "nope" = None) by (vm_compute; reflexivity).
    split; [exact Hn|].
    destruct (set_plot_from_name_errors no_lstsq convert_V w_ds "nope")
      as (_ & _ & _ & Hkey & _).
    apply (Hkey ds0 "height" (mk_quantity [n_ 0; n_ 1; n_ 2] "V") eq_refl
             eq_refl); [vm_compute; reflexivity | exact Hn].
Defined.

Lemma image_view_slices_are_data_lines_witness :
  nd_wf z22
  ∧ ∃ s, SliceableImageView.update_slice view22 = Ok s
      ∧ row z22 0 = Ok (SliceableImageView.x_slice s).2
      ∧ col z22 1 = Ok (SliceableImageView.y_slice s).2
      ∧ entry z22 0 1 = Some (SliceableImageView.x_hline s).
Proof.
  assert (Hwf : nd_wf z22) by (repeat constructor).
  split; [exact Hwf|].
  destruct (image_view_slices_are_data_lines view22 z22 Hwf eq_refl)
    as (s & r & c & a & Hs & Hr & Hc & Ha & Hx & _ & Hy & _ & Hh);
    [simpl; lia | simpl; lia |].
  exists s. split; [exact Hs|].
  rewrite Hx, Hy, Hh. cbn [snd].
  split; [exact Hr|]. split; [exact Hc | exact Ha].
Defined.

Lemma set_position_keeps_cross_on_image_witness :
  nd_wf (transpose z22)
  ∧ ∃ v' a s,
      SliceableImageView.set_position view22 (n_ 5, n_ (-3)) = Ok (v', a, s)
      ∧ 0 ≤ SliceableImageView.x_cross_index v' < 2
      ∧ 0 ≤ SliceableImageView.y_cross_index v' < 2
      ∧ entry (transpose z22)
          (Z.to_nat (SliceableImageView.x_cross_index v'))
          (Z.to_nat (SliceableImageView.y_cross_index v'))
        = Some a.
Proof.
  assert (Hwf : nd_wf (transpose z22)) by (repeat constructor).
  split; [exact Hwf|].
  destruct (proj1 (set_position_keeps_cross_on_image view22
                     (n_ 5, n_ (-3)) Hwf) 5 (-3))
    as (v' & a & s & Hrun & _ & Hx & Hy & _ & _ & Ha & _);
    [simpl; lia | simpl; lia | reflexivity | reflexivity |].
  exists v', a, s. split; [exact Hrun|]. split; [exact Hx|].
  split; [exact Hy | exact Ha].
Defined.

